(** * JobHive server: the CV-analysis pipeline

    A shallow embedding of the CV-analysis subsystem of the JobHive
    server and the properties its specification states about it:

    - [src/services/openai.service.js]: response parsing and validation
      ([parseAndValidateResponse], [extractJsonFromContent],
      [createFallbackStructure], [validateResponseStructure]) and the
      retry loop ([makeAPICallWithRetry], [isNonRetryableError]);
    - the CVAnalysis model (schema defaults, [markAsCompleted],
      [markAsFailed], [softDelete]);
    - [src/controllers/cv-analyzer.controller.js]: the request handlers
      and the background run ([performAnalysis], [markAnalysisAsFailed]).

    Further properties cover what these call and what calls them: the
    stage methods and finders of the model, the upload middleware
    ([rateLimitCVUpload], [uploadCV], [validateCVUploadRequest]) and
    the upload route, the PDF parser service ([extractTextFromPDF],
    [validateFile], [validateExtractedContent], [countWords]), the
    authentication middlewares of [src/middleware/auth.js] and the
    usage counters of the OpenAI service.

    Conventions.  A JavaScript string is a [string], one character per
    code unit.  A JavaScript number that comes out of [JSON.parse] is a
    rational or a signed infinity (a literal such as 1e999 overflows);
    only comparisons are ever applied to it.  [undefined] is [None].
    The MongoDB collection is a [gmap] from document id to document, the
    upload directory a [gset] of paths.  What the platform supplies
    ([JSON.parse], Mongoose's schema validation on [save], Mongoose's
    [strictQuery] setting) is a parameter of the definitions that use it. *)

From Stdlib Require Import QArith Ascii String.
From stdpp Require Import gmap strings list fin_maps pretty sorting.

#[local] Set Warnings "-register-all".
Local Open Scope string_scope.
Local Open Scope list_scope.

(** ** JavaScript values *)

Inductive number : Type :=
| Fin (q : Q)
| Inf (negative : bool).

Inductive json : Type :=
| JNull
| JBool (b : bool)
| JNum (n : number)
| JStr (s : string)
| JArr (items : list json) (props : list (string * json))
| JObj (props : list (string * json)).

(** Errors, by constructor name.  [TypeError] is raised by the engine,
    [ApiError] by the OpenAI SDK (with the HTTP status when there is
    one), [ValidationError] by Mongoose. *)
Inductive jserror : Type :=
| Error (message : string)
| TypeError (message : string)
| ApiError (status : option Z) (message : string)
| ValidationError (message : string)
| OpenAIServiceError (message : string) (originalError : option jserror).

Definition error_message (e : jserror) : string :=
  match e with
  | Error m | TypeError m | ApiError _ m | ValidationError m
  | OpenAIServiceError m _ => m
  end.

Inductive result (A : Type) : Type :=
| Ok (a : A)
| Err (e : jserror).
Arguments Ok {A} a.
Arguments Err {A} e.

(** A computation that writes to the console: the lines written (the
    first argument of each [console.log], [console.warn] or
    [console.error]) and the value. *)
Definition logged (A : Type) : Type := (list string * A)%type.

Definition say {A : Type} (line : string) (c : logged A) : logged A :=
  (line :: c.1, c.2).

Definition quiet {A : Type} (a : A) : logged A := ([], a).

(** *** Properties of objects *)

Fixpoint assoc_get (k : string) (ps : list (string * json)) : option json :=
  match ps with
  | [] => None
  | (k', v) :: ps' => if String.eqb k k' then Some v else assoc_get k ps'
  end.

Fixpoint assoc_set (k : string) (v : json) (ps : list (string * json))
  : list (string * json) :=
  match ps with
  | [] => [(k, v)]
  | (k', v') :: ps' =>
      if String.eqb k k' then (k, v) :: ps' else (k', v') :: assoc_set k v ps'
  end.

Definition is_object (v : json) : bool :=
  match v with
  | JArr _ _ | JObj _ => true
  | _ => false
  end.

(** [v.k], for the property names of the analysis result (none of them
    is an array index or [length]). *)
Definition get (k : string) (v : json) : option json :=
  match v with
  | JArr _ ps | JObj ps => assoc_get k ps
  | _ => None
  end.

(** [k in v], for an object [v]. *)
Definition has (k : string) (v : json) : bool :=
  match get k v with
  | Some _ => true
  | None => false
  end.

(** [v.k = x], for an object [v]. *)
Definition put (k : string) (x : json) (v : json) : json :=
  match v with
  | JArr items ps => JArr items (assoc_set k x ps)
  | JObj ps => JObj (assoc_set k x ps)
  | _ => v
  end.

(** *** Truthiness, [typeof], [Math.min] and [Math.max] *)

Definition truthy (v : option json) : bool :=
  match v with
  | None | Some JNull => false
  | Some (JBool b) => b
  | Some (JNum (Fin q)) => negb (Qeq_bool q 0)
  | Some (JNum (Inf _)) => true
  | Some (JStr s) => negb (String.eqb s "")
  | Some (JArr _ _) | Some (JObj _) => true
  end.

Definition num_le (a b : number) : bool :=
  match a, b with
  | Inf true, _ => true
  | _, Inf false => true
  | Fin p, Fin q => Qle_bool p q
  | _, _ => false
  end.

Definition Math_min (a b : number) : number := if num_le a b then a else b.
Definition Math_max (a b : number) : number := if num_le a b then b else a.

(** ** openai.service.js: parsing and validating the response *)

Definition createFallbackStructure (content : string) : json :=
  JObj
    [ ("overallScore", JNum (Fin 75));
      ("summary", JObj
         [ ("strengths", JStr "CV analysis completed");
           ("areasOfImprovement", JStr "Please review the detailed analysis");
           ("keyFindings", JStr (String.substring 0 500 content +:+ "...")) ]);
      ("sections", JObj [ ("analysis", JStr content) ]);
      ("recommendations", JArr
         [ JObj
             [ ("priority", JStr "medium");
               ("category", JStr "general");
               ("suggestion", JStr "Please review the detailed analysis provided");
               ("impact", JStr "General improvements recommended") ] ] []);
      ("jobMatching", JObj [ ("compatibility", JNum (Fin 75)) ]);
      ("marketInsights", JObj
         [ ("analysis", JStr "Market analysis included in content") ]) ].

Definition essentialFields : list string := [ "overallScore" ].

Definition default_summary : json :=
  JObj
    [ ("strengths", JStr "Analysis completed");
      ("areasOfImprovement", JStr "Review recommendations");
      ("keyFindings", JStr "CV analysis completed successfully") ].

(** The loop over [essentialFields]: a missing field is reported and,
    when it is [overallScore], defaulted. *)
Definition check_essential (acc : logged json) (field : string) : logged json :=
  if has field acc.2 then acc
  else
    (acc.1 ++ [ "Missing field: " +:+ field +:+ ", using default value" ],
     if String.eqb field "overallScore"
     then put "overallScore" (JNum (Fin 75)) acc.2
     else acc.2).

Definition ensure (k : string) (dflt : json) (r : json) : json :=
  if truthy (get k r) then r else put k dflt r.

Definition clamp_score (n : number) : number :=
  Math_max (Fin 0) (Math_min (Fin 100) n).

(** [validateResponseStructure(response)] mutates [response]; the
    function returns the object after the call.  The [in] operator
    throws a [TypeError] on a value that is not an object. *)
Definition validateResponseStructure (response : json) : logged (result json) :=
  if negb (is_object response) then
    quiet (Err (TypeError "Cannot use 'in' operator to search for 'overallScore'"))
  else
    let '(warnings, r) := foldl check_essential (quiet response) essentialFields in
    let r := ensure "summary" default_summary r in
    let r := ensure "sections" (JObj []) r in
    let r := ensure "recommendations" (JArr [] []) r in
    let r := ensure "jobMatching" (JObj []) r in
    let r := ensure "marketInsights" (JObj []) r in
    let r :=
      match get "overallScore" r with
      | Some (JNum n) => put "overallScore" (JNum (clamp_score n)) r
      | _ => put "overallScore" (JNum (Fin 75)) r
      end in
    (warnings ++ [ "Response structure validated successfully" ], Ok r).

(** The match of [/\{[\s\S]*\}/]: from the first opening brace to the
    last closing brace after it. *)
Fixpoint from_first_open (s : string) : option string :=
  match s with
  | EmptyString => None
  | String c t => if Ascii.eqb c "{"%char then Some s else from_first_open t
  end.

Fixpoint upto_last_close (s : string) : option string :=
  match s with
  | EmptyString => None
  | String c t =>
      match upto_last_close t with
      | Some p => Some (String c p)
      | None => if Ascii.eqb c "}"%char then Some (String c EmptyString) else None
      end
  end.

Definition match_json_object (content : string) : option string :=
  match from_first_open content with
  | Some (String c t) => String c <$> upto_last_close t
  | _ => None
  end.

(** The OpenAI SDK's chat completion, as far as the service reads it. *)
Record Message : Type := { content : option string }.
Record Choice : Type := { message : option Message }.
Record Completion : Type := { choices : list Choice; total_tokens : option Z }.

(** [response.choices[0]?.message?.content] *)
Definition content_of (response : Completion) : option string :=
  c ← head (choices response); m ← message c; content m.

Section Parsing.

(** [JSON.parse]: [None] when it throws a [SyntaxError]. *)
Variable JSON_parse : string -> option json.

Definition extractJsonFromContent (content : string) : logged json :=
  match match_json_object content with
  | Some text =>
      match JSON_parse text with
      | Some v => quiet v
      | None =>
          say "Failed to extract JSON from content:"
            (quiet (createFallbackStructure content))
      end
  | None =>
      say "No JSON found, creating fallback structure..."
        (quiet (createFallbackStructure content))
  end.

(** The body of the [try] block of [parseAndValidateResponse]. *)
Definition parse_body (response : Completion) : logged (result json) :=
  match content_of response with
  | None | Some EmptyString => quiet (Err (Error "Empty response from OpenAI"))
  | Some content =>
      let '(l1, parsed) :=
        match JSON_parse content with
        | Some v => quiet v
        | None =>
            say "Direct JSON parsing failed, attempting to extract JSON..."
              (extractJsonFromContent content)
        end in
      let '(l2, r) := validateResponseStructure parsed in
      (l1 ++ l2, r)
  end.

Definition parseAndValidateResponse (response : Completion)
  : logged (result json) :=
  match parse_body response with
  | (l, Ok parsed) => (l, Ok parsed)
  | (l, Err error) =>
      (l ++ [ "Failed to parse OpenAI response:"; "Response content:" ],
       Err (OpenAIServiceError "Invalid response format from OpenAI"
              (Some error)))
  end.

End Parsing.

(** ** openai.service.js: the retry loop *)

(** The part of the service object the retry loop reads. *)
Record OpenAIService : Type := {
  retryAttempts : nat;
  retryDelay : Z;
  maxRetryDelay : Z
}.

(** The values the constructor sets. *)
Definition new_OpenAIService : OpenAIService :=
  {| retryAttempts := 3; retryDelay := 1000; maxRetryDelay := 30000 |}.

(** What a run of the loop does to the outside: a request to the API
    ([this.client.chat.completions.create]) or a [this.sleep(ms)]. *)
Inductive effect : Type :=
| Call
| Sleep (ms : Z).

Definition nonRetryableStatuses : list Z := [400; 401; 403; 404; 422]%Z.

(** [error.status && nonRetryableStatuses.includes(error.status)] *)
Definition isNonRetryableError (error : jserror) : bool :=
  match error with
  | ApiError (Some status) _ =>
      negb (status =? 0)%Z && bool_decide (status ∈ nonRetryableStatuses)
  | _ => false
  end.

(** [Math.min(this.retryDelay * Math.pow(2, attempt), this.maxRetryDelay)] *)
Definition backoff (svc : OpenAIService) (attempt : nat) : Z :=
  Z.min (retryDelay svc * 2 ^ Z.of_nat attempt) (maxRetryDelay svc).

(** The [for] loop from [attempt] on, with [remaining] iterations left;
    [client k] is the outcome of the request made in iteration [k]. *)
Fixpoint retry_from (svc : OpenAIService) (client : nat -> result Completion)
    (remaining attempt : nat) (lastError : option jserror)
  : list effect * result Completion :=
  match remaining with
  | O =>
      ([], Err (OpenAIServiceError
                  ("OpenAI API failed after " +:+ pretty (retryAttempts svc)
                     +:+ " attempts")
                  lastError))
  | S remaining' =>
      match client attempt with
      | Ok response => ([Call], Ok response)
      | Err error =>
          if isNonRetryableError error then ([Call], Err error)
          else
            let pause :=
              if (attempt <? retryAttempts svc - 1)%nat
              then [Sleep (backoff svc attempt)] else [] in
            let '(effects, r) :=
              retry_from svc client remaining' (S attempt) (Some error) in
            (Call :: pause ++ effects, r)
      end
  end.

Definition makeAPICallWithRetry (svc : OpenAIService)
    (client : nat -> result Completion) : list effect * result Completion :=
  retry_from svc client (retryAttempts svc) 0 None.

Definition is_call (e : effect) : bool :=
  match e with
  | Call => true
  | Sleep _ => false
  end.

Definition calls (effects : list effect) : nat :=
  length (List.filter is_call effects).

Definition delays (effects : list effect) : list Z :=
  omap (λ e, match e with Sleep ms => Some ms | Call => None end) effects.

(** The object [analyzeCV] hands to the controller ([openaiProcessing],
    the usage counters, is left out). *)
Record AIResult : Type := {
  ai_overallScore : option json;
  ai_summary : option json;
  ai_sections : option json;
  ai_recommendations : option json;
  ai_jobMatching : option json;
  ai_marketInsights : option json
}.

Section Analysis.

Variable JSON_parse : string -> option json.

Definition analyzeCVComprehensive (svc : OpenAIService)
    (client : nat -> result Completion) : list effect * result json :=
  let '(effects, r) := makeAPICallWithRetry svc client in
  (effects,
   match r with
   | Ok response =>
       match (parseAndValidateResponse JSON_parse response).2 with
       | Ok parsed => Ok parsed
       | Err error => Err (OpenAIServiceError "CV analysis failed" (Some error))
       end
   | Err error => Err (OpenAIServiceError "CV analysis failed" (Some error))
   end).

Definition analyzeCV (svc : OpenAIService)
    (client : nat -> result Completion) : list effect * result AIResult :=
  let '(effects, r) := analyzeCVComprehensive svc client in
  (effects,
   match r with
   | Ok parsed =>
       Ok {| ai_overallScore := get "overallScore" parsed;
             ai_summary := get "summary" parsed;
             ai_sections := get "sections" parsed;
             ai_recommendations := get "recommendations" parsed;
             ai_jobMatching := get "jobMatching" parsed;
             ai_marketInsights := get "marketInsights" parsed |}
   | Err error => Err (OpenAIServiceError "CV analysis failed" (Some error))
   end).

End Analysis.

(** ** The CVAnalysis model *)

Inductive Status : Type := Pending | Processing | Completed | Failed.

Inductive StageStatus : Type := StagePending | InProgress | StageCompleted | StageFailed.

Record Stage : Type := {
  stage : string;
  stageStatus : StageStatus;
  startTime : option nat;
  endTime : option nat;
  stageError : option string
}.

Record JobData : Type := {
  experienceLevel : string;
  major : string;
  targetJobTitle : option string
}.

(** A document of the collection.  [extractedText] is [None] only in a
    projection that excludes it.  Times are ticks of the world's clock.
    The paths no handler below reads or writes ([openaiProcessing],
    [analytics], [version]) are left out, and so is [updatedAt], which
    Mongoose rewrites on every write: two documents that are equal here
    agree on the paths of the record, not on the time of their last
    write. *)
Record CVAnalysis : Type := {
  userId : nat;
  originalFilename : string;
  filePath : string;
  fileSize : Z;
  extractedText : option string;
  jobData : JobData;
  overallScore : option json;
  summary : option json;
  sections : json;
  recommendations : json;
  jobMatching : json;
  marketInsights : json;
  processingStatus : Status;
  errorMessage : option string;
  processingStages : list Stage;
  isActive : bool;
  deletedAt : option nat;
  createdAt : nat
}.

Definition terminal (s : Status) : bool :=
  match s with
  | Completed | Failed => true
  | Pending | Processing => false
  end.

(** Assignments to the paths of a document. *)
Definition with_status (s : Status) (d : CVAnalysis) : CVAnalysis :=
  {| userId := userId d; originalFilename := originalFilename d;
     filePath := filePath d; fileSize := fileSize d;
     extractedText := extractedText d; jobData := jobData d;
     overallScore := overallScore d; summary := summary d;
     sections := sections d; recommendations := recommendations d;
     jobMatching := jobMatching d; marketInsights := marketInsights d;
     processingStatus := s; errorMessage := errorMessage d;
     processingStages := processingStages d; isActive := isActive d;
     deletedAt := deletedAt d; createdAt := createdAt d |}.

Definition with_errorMessage (m : option string) (d : CVAnalysis) : CVAnalysis :=
  {| userId := userId d; originalFilename := originalFilename d;
     filePath := filePath d; fileSize := fileSize d;
     extractedText := extractedText d; jobData := jobData d;
     overallScore := overallScore d; summary := summary d;
     sections := sections d; recommendations := recommendations d;
     jobMatching := jobMatching d; marketInsights := marketInsights d;
     processingStatus := processingStatus d; errorMessage := m;
     processingStages := processingStages d; isActive := isActive d;
     deletedAt := deletedAt d; createdAt := createdAt d |}.

Definition with_stages (l : list Stage) (d : CVAnalysis) : CVAnalysis :=
  {| userId := userId d; originalFilename := originalFilename d;
     filePath := filePath d; fileSize := fileSize d;
     extractedText := extractedText d; jobData := jobData d;
     overallScore := overallScore d; summary := summary d;
     sections := sections d; recommendations := recommendations d;
     jobMatching := jobMatching d; marketInsights := marketInsights d;
     processingStatus := processingStatus d; errorMessage := errorMessage d;
     processingStages := l; isActive := isActive d;
     deletedAt := deletedAt d; createdAt := createdAt d |}.

Definition with_extractedText (t : option string) (d : CVAnalysis) : CVAnalysis :=
  {| userId := userId d; originalFilename := originalFilename d;
     filePath := filePath d; fileSize := fileSize d;
     extractedText := t; jobData := jobData d;
     overallScore := overallScore d; summary := summary d;
     sections := sections d; recommendations := recommendations d;
     jobMatching := jobMatching d; marketInsights := marketInsights d;
     processingStatus := processingStatus d; errorMessage := errorMessage d;
     processingStages := processingStages d; isActive := isActive d;
     deletedAt := deletedAt d; createdAt := createdAt d |}.

Definition with_jobData (j : JobData) (d : CVAnalysis) : CVAnalysis :=
  {| userId := userId d; originalFilename := originalFilename d;
     filePath := filePath d; fileSize := fileSize d;
     extractedText := extractedText d; jobData := j;
     overallScore := overallScore d; summary := summary d;
     sections := sections d; recommendations := recommendations d;
     jobMatching := jobMatching d; marketInsights := marketInsights d;
     processingStatus := processingStatus d; errorMessage := errorMessage d;
     processingStages := processingStages d; isActive := isActive d;
     deletedAt := deletedAt d; createdAt := createdAt d |}.

Definition with_softDelete (t : nat) (d : CVAnalysis) : CVAnalysis :=
  {| userId := userId d; originalFilename := originalFilename d;
     filePath := filePath d; fileSize := fileSize d;
     extractedText := extractedText d; jobData := jobData d;
     overallScore := overallScore d; summary := summary d;
     sections := sections d; recommendations := recommendations d;
     jobMatching := jobMatching d; marketInsights := marketInsights d;
     processingStatus := processingStatus d; errorMessage := errorMessage d;
     processingStages := processingStages d; isActive := false;
     deletedAt := Some t; createdAt := createdAt d |}.

(** The six result paths, as [performAnalysis] and [reanalyzeCV] write them. *)
Definition with_results (score smry : option json)
    (sects recs matching insights : json) (d : CVAnalysis) : CVAnalysis :=
  {| userId := userId d; originalFilename := originalFilename d;
     filePath := filePath d; fileSize := fileSize d;
     extractedText := extractedText d; jobData := jobData d;
     overallScore := score; summary := smry;
     sections := sects; recommendations := recs;
     jobMatching := matching; marketInsights := insights;
     processingStatus := processingStatus d; errorMessage := errorMessage d;
     processingStages := processingStages d; isActive := isActive d;
     deletedAt := deletedAt d; createdAt := createdAt d |}.

(** *** Instance methods (each ends in [this.save()]) *)

Definition complete_stage (now : nat) (s : Stage) : Stage :=
  match stageStatus s with
  | InProgress =>
      {| stage := stage s; stageStatus := StageCompleted;
         startTime := startTime s; endTime := Some now;
         stageError := stageError s |}
  | _ => s
  end.

Definition markAsCompleted (now : nat) (d : CVAnalysis) : CVAnalysis :=
  with_stages (complete_stage now <$> processingStages d)
    (with_status Completed d).

(** [markAsFailed] fails the first stage that is in progress. *)
Fixpoint fail_current (now : nat) (message : string) (l : list Stage) : list Stage :=
  match l with
  | [] => []
  | s :: l' =>
      match stageStatus s with
      | InProgress =>
          {| stage := stage s; stageStatus := StageFailed;
             startTime := startTime s; endTime := Some now;
             stageError := Some message |} :: l'
      | _ => s :: fail_current now message l'
      end
  end.

Definition markAsFailed (now : nat) (error : jserror) (d : CVAnalysis) : CVAnalysis :=
  with_stages (fail_current now (error_message error) (processingStages d))
    (with_status Failed d).

Definition softDelete (now : nat) (d : CVAnalysis) : CVAnalysis :=
  with_softDelete now d.

(** ** cv-analyzer.controller.js *)

(** [String.prototype.trim], over the white space of Latin-1. *)
Definition is_space (c : ascii) : bool :=
  bool_decide (nat_of_ascii c ∈ [9; 10; 11; 12; 13; 32; 160]).

Fixpoint trimStart (s : string) : string :=
  match s with
  | EmptyString => EmptyString
  | String c t => if is_space c then trimStart t else s
  end.

Fixpoint trimEnd (s : string) : string :=
  match s with
  | EmptyString => EmptyString
  | String c t =>
      match trimEnd t with
      | EmptyString => if is_space c then EmptyString else String c EmptyString
      | t' => String c t'
      end
  end.

Definition trim (s : string) : string := trimEnd (trimStart s).

(** Truthiness of a value that is a string or [undefined]. *)
Definition given (s : option string) : bool :=
  match s with
  | Some (String _ _) => true
  | _ => false
  end.

(** The collection, the upload directory and the clock. *)
Record World : Type := {
  db : gmap nat CVAnalysis;
  files : gset string;
  clock : nat
}.

(** The file multer stored for the request. *)
Record File : Type := {
  originalname : string;
  path : string;
  size : Z
}.

Record UploadBody : Type := {
  up_experienceLevel : option string;
  up_major : option string;
  up_targetJobTitle : option string;
  up_file : option File
}.

Record ReanalyzeBody : Type := {
  re_experienceLevel : option string;
  re_major : option string;
  re_targetJobTitle : option string
}.

(** [page] and [limit] after [parseInt] (defaults 1 and 10). *)
Record HistoryQuery : Type := {
  q_page : nat;
  q_limit : nat;
  q_status : option string
}.

(** The result of [CVAnalysis.paginate]. *)
Record Page : Type := {
  docs : list (nat * CVAnalysis);
  totalDocs : nat;
  limit : nat;
  page : nat
}.

(** The JSON bodies the handlers send (the [error] member of a 500
    body, present in development mode only, is left out). *)
Inductive Payload : Type :=
| Plain (success : bool) (message : string)
| Started (message : string) (analysisId : nat) (status : Status)
| Analysis (analysisId : nat) (data : CVAnalysis)
| History (data : Page).

Record Response : Type := {
  code : nat;
  body : Payload
}.

Definition not_found : Response :=
  {| code := 404; body := Plain false "Analysis not found" |}.

(** What a background run is given: the outcome of
    [pdfParserService.extractTextFromPDF] and of each request to the API. *)
Record RunEnv : Type := {
  extraction : result string;
  api : nat -> result Completion
}.

Definition with_db (m : gmap nat CVAnalysis) (w : World) : World :=
  {| db := m; files := files w; clock := clock w |}.

(** [fs.unlink(p)]: removing a path that is not there throws, and every
    caller catches that. *)
Definition unlink (p : string) (w : World) : World :=
  {| db := db w; files := files w ∖ {[ p ]}; clock := clock w |}.

(** [CVAnalysis.findOne({ _id, userId })] *)
Definition findOne (id user : nat) (w : World) : option CVAnalysis :=
  match db w !! id with
  | Some d => if bool_decide (userId d = user) then Some d else None
  | None => None
  end.

(** [CVAnalysis.findByIdAndUpdate(id, { processingStatus: 'failed',
    errorMessage })]: no document, no change; update validators are
    off; the setter of the path ([trim: true]) is applied to the
    message.  The update also rewrites [updatedAt], which is not a
    path of the record here. *)
Definition markAnalysisAsFailed (id : nat) (message : string) (w : World) : World :=
  with_db
    (alter (λ d, with_errorMessage (Some (trim message)) (with_status Failed d))
       id (db w))
    w.

(** The order of [sort: { createdAt: -1 }]. *)
Definition newer_first (a b : nat * CVAnalysis) : Prop :=
  (createdAt b.2 ≤ createdAt a.2)%nat.

#[local] Instance newer_first_dec a b : Decision (newer_first a b) :=
  decide (createdAt b.2 ≤ createdAt a.2)%nat.

Section Controller.

Variable JSON_parse : string -> option json.

(** Mongoose's validation of a document on [save()]: the message of
    the [ValidationError], if there is one. *)
Variable validate : CVAnalysis -> option string.

(** Mongoose's [strictQuery]: whether a filter path that is not in
    the schema is dropped from the filter. *)
Variable strictQuery : bool.

Variable svc : OpenAIService.

Definition uploadAndAnalyzeCV (user : nat) (req : UploadBody) (w : World)
  : World * Response * list nat :=
  match up_experienceLevel req, up_major req with
  | Some (String c1 l1), Some (String c2 l2) =>
      match up_file req with
      | None =>
          (w, {| code := 400; body := Plain false "No CV file uploaded" |}, [])
      | Some file =>
          let title :=
            match up_targetJobTitle req with
            | Some t => if given (Some t) && given (Some (trim t))
                        then Some (trim t) else None
            | None => None
            end in
          let analysis :=
            {| userId := user;
               originalFilename := trim (originalname file);
               filePath := trim (path file);
               fileSize := size file;
               extractedText := Some "Processing...";
               jobData := {| experienceLevel := String c1 l1;
                             major := trim (String c2 l2);
                             targetJobTitle := title |};
               overallScore := None; summary := None;
               sections := JObj []; recommendations := JArr [] [];
               jobMatching := JObj []; marketInsights := JObj [];
               processingStatus := Processing;
               errorMessage := None; processingStages := [];
               isActive := true; deletedAt := None;
               createdAt := clock w |} in
          match validate analysis with
          | Some _ =>
              (unlink (path file) w,
               {| code := 500;
                  body := Plain false "Failed to upload and analyze CV" |},
               [])
          | None =>
              let id := fresh (dom (db w)) in
              ({| db := <[ id := analysis ]> (db w); files := files w;
                  clock := S (clock w) |},
               {| code := 202;
                  body := Started
                    "CV uploaded successfully. Analysis is in progress."
                    id (processingStatus analysis) |},
               [ id ])
          end
      end
  | _, _ =>
      (w, {| code := 400;
             body := Plain false "Experience level and major are required" |},
       [])
  end.

Definition getAnalysisResults (user id : nat) (w : World)
  : World * Response * list nat :=
  match findOne id user w with
  | None => (w, not_found, [])
  | Some analysis => (w, {| code := 200; body := Analysis id analysis |}, [])
  end.

(** The filter [{ userId, status }] of the history handler.  [status]
    is not a path of the schema: under [strictQuery] it is dropped
    from the filter, otherwise it is matched against documents, none
    of which has such a path. *)
Definition history_filter (user : nat) (q : HistoryQuery) (d : CVAnalysis) : bool :=
  bool_decide (userId d = user)
  && (if given (q_status q) then strictQuery else true).

(** [CVAnalysis.paginate(query, options)], as mongoose-paginate-v2
    documents it: a page below 1 is page 1, a limit of 0 returns no
    documents; [select] drops [extractedText]. *)
Definition paginate (user : nat) (q : HistoryQuery) (w : World) : Page :=
  let matched :=
    List.filter (λ p, history_filter user q p.2) (map_to_list (db w)) in
  let sorted := merge_sort newer_first matched in
  let p := Nat.max 1 (q_page q) in
  {| docs :=
       if (q_limit q =? 0)%nat then []
       else (λ x, (x.1, with_extractedText None x.2))
              <$> take (q_limit q) (drop ((p - 1) * q_limit q) sorted);
     totalDocs := length matched;
     limit := q_limit q;
     page := p |}.

Definition getAnalysisHistory (user : nat) (q : HistoryQuery) (w : World)
  : World * Response * list nat :=
  (w, {| code := 200; body := History (paginate user q w) |}, []).

Definition reanalyzeCV (user id : nat) (req : ReanalyzeBody) (w : World)
  : World * Response * list nat :=
  match findOne id user w with
  | None => (w, not_found, [])
  | Some analysis =>
      let jobData' :=
        if given (re_experienceLevel req) || given (re_major req)
           || given (re_targetJobTitle req)
        then
          {| experienceLevel :=
               match re_experienceLevel req with
               | Some (String c l) => String c l
               | _ => experienceLevel (jobData analysis)
               end;
             major :=
               match re_major req with
               | Some (String c l) => trim (String c l)
               | _ => major (jobData analysis)
               end;
             targetJobTitle :=
               match re_targetJobTitle req with
               | Some t => if given (Some t) && given (Some (trim t))
                           then Some (trim t) else None
               | None => targetJobTitle (jobData analysis)
               end |}
        else jobData analysis in
      let analysis' :=
        with_errorMessage None
          (with_results None None (JObj []) (JArr [] []) (JObj []) (JObj [])
             (with_status Processing (with_jobData jobData' analysis))) in
      match validate analysis' with
      | Some _ =>
          (w, {| code := 500; body := Plain false "Failed to reanalyze CV" |}, [])
      | None =>
          (with_db (<[ id := analysis' ]> (db w)) w,
           {| code := 200;
              body := Started "CV reanalysis started successfully"
                        id (processingStatus analysis') |},
           [ id ])
      end
  end.

Definition deleteAnalysis (user id : nat) (w : World)
  : World * Response * list nat :=
  match findOne id user w with
  | None => (w, not_found, [])
  | Some analysis =>
      (with_db (delete id (db w)) (unlink (filePath analysis) w),
       {| code := 200; body := Plain true "Analysis deleted successfully" |},
       [])
  end.

(** The [try] block of [performAnalysis]: the world as the block
    leaves it, the requests and pauses of the AI client, and the
    error thrown, if any. *)
Definition analysis_body (env : RunEnv) (id : nat) (w : World)
  : World * list effect * result unit :=
  match db w !! id with
  | None => (w, [], Err (Error "Analysis record not found"))
  | Some analysis =>
      let extracted :=
        match extraction env with
        | Err e => Err e
        | Ok text =>
            match validate (with_extractedText (Some text) analysis) with
            | Some m => Err (ValidationError m)
            | None => Ok text
            end
        end in
      match extracted with
      | Err e =>
          (w, [],
           Err (Error ("Failed to extract text from CV: " +:+ error_message e)))
      | Ok text =>
          let analysis := with_extractedText (Some text) analysis in
          let w := with_db (<[ id := analysis ]> (db w)) w in
          if negb (given (Some text)) || (String.length (trim text) =? 0)%nat then
            (w, [], Err (Error "No text content found in the uploaded CV"))
          else
            match analyzeCV JSON_parse svc (api env) with
            | (effects, Err e) => (w, effects, Err e)
            | (effects, Ok aiResult) =>
                let keep (v : option json) (old : json) : json :=
                  match v with
                  | Some x => if truthy v then x else old
                  | None => old
                  end in
                let analysis :=
                  with_status Completed
                    (with_results
                       (ai_overallScore aiResult) (ai_summary aiResult)
                       (keep (ai_sections aiResult) (sections analysis))
                       (keep (ai_recommendations aiResult) (recommendations analysis))
                       (keep (ai_jobMatching aiResult) (jobMatching analysis))
                       (keep (ai_marketInsights aiResult) (marketInsights analysis))
                       analysis) in
                match validate analysis with
                | Some m => (w, effects, Err (ValidationError m))
                | None =>
                    (with_db (<[ id := analysis ]> (db w)) w, effects, Ok ())
                end
            end
      end
  end.

(** [performAnalysis]: an error of the body marks the record failed
    and is thrown again. *)
Definition performAnalysis (env : RunEnv) (id : nat) (w : World)
  : World * list effect * result unit :=
  match analysis_body env id w with
  | (w', effects, Ok u) => (w', effects, Ok u)
  | (w', effects, Err error) =>
      (markAnalysisAsFailed id (error_message error) w', effects, Err error)
  end.

(** A run as the handlers start it:
    [this.performAnalysis(id).catch(error => markAnalysisAsFailed(id, error.message))]. *)
Definition background_run (env : RunEnv) (id : nat) (w : World)
  : World * list effect :=
  match performAnalysis env id w with
  | (w', effects, Ok _) => (w', effects)
  | (w', effects, Err error) =>
      (markAnalysisAsFailed id (error_message error) w', effects)
  end.

(** *** The system: requests and background runs, one at a time *)

Inductive Request : Type :=
| Upload (user : nat) (req : UploadBody)
| GetResults (user id : nat)
| GetHistory (user : nat) (q : HistoryQuery)
| Reanalyze (user id : nat) (req : ReanalyzeBody)
| Delete (user id : nat).

Inductive Event : Type :=
| Req (r : Request)
| Run (id : nat) (env : RunEnv).

Definition handle (r : Request) (w : World) : World * Response * list nat :=
  match r with
  | Upload user req => uploadAndAnalyzeCV user req w
  | GetResults user id => getAnalysisResults user id w
  | GetHistory user q => getAnalysisHistory user q w
  | Reanalyze user id req => reanalyzeCV user id req w
  | Delete user id => deleteAnalysis user id w
  end.

Definition step (e : Event) (w : World) : World :=
  match e with
  | Req r => (handle r w).1.1
  | Run id env => (background_run env id w).1
  end.

End Controller.

(** ** Sample data *)

(** A stand-in for [JSON.parse] that agrees with it on the texts used in
    the examples: it parses the empty object and rejects plain prose. *)
Definition table_parse (text : string) : option json :=
  if String.eqb text "{}" then Some (JObj []) else None.

(** A validator for the bounds of the schema the examples meet:
    [extractedText] is required and at most 50000 characters long. *)
Definition sample_validate (d : CVAnalysis) : option string :=
  match extractedText d with
  | None | Some EmptyString => Some "Extracted text is required"
  | Some t =>
      if (50000 <? Z.of_nat (String.length t))%Z then Some "Extracted text too long"
      else None
  end.

Definition sample_doc (user : nat) (s : Status) (t : nat) : CVAnalysis :=
  {| userId := user; originalFilename := "cv.pdf";
     filePath := "uploads/cv-analyzer/cv-1.pdf"; fileSize := 1024;
     extractedText := Some "Ten years of engineering experience";
     jobData := {| experienceLevel := "mid"; major := "Computer Science";
                   targetJobTitle := None |};
     overallScore := Some (JNum (Fin 85)); summary := None;
     sections := JObj []; recommendations := JArr [] [];
     jobMatching := JObj []; marketInsights := JObj [];
     processingStatus := s; errorMessage := None; processingStages := [];
     isActive := true; deletedAt := None; createdAt := t |}.

Definition sample_world : World :=
  {| db := {[ 1 := sample_doc 7 Completed 10; 2 := sample_doc 7 Failed 11;
              3 := sample_doc 8 Completed 12 ]};
     files := {[ "uploads/cv-analyzer/cv-1.pdf" ]};
     clock := 20 |}.

Definition sample_completion (text : option string) : Completion :=
  {| choices := [ {| message := Some {| content := text |} |} ];
     total_tokens := Some 1200%Z |}.



(** A model answer with a section score out of range. *)
Definition overrated : json :=
  JObj
    [ ("overallScore", JNum (Fin 50));
      ("sections", JObj
         [ ("atsCompatibility", JObj [ ("score", JNum (Fin 150)) ]) ]) ].

Definition no_changes : ReanalyzeBody :=
  {| re_experienceLevel := None; re_major := None; re_targetJobTitle := None |}.

Definition sample_upload : UploadBody :=
  {| up_experienceLevel := Some "mid";
     up_major := Some "Computer Science";
     up_targetJobTitle := None;
     up_file := Some {| originalname := "resume.pdf";
                        path := "uploads/cv-analyzer/cv-2.pdf";
                        size := 51200 |} |}.

Definition completed_only : HistoryQuery :=
  {| q_page := 1; q_limit := 10; q_status := Some "completed" |}.

(** ** Auxiliary notions of the properties *)

Definition fallback_lines : list string :=
  [ "No JSON found, creating fallback structure...";
    "Failed to extract JSON from content:" ].

(** The parser took the fallback: one of the two lines written before
    [createFallbackStructure] is called is on the console. *)
Definition fallback_reached (console : list string) : Prop :=
  ∃ line, line ∈ fallback_lines ∧ line ∈ console.

(** Iteration [k] of the retry loop when its request fails retryably. *)
Definition failed_round (svc : OpenAIService) (k : nat) : list effect :=
  Call :: (if (k <? retryAttempts svc - 1)%nat
           then [Sleep (backoff svc k)] else []).

(** ** Further notions *)

(** An attempt that ends the retry loop: a response, or an error the
    loop does not retry. *)
Definition decisive (r : result Completion) : bool :=
  match r with
  | Ok _ => true
  | Err e => isNonRetryableError e
  end.

(** [s.includes(c)] for a single character. *)
Fixpoint occurs (c : ascii) (s : string) : bool :=
  match s with
  | EmptyString => false
  | String d t => Ascii.eqb c d || occurs c t
  end.

(** The members [validateResponseStructure] fills in beside the score. *)
Definition structureFields : list string :=
  [ "summary"; "sections"; "recommendations"; "jobMatching"; "marketInsights" ].

(** A stand-in for [JSON.parse] on one more text: the number 42. *)
Definition table_parse_number (text : string) : option json :=
  if String.eqb text "42" then Some (JNum (Fin 42)) else table_parse text.

(** A reanalyze request that sends an empty target job title and
    nothing else. *)
Definition empty_title_only : ReanalyzeBody :=
  {| re_experienceLevel := None; re_major := None;
     re_targetJobTitle := Some "" |}.

Definition titled_doc : CVAnalysis :=
  with_jobData
    {| experienceLevel := "mid"; major := "Computer Science";
       targetJobTitle := Some "Data Engineer" |}
    (sample_doc 7 Completed 10).

Definition titled_world : World :=
  {| db := {[ 1 := titled_doc ]};
     files := {[ "uploads/cv-analyzer/cv-1.pdf" ]};
     clock := 20 |}.

(** ** The CVAnalysis model: stages and finders *)

(** The assignments of [updateStage] to the stage it has found. *)
Definition update_stage (now : nat) (status : StageStatus)
    (error : option string) (s : Stage) : Stage :=
  {| stage := stage s;
     stageStatus := status;
     startTime := match status with
                  | InProgress => Some now
                  | _ => startTime s
                  end;
     endTime := match status with
                | StageCompleted | StageFailed => Some now
                | _ => endTime s
                end;
     stageError := match status with
                   | StageCompleted | StageFailed =>
                       if given error then error else stageError s
                   | _ => stageError s
                   end |}.

(** [processingStages.find(s => s.stage === stageName)], updated in place. *)
Fixpoint update_first (stageName : string) (f : Stage → Stage)
    (l : list Stage) : list Stage :=
  match l with
  | [] => []
  | s :: l' =>
      if String.eqb (stage s) stageName then f s :: l'
      else s :: update_first stageName f l'
  end.

Definition updateStage (now : nat) (stageName : string) (status : StageStatus)
    (error : option string) (d : CVAnalysis) : CVAnalysis :=
  with_stages
    (update_first stageName (update_stage now status error)
       (processingStages d))
    d.

Definition is_in_progress (s : Stage) : bool :=
  match stageStatus s with
  | InProgress => true
  | _ => false
  end.

Definition in_progress (l : list Stage) : nat :=
  length (List.filter is_in_progress l).

(** [options.limit] and [options.skip] of [findByUser] (0 when absent). *)
Record FindOptions : Type := {
  opt_limit : nat;
  opt_skip : nat
}.

(** [CVAnalysis.findByUser(userId, options)]:
    [find({ userId, isActive: true }).sort({ createdAt: -1 })
      .limit(options.limit || 10).skip(options.skip || 0)]. *)
Definition findByUser (user : nat) (options : FindOptions) (w : World)
  : list (nat * CVAnalysis) :=
  take (if (opt_limit options =? 0)%nat then 10%nat else opt_limit options)
    (drop (opt_skip options)
       (merge_sort newer_first
          (List.filter
             (λ p, bool_decide (userId p.2 = user) && isActive p.2)
             (map_to_list (db w))))).

Definition is_completed (s : Status) : bool :=
  match s with
  | Completed => true
  | _ => false
  end.

(** [CVAnalysis.findCompletedAnalyses(userId)] *)
Definition findCompletedAnalyses (user : nat) (w : World)
  : list (nat * CVAnalysis) :=
  merge_sort newer_first
    (List.filter
       (λ p, bool_decide (userId p.2 = user)
             && is_completed (processingStatus p.2)
             && isActive p.2)
       (map_to_list (db w))).

Definition staged_doc : CVAnalysis :=
  with_stages
    [ {| stage := "upload"; stageStatus := StageCompleted;
         startTime := Some 1%nat; endTime := Some 2%nat; stageError := None |};
      {| stage := "parsing"; stageStatus := InProgress;
         startTime := Some 2%nat; endTime := None; stageError := None |};
      {| stage := "analysis"; stageStatus := InProgress;
         startTime := Some 3%nat; endTime := None; stageError := None |} ]
    (sample_doc 7 Processing 10).

(** ** cv-upload.middleware.js *)

(** The JSON body of a rejection by a middleware. *)
Record Rejection : Type := {
  rej_code : nat;
  rej_message : string;
  rej_field : option string;
  rej_retryAfter : option Z
}.

Definition windowMs : Z := 60 * 1000.
Definition maxUploads : nat := 5.

(** [now - timestamp < windowMs] *)
Definition recent (now timestamp : Z) : bool := (now - timestamp <? windowMs)%Z.

(** [rateLimitCVUpload]: [global.uploadRateLimit] maps a user id to the
    times of the uploads let through (a map not yet created is an
    empty one); [None] stands for [next()]. *)
Definition rateLimitCVUpload (user : nat) (now : Z) (m : gmap nat (list Z))
  : gmap nat (list Z) * option Rejection :=
  let userUploads := default [] (m !! user) in
  let validUploads := List.filter (recent now) userUploads in
  if (maxUploads <=? length validUploads)%nat then
    (m, Some {| rej_code := 429;
                rej_message := "Too many upload requests. Please try again later.";
                rej_field := None;
                rej_retryAfter := Some 60%Z |})
  else (<[ user := validUploads ++ [ now ] ]> m, None).

(** The requests (user, time) the limiter lets through, in order. *)
Fixpoint let_through (requests : list (nat * Z)) (m : gmap nat (list Z))
  : list (nat * Z) :=
  match requests with
  | [] => []
  | (user, now) :: rest =>
      match rateLimitCVUpload user now m with
      | (m', None) => (user, now) :: let_through rest m'
      | (m', Some _) => let_through rest m'
      end
  end.

(** A time that lies in the window of length [windowMs] ending at [T]. *)
Definition in_window (T t : Z) : bool := (T - windowMs <? t)%Z && (t <=? T)%Z.

Definition by_user_in_window (user : nat) (T : Z) (r : nat * Z) : bool :=
  (r.1 =? user)%nat && in_window T r.2.

Definition by_user_recent (user : nat) (now : Z) (r : nat * Z) : bool :=
  (r.1 =? user)%nat && recent now r.2.

(** The text fields of the multipart body that the validation reads. *)
Record UploadFields : Type := {
  f_experienceLevel : option string;
  f_major : option string;
  f_jobId : option string
}.

Definition validExperienceLevels : list string :=
  [ "entry"; "mid"; "senior"; "executive" ].

Definition is_hex_digit (c : ascii) : bool :=
  let n := nat_of_ascii c in
  ((48 <=? n) && (n <=? 57) || (65 <=? n) && (n <=? 70)
   || (97 <=? n) && (n <=? 102))%nat.

(** [/^[0-9a-fA-F]{24}$/] *)
Definition is_object_id (s : string) : bool :=
  (String.length s =? 24)%nat && forallb is_hex_digit (list_ascii_of_string s).

Definition field_error (message field : string) : Rejection :=
  {| rej_code := 400; rej_message := message; rej_field := Some field;
     rej_retryAfter := None |}.

(** [validateCVUploadRequest]; [None] stands for [next()]. *)
Definition validateCVUploadRequest (b : UploadFields) : option Rejection :=
  match f_experienceLevel b with
  | None | Some EmptyString =>
      Some (field_error "Experience level is required" "experienceLevel")
  | Some experienceLevel =>
      match f_major b with
      | None | Some EmptyString =>
          Some (field_error "Major field is required" "major")
      | Some major =>
          if negb (bool_decide (experienceLevel ∈ validExperienceLevels)) then
            Some (field_error
                    ("Invalid experience level. Must be one of: "
                       +:+ String.concat ", " validExperienceLevels)
                    "experienceLevel")
          else if (String.length (trim major) <? 2)%nat
                  || (100 <? String.length (trim major))%nat then
            Some (field_error "Major field must be between 2 and 100 characters"
                    "major")
          else
            match f_jobId b with
            | Some (String c j) =>
                if is_object_id (String c j) then None
                else Some (field_error "Invalid job ID format" "jobId")
            | _ => None
            end
      end
  end.

(** A text between double quotes. *)
Definition quoted (s : string) : string :=
  String (ascii_of_nat 34) (s +:+ String (ascii_of_nat 34) EmptyString).

(** What multer made of the request: the file it stored, no file part,
    an error of its own (with its code) or the error of [fileFilter]. *)
Inductive MulterOutcome : Type :=
| Stored (file : File)
| NoFile
| MulterError (code message : string)
| FilterError (message : string).

(** [uploadCV]: the world once multer has written the file, and the
    rejection, if any (the file is taken to be readable). *)
Definition uploadCV (outcome : MulterOutcome) (w : World)
  : World * option Rejection :=
  match outcome with
  | MulterError code message =>
      (w, Some {| rej_code := 400;
                  rej_message :=
                    if String.eqb code "LIMIT_FILE_SIZE"
                    then "File size too large. Maximum size is 10MB"
                    else if String.eqb code "LIMIT_FILE_COUNT"
                    then "Too many files. Only one file is allowed"
                    else if String.eqb code "LIMIT_UNEXPECTED_FILE"
                    then "Unexpected field name. Use " +:+ quoted "cv"
                           +:+ " as the field name"
                    else message;
                  rej_field := None; rej_retryAfter := None |})
  | FilterError message =>
      (w, Some {| rej_code := 400; rej_message := message;
                  rej_field := None; rej_retryAfter := None |})
  | NoFile => (w, None)
  | Stored file =>
      ({| db := db w; files := files w ∪ {[ path file ]}; clock := clock w |},
       None)
  end.

(** One request to [POST /upload]. *)
Record UploadCall : Type := {
  call_user : nat;
  call_now : Z;
  call_multer : MulterOutcome;
  call_fields : UploadFields;
  call_targetJobTitle : option string
}.

Inductive Answer : Type :=
| Refused (r : Rejection)
| Answered (r : Response).

Definition uploaded_file (outcome : MulterOutcome) : option File :=
  match outcome with
  | Stored file => Some file
  | _ => None
  end.

(** The route [POST /upload]: [rateLimitCVUpload], [uploadCV],
    [validateCVUploadRequest], then the controller. *)
Definition uploadRoute (validate : CVAnalysis → option string)
    (c : UploadCall) (limiter : gmap nat (list Z)) (w : World)
  : gmap nat (list Z) * World * Answer * list nat :=
  match rateLimitCVUpload (call_user c) (call_now c) limiter with
  | (limiter', Some r) => (limiter', w, Refused r, [])
  | (limiter', None) =>
      match uploadCV (call_multer c) w with
      | (w1, Some r) => (limiter', w1, Refused r, [])
      | (w1, None) =>
          match validateCVUploadRequest (call_fields c) with
          | Some r => (limiter', w1, Refused r, [])
          | None =>
              let '(w2, response, runs) :=
                uploadAndAnalyzeCV validate (call_user c)
                  {| up_experienceLevel := f_experienceLevel (call_fields c);
                     up_major := f_major (call_fields c);
                     up_targetJobTitle := call_targetJobTitle c;
                     up_file := uploaded_file (call_multer c) |}
                  w1 in
              (limiter', w2, Answered response, runs)
          end
      end
  end.

(** What the limiter keeps true of the requests [H] it has let through
    so far, its map [m] and the time [last] of the latest request: the
    stored times of a user account for all of the user's requests that
    can still be recent, no window holds more than [maxUploads]
    requests of one user, and no request is later than [last]. *)
Definition limiter_inv (H : list (nat * Z)) (m : gmap nat (list Z))
    (last : Z) : Prop :=
  (∀ u now, (last ≤ now)%Z →
            length (List.filter (by_user_recent u now) H)
            = length (List.filter (recent now) (default [] (m !! u))))
  ∧ (∀ u T, (length (List.filter (by_user_in_window u T) H) ≤ maxUploads)%nat)
  ∧ (∀ r, r ∈ H → (r.2 ≤ last)%Z).

Definition not_before (a b : nat * Z) : Prop := (a.2 ≤ b.2)%Z.

Definition sample_fields : UploadFields :=
  {| f_experienceLevel := Some "senior";
     f_major := Some "  Computer Science ";
     f_jobId := None |}.

Definition sample_file : File :=
  {| originalname := "resume.pdf";
     path := "uploads/cv-analyzer/cv_1700000000000_ab12cd34ef56ab78.pdf";
     size := 51200 |}.

Definition sample_call (fields : UploadFields) : UploadCall :=
  {| call_user := 7; call_now := 1000; call_multer := Stored sample_file;
     call_fields := fields; call_targetJobTitle := None |}.

(** ** pdf-parser.service.js *)

(** The part of the service its checks read.  [maxFileSize] is
    [parseInt(process.env.CV_UPLOAD_MAX_SIZE) || 5242880]. *)
Record PDFParserService : Type := {
  maxFileSize : Z;
  maxTextLength : Z
}.

(** The constructor, given the parsed variable ([None] when it is unset
    or not a number). *)
Definition new_PDFParserService (CV_UPLOAD_MAX_SIZE : option Z)
  : PDFParserService :=
  {| maxFileSize := match CV_UPLOAD_MAX_SIZE with
                    | Some n => if (n =? 0)%Z then 5242880%Z else n
                    | None => 5242880%Z
                    end;
     maxTextLength := 50000%Z |}.

(** The errors of the service: an [Error], or a [PDFParserError] around
    the error it was made from. *)
Inductive pdferror : Type :=
| PlainError (message : string)
| PDFParserError (message : string) (originalError : pdferror).

Definition pdf_message (e : pdferror) : string :=
  match e with
  | PlainError m | PDFParserError m _ => m
  end.

(** [text.split(/\s+/)] over Latin-1 text: the pieces between the runs
    of white space; a leading or trailing run leaves an empty piece. *)
Fixpoint split_go (skipping : bool) (piece : string) (s : string)
  : list string :=
  match s with
  | EmptyString => [ piece ]
  | String c t =>
      if is_space c then
        if skipping then split_go true piece t
        else piece :: split_go true EmptyString t
      else split_go false (piece +:+ String c EmptyString) t
  end.

Definition split_whitespace (s : string) : list string :=
  split_go false EmptyString s.

(** A character of the class [[a-zA-Z0-9@.-]]. *)
Definition is_word_char (c : ascii) : bool :=
  let n := nat_of_ascii c in
  ((97 <=? n) && (n <=? 122) || (65 <=? n) && (n <=? 90)
   || (48 <=? n) && (n <=? 57)
   || (n =? 64) || (n =? 46) || (n =? 45))%nat.

(** [/^[a-zA-Z0-9@.-]{2,}$/.test(word) && word.length < 50] *)
Definition is_valid_word (word : string) : bool :=
  (2 <=? String.length word)%nat
  && forallb is_word_char (list_ascii_of_string word)
  && (String.length word <? 50)%nat.

(** [validateExtractedContent(text)]: the message of the error it
    throws, if it throws.  The ratio [validWords.length / words.length]
    of two counts is below 0.5 exactly when twice the first is below
    the second; the search for CV-like words only warns. *)
Definition validateExtractedContent (svc : PDFParserService) (text : string)
  : option string :=
  match text with
  | EmptyString => Some "No text extracted from PDF"
  | _ =>
      if (String.length text <? 50)%nat then
        Some "Extracted text too short - possible parsing error"
      else if (maxTextLength svc <? Z.of_nat (String.length text))%Z then
        Some ("Extracted text too long ("
                +:+ pretty (Z.of_nat (String.length text))
                +:+ " > " +:+ pretty (maxTextLength svc) +:+ ")")
      else
        let words := split_whitespace text in
        let validWords := List.filter is_valid_word words in
        if (2 * length validWords <? length words)%nat then
          Some "Low quality text extraction - possible corrupted PDF"
        else None
  end.

(** [countWords(text)] *)
Definition countWords (text : string) : nat :=
  match text with
  | EmptyString => 0
  | _ =>
      length (List.filter (λ word, (0 <? String.length word)%nat)
                (split_whitespace (trim text)))
  end.

(** What the file system and pdf-parse answer for one file: [fs.stat]
    (the size, or the message of its error), the lower-cased
    [path.extname] of the path, [fs.access] and [fs.readFile] (the
    message of the error or of the timeout, if any) and [pdfParse] (the
    raw text, or the message of the error or of the timeout). *)
Record FileFacts : Type := {
  stat_size : Z + string;
  extension : string;
  access_error : option string;
  read_error : option string;
  parsed_text : string + string
}.

Definition supportedMimeTypes : list string := [ "application/pdf" ].

(** [validateFile(filePath, fileInfo)]: the error it throws, if any.
    The two checks of the size are inside the [try] around [fs.stat],
    whose [catch] rethrows whatever was thrown as "File not
    accessible". *)
Definition validateFile (svc : PDFParserService) (facts : FileFacts)
    (mimetype : option string) : option pdferror :=
  let failed (e : string) :=
    Some (PDFParserError "File validation failed" (PlainError e)) in
  let stats : option string :=
    match stat_size facts with
    | inr message => Some message
    | inl size =>
        if (maxFileSize svc <? size)%Z then
          Some ("File size " +:+ pretty size
                  +:+ " exceeds maximum allowed size "
                  +:+ pretty (maxFileSize svc))
        else if (size =? 0)%Z then Some "File is empty"
        else None
    end in
  match stats with
  | Some message => failed ("File not accessible: " +:+ message)
  | None =>
      if negb (String.eqb (extension facts) ".pdf") then
        failed ("Unsupported file extension: " +:+ extension facts
                  +:+ ". Only PDF files are allowed.")
      else
        match mimetype with
        | Some (String c m) =>
            if negb (bool_decide (String c m ∈ supportedMimeTypes)) then
              failed ("Unsupported MIME type: " +:+ String c m)
            else
              match access_error facts with
              | Some message => failed ("File is not readable: " +:+ message)
              | None => None
              end
        | _ =>
            match access_error facts with
            | Some message => failed ("File is not readable: " +:+ message)
            | None => None
            end
        end
  end.

Section Extraction.

(** The chain of replacements of [cleanExtractedText] (regular
    expressions over the text of the PDF) on a text that is not empty. *)
Variable clean : string -> string.

(** [cleanExtractedText(rawText)] *)
Definition cleanExtractedText (rawText : string) : pdferror + string :=
  match rawText with
  | EmptyString => inl (PlainError "Invalid text input for cleaning")
  | _ => inr (clean rawText)
  end.

(** The [try] block of [extractTextFromPDF], up to the text returned. *)
Definition extraction_body (svc : PDFParserService) (facts : FileFacts)
    (mimetype : option string) : pdferror + string :=
  match validateFile svc facts mimetype with
  | Some e => inl e
  | None =>
      match read_error facts with
      | Some message => inl (PlainError message)
      | None =>
          match parsed_text facts with
          | inr message => inl (PlainError message)
          | inl rawText =>
              match cleanExtractedText rawText with
              | inl e => inl e
              | inr cleanedText =>
                  match validateExtractedContent svc cleanedText with
                  | Some message => inl (PlainError message)
                  | None => inr cleanedText
                  end
              end
          end
      end
  end.

(** [extractTextFromPDF(filePath, fileInfo)]: every error is rethrown
    inside a [PDFParserError]. *)
Definition extractTextFromPDF (svc : PDFParserService) (facts : FileFacts)
    (mimetype : option string) : pdferror + string :=
  match extraction_body svc facts mimetype with
  | inr text => inr text
  | inl error => inl (PDFParserError "Failed to extract text from PDF" error)
  end.

(** The extraction as [performAnalysis] calls it (with the MIME type
    [application/pdf]) and sees it: the text, or an error of which it
    reads the message. *)
Definition extraction_of (svc : PDFParserService) (facts : FileFacts)
  : result string :=
  match extractTextFromPDF svc facts (Some "application/pdf") with
  | inr text => Ok text
  | inl error => Err (Error (pdf_message error))
  end.

End Extraction.

Definition all_space (s : string) : bool :=
  forallb is_space (list_ascii_of_string s).

Definition sample_text : string :=
  "Jane Doe jane.doe@example.com Senior engineer with ten years of experience in distributed systems and education in computing".

Definition sample_facts (size : Z) : FileFacts :=
  {| stat_size := inl size; extension := ".pdf"; access_error := None;
     read_error := None; parsed_text := inl sample_text |}.

(** ** auth.js *)

Fixpoint drop_chars (n : nat) (s : string) : string :=
  match n, s with
  | S n, String _ t => drop_chars n t
  | _, _ => s
  end.

(** [s.replace(pattern, "")] for a pattern that is a string: the first
    occurrence is removed. *)
Fixpoint remove_first (pattern s : string) : string :=
  if String.prefix pattern s then drop_chars (String.length pattern) s
  else
    match s with
    | EmptyString => EmptyString
    | String c t => String c (remove_first pattern t)
    end.

(** What the middlewares read of a request: the [Authorization] header
    and the cookie [token] (cookie-parser is installed). *)
Record AuthRequest : Type := {
  authorization : option string;
  cookie_token : option string
}.

(** The payload of a verified token: [type] (when it is a string),
    [userId] and [companyId]. *)
Record Decoded : Type := {
  tok_type : option string;
  tok_userId : option string;
  tok_companyId : option string
}.

(** A user document, without the password. *)
Record Account : Type := {
  account_id : nat;
  account_isActive : bool
}.

(** The middleware answers itself, or calls [next] with what it has put
    on the request: [req.user], [req.company], [req.userType]. *)
Inductive AuthOutcome : Type :=
| Denied (status : nat) (message : string)
| Next (user : option Account) (company : option nat)
       (userType : option string).

(** [req.header("Authorization")?.replace("Bearer ", "") || req.cookies.token] *)
Definition request_token (req : AuthRequest) : option string :=
  let header := remove_first "Bearer " <$> authorization req in
  if given header then header else cookie_token req.

Section Auth.

(** [jwt.verify(token, process.env.JWT_SECRET)]: [None] when it throws. *)
Variable jwt_verify : string -> option Decoded.

(** [User.findById(id).select("-password")] and [Company.findById(id)]:
    [None] when the query is rejected, [Some None] for [null]. *)
Variable User_findById : option string -> option (option Account).
Variable Company_findById : option string -> option (option nat).

Definition authenticateUser (req : AuthRequest) : AuthOutcome :=
  match request_token req with
  | Some (String c t) =>
      match jwt_verify (String c t) with
      | None => Denied 401 "Invalid token."
      | Some decoded =>
          if negb (bool_decide (tok_type decoded = Some "user")) then
            Denied 403 "Access denied. Invalid token type."
          else
            match User_findById (tok_userId decoded) with
            | None => Denied 401 "Invalid token."
            | Some None => Denied 401 "Invalid token. User not found."
            | Some (Some user) =>
                if negb (account_isActive user) then
                  Denied 401 "Account is deactivated."
                else Next (Some user) None None
            end
      end
  | _ => Denied 401 "Access denied. No token provided."
  end.

Definition authenticateCompany (req : AuthRequest) : AuthOutcome :=
  match request_token req with
  | Some (String c t) =>
      match jwt_verify (String c t) with
      | None => Denied 401 "Invalid token."
      | Some decoded =>
          if negb (bool_decide (tok_type decoded = Some "company")) then
            Denied 403 "Access denied. Invalid token type."
          else
            match Company_findById (tok_companyId decoded) with
            | None => Denied 401 "Invalid token."
            | Some None => Denied 401 "Invalid token. Company not found."
            | Some (Some company) => Next None (Some company) None
            end
      end
  | _ => Denied 401 "Access denied. No token provided."
  end.

Definition authenticateAny (req : AuthRequest) : AuthOutcome :=
  match request_token req with
  | Some (String c t) =>
      match jwt_verify (String c t) with
      | None => Denied 401 "Invalid token."
      | Some decoded =>
          if bool_decide (tok_type decoded = Some "user") then
            match User_findById (tok_userId decoded) with
            | None => Denied 401 "Invalid token."
            | Some (Some user) =>
                if account_isActive user then
                  Next (Some user) None (Some "user")
                else Denied 401 "Invalid token or deactivated account."
            | Some None => Denied 401 "Invalid token or deactivated account."
            end
          else if bool_decide (tok_type decoded = Some "company") then
            match Company_findById (tok_companyId decoded) with
            | None => Denied 401 "Invalid token."
            | Some None => Denied 401 "Invalid token. Company not found."
            | Some (Some company) => Next None (Some company) (Some "company")
            end
          else Denied 403 "Access denied. Invalid token type."
      end
  | _ => Denied 401 "Access denied. No token provided."
  end.

Definition optionalAuth (req : AuthRequest) : AuthOutcome :=
  match request_token req with
  | Some (String c t) =>
      match jwt_verify (String c t) with
      | None => Next None None None
      | Some decoded =>
          if bool_decide (tok_type decoded = Some "user") then
            match User_findById (tok_userId decoded) with
            | Some (Some user) =>
                if account_isActive user then
                  Next (Some user) None (Some "user")
                else Next None None None
            | _ => Next None None None
            end
          else if bool_decide (tok_type decoded = Some "company") then
            match Company_findById (tok_companyId decoded) with
            | Some (Some company) => Next None (Some company) (Some "company")
            | _ => Next None None None
            end
          else Next None None None
      end
  | _ => Next None None None
  end.

(** The guard of the CV analyzer's router: every path but
    [/test-upload] goes through [authenticateUser]. *)
Definition cv_router_guard (path : string) (req : AuthRequest) : AuthOutcome :=
  if String.eqb path "/test-upload" then Next None None None
  else authenticateUser req.

End Auth.

(** A verifier and two collections to run the middlewares on. *)
Definition sample_verify (token : string) : option Decoded :=
  if String.eqb token "user-token" then
    Some {| tok_type := Some "user"; tok_userId := Some "7";
            tok_companyId := None |}
  else if String.eqb token "company-token" then
    Some {| tok_type := Some "company"; tok_userId := None;
            tok_companyId := Some "3" |}
  else None.

Definition sample_users (id : option string) : option (option Account) :=
  match id with
  | Some i =>
      if String.eqb i "7"
      then Some (Some {| account_id := 7; account_isActive := true |})
      else Some None
  | None => Some None
  end.

Definition sample_companies (id : option string) : option (option nat) :=
  match id with
  | Some i => if String.eqb i "3" then Some (Some 3) else Some None
  | None => Some None
  end.

(** ** The usage counters of the OpenAI service *)

Record UsageStats : Type := {
  tokensUsed : Z;
  requestCount : Z
}.

(** The counters as the constructor sets them. *)
Definition new_UsageStats : UsageStats :=
  {| tokensUsed := 0; requestCount := 0 |}.

(** [trackUsage(response.usage)]: [total] is [usage.total_tokens], and
    [None] when the response has no usage or the usage no total. *)
Definition trackUsage (total : option Z) (u : UsageStats) : UsageStats :=
  {| tokensUsed := tokensUsed u + default 0%Z total;
     requestCount := requestCount u |}.

(** [this.requestCount++], which [makeAPICallWithRetry] does once the
    request of an attempt has been answered. *)
Definition countRequest (u : UsageStats) : UsageStats :=
  {| tokensUsed := tokensUsed u; requestCount := requestCount u + 1 |}.

Definition resetUsageStats (u : UsageStats) : UsageStats :=
  {| tokensUsed := 0; requestCount := 0 |}.

Section Usage.

Variable JSON_parse : string -> option json.

(** The counters after [analyzeCVComprehensive]: the loop of
    [makeAPICallWithRetry] counts the request that is answered (the
    attempts that fail are not counted), and [trackUsage] is reached
    when the response has been parsed. *)
Definition usage_after_analysis (svc : OpenAIService)
    (client : nat -> result Completion) (u : UsageStats) : UsageStats :=
  match (makeAPICallWithRetry svc client).2 with
  | Ok response =>
      let u := countRequest u in
      match (parseAndValidateResponse JSON_parse response).2 with
      | Ok _ => trackUsage (total_tokens response) u
      | Err _ => u
      end
  | Err _ => u
  end.

(** [openaiProcessing.tokensUsed] in the result of [analyzeCV]: the
    counter of the service, read once the analysis has returned. *)
Definition reported_tokens (svc : OpenAIService)
    (client : nat -> result Completion) (u : UsageStats) : option Z :=
  match (analyzeCV JSON_parse svc client).2 with
  | Ok _ => Some (tokensUsed (usage_after_analysis svc client u))
  | Err _ => None
  end.

(** What is asked of the service, one call at a time. *)
Inductive ServiceCall : Type :=
| Analyze (client : nat -> result Completion)
| ResetUsage.

Definition service_call (svc : OpenAIService) (u : UsageStats)
    (c : ServiceCall) : UsageStats :=
  match c with
  | Analyze client => usage_after_analysis svc client u
  | ResetUsage => resetUsageStats u
  end.

(** The calls made after the last reset. *)
Definition since_reset (calls : list ServiceCall) : list ServiceCall :=
  foldl (λ kept c, match c with
                   | ResetUsage => []
                   | Analyze _ => kept ++ [ c ]
                   end) [] calls.

(** An analysis whose request was answered, at some attempt. *)
Definition answered (svc : OpenAIService) (c : ServiceCall) : bool :=
  match c with
  | Analyze client =>
      match (makeAPICallWithRetry svc client).2 with
      | Ok _ => true
      | Err _ => false
      end
  | ResetUsage => false
  end.

(** The tokens an analysis adds to the total: those of its response,
    when it has one that can be used. *)
Definition counted_tokens (svc : OpenAIService) (c : ServiceCall) : Z :=
  match c with
  | Analyze client =>
      match (makeAPICallWithRetry svc client).2 with
      | Ok response =>
          match (parseAndValidateResponse JSON_parse response).2 with
          | Ok _ => default 0%Z (total_tokens response)
          | Err _ => 0%Z
          end
      | Err _ => 0%Z
      end
  | ResetUsage => 0%Z
  end.

End Usage.

(** Requests with one pause between each two of them, none before the
    first and none after the last. *)
Definition paced (pauses : list Z) : list effect :=
  Call :: flat_map (λ ms, [ Sleep ms; Call ]) pauses.

(** * Properties *)

(** ** Objects *)

Lemma assoc_get_set_eq k x ps : assoc_get k (assoc_set k x ps) = Some x.
Proof.
  induction ps as [|[k' v'] ps IH]; simpl.
  - by rewrite String.eqb_refl.
  - destruct (String.eqb k k') eqn:E; simpl.
    + by rewrite String.eqb_refl.
    + by rewrite E.
Qed.

Lemma assoc_get_set_ne k k' x ps :
  k ≠ k' → assoc_get k (assoc_set k' x ps) = assoc_get k ps.
Proof.
  intros Hne. apply String.eqb_neq in Hne as Hkk'.
  induction ps as [|[k0 v0] ps IH]; simpl.
  - by rewrite Hkk'.
  - destruct (String.eqb k' k0) eqn:E; simpl.
    + apply String.eqb_eq in E as <-. by rewrite Hkk'.
    + by rewrite IH.
Qed.

Lemma is_object_put k x v : is_object (put k x v) = is_object v.
Proof. by destruct v. Qed.

Lemma get_put_eq k x v : is_object v = true → get k (put k x v) = Some x.
Proof. destruct v; simpl; try done; intros _; apply assoc_get_set_eq. Qed.

Lemma get_put_ne k k' x v : k ≠ k' → get k (put k' x v) = get k v.
Proof. intros ?. destruct v; simpl; try done; by apply assoc_get_set_ne. Qed.

Lemma is_object_ensure k x v : is_object (ensure k x v) = is_object v.
Proof. unfold ensure. destruct (truthy _); [done|apply is_object_put]. Qed.

Lemma get_ensure_ne k k' x v : k ≠ k' → get k (ensure k' x v) = get k v.
Proof.
  intros ?. unfold ensure. destruct (truthy _); [done|by apply get_put_ne].
Qed.

Lemma get_ensure_truthy k x v :
  truthy (get k v) = true → get k (ensure k x v) = get k v.
Proof. intros H. unfold ensure. by rewrite H. Qed.

(** ** Score bounds *)

Lemma clamp_score_bounds n :
  ∃ q, clamp_score n = Fin q ∧ (0 <= q)%Q ∧ (q <= 100)%Q.
Proof.
  destruct n as [q|[]]; unfold clamp_score, Math_min, Math_max; simpl.
  - destruct (Qle_bool 100 q) eqn:E100; simpl.
    + exists 100%Q. split; [done|]. split; [by apply Qle_bool_iff|apply Qle_refl].
    + assert (q < 100)%Q as Hlt.
      { apply Qnot_le_lt. intros H. apply Qle_bool_iff in H. congruence. }
      destruct (Qle_bool 0 q) eqn:E0.
      * exists q. split; [done|]. split; [by apply Qle_bool_iff|by apply Qlt_le_weak].
      * exists 0%Q. split; [done|]. split; [apply Qle_refl|done].
  - exists 0%Q. repeat split; done.
  - exists 100%Q. repeat split; done.
Qed.

Lemma check_essential_fields response :
  is_object response = true →
  ∃ warnings r,
    foldl check_essential (quiet response) essentialFields = (warnings, r)
    ∧ is_object r = true
    ∧ (∀ k, k ≠ "overallScore" → get k r = get k response)
    ∧ (∀ line, line ∈ warnings →
         line = "Missing field: overallScore, using default value").
Proof.
  intros Hobj. simpl. unfold check_essential. simpl.
  destruct (has "overallScore" response).
  - exists [], response. repeat split; try done. intros line Hin. inversion Hin.
  - eexists _, _. split; [reflexivity|]. split; [by rewrite is_object_put|].
    split.
    + intros k Hk. by apply get_put_ne.
    + intros line Hin. apply list_elem_of_singleton in Hin. by subst.
Qed.




(** A payload that is not an object makes validation throw. *)
Lemma validate_rejects_non_object response :
  is_object response = false →
  ∃ message, (validateResponseStructure response).2 = Err (TypeError message).
Proof.
  intros H. unfold validateResponseStructure. rewrite H. by eexists.
Qed.



(** ** The parser *)

Lemma validate_fallback content :
  validateResponseStructure (createFallbackStructure content)
  = ([ "Response structure validated successfully" ],
     Ok (createFallbackStructure content)).
Proof. reflexivity. Qed.

Lemma validate_log_lines response line :
  line ∈ (validateResponseStructure response).1 →
  line = "Missing field: overallScore, using default value"
  ∨ line = "Response structure validated successfully".
Proof.
  unfold validateResponseStructure.
  destruct (is_object response) eqn:Hobj; simpl negb; cbv iota.
  - destruct (check_essential_fields response Hobj)
      as (warnings & r0 & -> & _ & _ & Hwarn).
    simpl. intros [Hin|Hin]%elem_of_app.
    + left. by apply Hwarn.
    + right. by apply list_elem_of_singleton in Hin.
  - simpl. intros Hin. inversion Hin.
Qed.

Lemma fallback_reached_app l1 l2 :
  fallback_reached (l1 ++ l2) ↔ fallback_reached l1 ∨ fallback_reached l2.
Proof.
  unfold fallback_reached. split.
  - intros (line & ? & [?|?]%elem_of_app); [left|right]; by exists line.
  - intros [(line & ? & ?)|(line & ? & ?)]; exists line;
      (split; [done|]); apply elem_of_app; auto.
Qed.

Lemma fallback_line_cases line :
  line ∈ fallback_lines →
  line = "No JSON found, creating fallback structure..."
  ∨ line = "Failed to extract JSON from content:".
Proof.
  unfold fallback_lines. intros Hin.
  apply elem_of_cons in Hin as [->|Hin]; [by left|].
  apply list_elem_of_singleton in Hin as ->. by right.
Qed.

Lemma catch_lines_not_fallback :
  ¬ fallback_reached [ "Failed to parse OpenAI response:"; "Response content:" ].
Proof.
  intros (line & Hline & Hin).
  apply elem_of_cons in Hin as [->|Hin];
    [|apply list_elem_of_singleton in Hin as ->];
    by apply fallback_line_cases in Hline as [?|?].
Qed.

Lemma validate_not_fallback response :
  ¬ fallback_reached (validateResponseStructure response).1.
Proof.
  intros (line & Hline & Hin). apply validate_log_lines in Hin.
  apply fallback_line_cases in Hline. by destruct Hin, Hline; subst.
Qed.

Section ParserProperties.

Variable JSON_parse : string -> option json.

Lemma extract_without_json content :
  (∀ text, match_json_object content = Some text → JSON_parse text = None) →
  (extractJsonFromContent JSON_parse content).2 = createFallbackStructure content.
Proof.
  intros Hnone. unfold extractJsonFromContent.
  destruct (match_json_object content) as [text|] eqn:E; [|done].
  by rewrite (Hnone text eq_refl).
Qed.

(** C5 (as amended).  A body that is not JSON and holds no embedded
    JSON object is parsed, without an error, into the fallback
    structure: overall score 75, the generic summary, and a
    recommendation list of one generic medium-priority item. *)
Theorem degraded_parse_fallback (response : Completion) (body : string) :
  content_of response = Some body →
  body ≠ "" →
  JSON_parse body = None →
  (∀ text, match_json_object body = Some text → JSON_parse text = None) →
  ∃ r item,
    (parseAndValidateResponse JSON_parse response).2 = Ok r
    ∧ r = createFallbackStructure body
    ∧ get "overallScore" r = Some (JNum (Fin 75))
    ∧ get "recommendations" r = Some (JArr [ item ] [])
    ∧ get "priority" item = Some (JStr "medium")
    ∧ get "suggestion" item
      = Some (JStr "Please review the detailed analysis provided").
Proof.
  intros Hcontent Hne Hparse Hnone.
  eexists (createFallbackStructure body), _.
  split; [|by repeat split].
  unfold parseAndValidateResponse, parse_body. rewrite Hcontent.
  destruct body as [|c rest]; [done|]. rewrite Hparse.
  pose proof (extract_without_json _ Hnone) as Hx.
  destruct (extractJsonFromContent JSON_parse (String c rest)) as [l v].
  simpl in Hx. subst v. unfold say. cbn [fst snd].
  by rewrite validate_fallback.
Qed.

(** C10.  With no message content, or the empty string, the parser
    throws an [OpenAIServiceError] that wraps "Empty response from
    OpenAI" and never takes the fallback; whenever it does take the
    fallback, the content was a non-empty string that [JSON.parse]
    rejected. *)
Theorem empty_content_raises (response : Completion) :
  (content_of response = None ∨ content_of response = Some "" →
   (parseAndValidateResponse JSON_parse response).2
   = Err (OpenAIServiceError "Invalid response format from OpenAI"
            (Some (Error "Empty response from OpenAI")))
   ∧ ¬ fallback_reached (parseAndValidateResponse JSON_parse response).1)
  ∧ (fallback_reached (parseAndValidateResponse JSON_parse response).1 →
     ∃ body, content_of response = Some body ∧ body ≠ ""
             ∧ JSON_parse body = None).
Proof.
  split.
  - intros Hempty.
    assert (parseAndValidateResponse JSON_parse response
            = ([ "Failed to parse OpenAI response:"; "Response content:" ],
               Err (OpenAIServiceError "Invalid response format from OpenAI"
                      (Some (Error "Empty response from OpenAI"))))) as ->.
    { unfold parseAndValidateResponse, parse_body.
      by destruct Hempty as [-> | ->]. }
    split; [done|apply catch_lines_not_fallback].
  - unfold parseAndValidateResponse, parse_body.
    destruct (content_of response) as [[|c rest]|] eqn:Hcontent;
      [by intros ?%catch_lines_not_fallback| |
       by intros ?%catch_lines_not_fallback].
    intros Hreached. exists (String c rest). split; [done|]. split; [done|].
    destruct (JSON_parse (String c rest)) as [v|] eqn:Hparse; [|done].
    exfalso. simpl in Hreached.
    pose proof (validate_not_fallback v) as Hv.
    destruct (validateResponseStructure v) as [l2 [r|e]]; simpl in *;
      [done|].
    apply fallback_reached_app in Hreached as [?|?]; [done|].
    by apply catch_lines_not_fallback.
Qed.

End ParserProperties.

Lemma degraded_parse_fallback_witness :
  let response := sample_completion (Some "Overall {strong} profile") in
  let body := "Overall {strong} profile" in
  content_of response = Some body
  ∧ body ≠ ""
  ∧ table_parse body = None
  ∧ (∀ text, match_json_object body = Some text → table_parse text = None)
  ∧ ∃ r item,
      (parseAndValidateResponse table_parse response).2 = Ok r
      ∧ r = createFallbackStructure body
      ∧ get "overallScore" r = Some (JNum (Fin 75))
      ∧ get "recommendations" r = Some (JArr [ item ] [])
      ∧ get "priority" item = Some (JStr "medium")
      ∧ get "suggestion" item
        = Some (JStr "Please review the detailed analysis provided").
Proof.
  assert (∀ text, match_json_object "Overall {strong} profile" = Some text →
                  table_parse text = None) as Hnone.
  { intros text Hm. vm_compute in Hm. by injection Hm as <-. }
  repeat (split; [done|]).
  by apply (degraded_parse_fallback table_parse
              (sample_completion (Some "Overall {strong} profile"))
              "Overall {strong} profile").
Defined.

(** C5, as stated, fails: the recommendation list of the degraded
    result is not empty; and the empty body, which is not JSON and
    holds no JSON object either, makes the parser throw. *)
Lemma fallback_recommendations_not_empty :
  let response := sample_completion (Some "not json") in
  content_of response = Some "not json"
  ∧ table_parse "not json" = None
  ∧ match_json_object "not json" = None
  ∧ (∃ r, (parseAndValidateResponse table_parse response).2 = Ok r
          ∧ get "recommendations" r ≠ Some (JArr [] []))
  ∧ table_parse "" = None
  ∧ match_json_object "" = None
  ∧ ∃ e, (parseAndValidateResponse table_parse (sample_completion (Some ""))).2
         = Err e.
Proof.
  repeat (split; [reflexivity|]). split.
  - eexists. split; [vm_compute; reflexivity|]. simpl. discriminate.
  - repeat (split; [reflexivity|]). by eexists.
Qed.

Lemma empty_content_raises_witness :
  (parseAndValidateResponse table_parse (sample_completion None)).2
  = Err (OpenAIServiceError "Invalid response format from OpenAI"
           (Some (Error "Empty response from OpenAI")))
  ∧ ¬ fallback_reached
        (parseAndValidateResponse table_parse (sample_completion None)).1.
Proof.
  exact (proj1 (empty_content_raises table_parse (sample_completion None))
           (or_introl eq_refl)).
Defined.

(** ** The retry loop *)

(** The errors the loop retries: those without a status (network
    errors, timeouts), rate limiting (429) and every 5xx. *)
Lemma retried_errors message :
  isNonRetryableError (ApiError None message) = false
  ∧ isNonRetryableError (ApiError (Some 429%Z) message) = false
  ∧ ∀ status, (500 ≤ status)%Z →
              isNonRetryableError (ApiError (Some status) message) = false.
Proof.
  split; [done|]. split; [done|]. intros status Hge. simpl.
  apply andb_false_intro2, bool_decide_eq_false. unfold nonRetryableStatuses.
  intros Hin. repeat (apply elem_of_cons in Hin as [->|Hin]; [lia|]).
  inversion Hin.
Qed.

(** The errors it does not retry. *)
Lemma not_retried_errors message status :
  status ∈ nonRetryableStatuses →
  isNonRetryableError (ApiError (Some status) message) = true.
Proof.
  intros Hin. simpl. apply andb_true_intro. split.
  - apply negb_true_iff, Z.eqb_neq. intros ->. unfold nonRetryableStatuses in Hin.
    repeat (apply elem_of_cons in Hin as [Heq|Hin]; [discriminate|]).
    inversion Hin.
  - by apply bool_decide_eq_true.
Qed.

Section RetryProperties.

Variable svc : OpenAIService.
Variable client : nat -> result Completion.

(** Every request fails with an error the loop retries. *)
Hypothesis always_retryable :
  ∀ k, ∃ e, client k = Err e ∧ isNonRetryableError e = false.

Lemma retry_from_all_fail n : ∀ a last,
  ∃ last',
    retry_from svc client n a last
    = (flat_map (failed_round svc) (seq a n),
       Err (OpenAIServiceError
              ("OpenAI API failed after " +:+ pretty (retryAttempts svc)
                 +:+ " attempts") last'))
    ∧ (n ≠ 0%nat → ∃ e, last' = Some e ∧ client (a + n - 1)%nat = Err e).
Proof.
  induction n as [|n IH]; intros a last.
  - exists last. by split.
  - destruct (always_retryable a) as (e & Ha & Hretry).
    destruct (IH (S a) (Some e)) as (last' & Hrun & Hlast).
    exists last'. split.
    + cbn [retry_from seq flat_map]. rewrite Ha, Hretry, Hrun. reflexivity.
    + intros _. destruct n as [|n].
      * injection Hrun as <-. exists e.
        by replace (a + 1 - 1)%nat with a by lia.
      * destruct Hlast as (e' & -> & He'); [done|]. exists e'.
        split; [done|]. rewrite <- He'. f_equal. lia.
Qed.

Lemma calls_failed_rounds n : ∀ a,
  calls (flat_map (failed_round svc) (seq a n)) = n.
Proof.
  unfold calls. induction n as [|n IH]; intros a; [done|].
  cbn [seq flat_map]. rewrite List.filter_app, length_app, IH.
  unfold failed_round. by destruct (a <? retryAttempts svc - 1)%nat.
Qed.

Lemma delays_app l1 l2 : delays (l1 ++ l2) = delays l1 ++ delays l2.
Proof. apply omap_app. Qed.

Lemma delay_of_failed_rounds n : ∀ a x,
  x ∈ delays (flat_map (failed_round svc) (seq a n)) →
  ∃ k, (a ≤ k)%nat ∧ x = backoff svc k.
Proof.
  induction n as [|n IH]; intros a x; cbn [seq flat_map].
  - intros Hin. inversion Hin.
  - rewrite delays_app. intros [Hin|Hin]%elem_of_app.
    + unfold failed_round in Hin.
      destruct (a <? retryAttempts svc - 1)%nat; simpl in Hin.
      * apply list_elem_of_singleton in Hin. by exists a.
      * inversion Hin.
    + destruct (IH _ _ Hin) as (k & ? & ->). exists k. split; [lia|done].
Qed.

Lemma backoff_capped k : (backoff svc k ≤ maxRetryDelay svc)%Z.
Proof. apply Z.le_min_r. Qed.

Lemma backoff_mono j k :
  (0 ≤ retryDelay svc)%Z → (j ≤ k)%nat → (backoff svc j ≤ backoff svc k)%Z.
Proof.
  intros Hpos Hjk. unfold backoff. apply Z.min_le_compat_r.
  apply Z.mul_le_mono_nonneg_l; [done|].
  apply Z.pow_le_mono_r; lia.
Qed.

Lemma delays_sorted n : ∀ a,
  (0 ≤ retryDelay svc)%Z →
  StronglySorted Z.le (delays (flat_map (failed_round svc) (seq a n))).
Proof.
  intros a Hpos. revert a.
  induction n as [|n IH]; intros a; cbn [seq flat_map]; [constructor|].
  rewrite delays_app. unfold failed_round at 1.
  destruct (a <? retryAttempts svc - 1)%nat; simpl; [|apply IH].
  constructor; [apply IH|]. apply Forall_forall. intros x Hin.
  destruct (delay_of_failed_rounds _ _ _ Hin) as (k & ? & ->).
  apply backoff_mono; [done|lia].
Qed.

(** Whatever the configuration: as many requests as [retryAttempts],
    pauses that never shrink (for a base delay that is not negative)
    and never exceed [maxRetryDelay], and the error of the last
    request wrapped in the final error. *)
Lemma retry_exhausts :
  let out := makeAPICallWithRetry svc client in
  out.1 = flat_map (failed_round svc) (seq 0 (retryAttempts svc))
  ∧ calls out.1 = retryAttempts svc
  ∧ ((0 ≤ retryDelay svc)%Z → Sorted Z.le (delays out.1))
  ∧ Forall (λ d, (d ≤ maxRetryDelay svc)%Z) (delays out.1)
  ∧ ∃ last, out.2 = Err (OpenAIServiceError
                           ("OpenAI API failed after "
                              +:+ pretty (retryAttempts svc) +:+ " attempts")
                           last).
Proof.
  unfold makeAPICallWithRetry.
  destruct (retry_from_all_fail (retryAttempts svc) 0 None)
    as (last & -> & _).
  cbn [fst snd]. split; [done|]. split; [apply calls_failed_rounds|].
  split; [intros ?; by apply StronglySorted_Sorted, delays_sorted|].
  split; [|by exists last].
  apply Forall_forall. intros x Hin.
  destruct (delay_of_failed_rounds _ _ _ Hin) as (k & _ & ->).
  apply backoff_capped.
Qed.

End RetryProperties.

(** ** The controller *)

Lemma lookup_markAnalysisAsFailed id j message w :
  db (markAnalysisAsFailed id message w) !! j
  = if decide (id = j)
    then (λ d, with_errorMessage (Some (trim message)) (with_status Failed d))
           <$> db w !! j
    else db w !! j.
Proof.
  unfold markAnalysisAsFailed. simpl. destruct (decide (id = j)) as [->|Hne].
  - apply lookup_alter_eq.
  - by apply lookup_alter_ne.
Qed.

Section ControllerProperties.

Variable JSON_parse : string -> option json.
Variable validate : CVAnalysis -> option string.
Variable strictQuery : bool.
Variable svc : OpenAIService.

Abbreviation analysis_body' := (analysis_body JSON_parse validate svc).
Abbreviation background_run' := (background_run JSON_parse validate svc).
Abbreviation step' := (step JSON_parse validate strictQuery svc).
Abbreviation handle' := (handle validate strictQuery).

(** What the body of a run does to the collection: it writes the
    record of the run only, never removes it, and leaves it completed
    when it ends without an error; the AI client is either not reached
    or called once. *)
Lemma analysis_body_spec env id w :
  ∀ w' effects res, analysis_body' env id w = (w', effects, res) →
    (∀ j, j ≠ id → db w' !! j = db w !! j)
    ∧ (db w !! id = None → db w' !! id = None)
    ∧ (is_Some (db w !! id) → is_Some (db w' !! id))
    ∧ (res = Ok () → processingStatus <$> db w' !! id = Some Completed)
    ∧ (∀ j d d', db w !! j = Some d → db w' !! j = Some d' →
                 processingStatus d' = processingStatus d
                 ∨ (res = Ok () ∧ j = id))
    ∧ (effects = [] ∨ effects = (analyzeCV JSON_parse svc (api env)).1)
    ∧ ((∃ e, (analyzeCV JSON_parse svc (api env)).2 = Err e) →
       ∃ e, res = Err e).
Proof.
  intros w' effects res. unfold analysis_body.
  destruct (db w !! id) as [analysis|] eqn:Hid.
  2:{ intros [= <- <- <-]. rewrite Hid. repeat split; eauto; try done.
      intros j d d' H1 H2. left. congruence. }
  assert (∀ text j d d',
            db w !! j = Some d →
            <[id := with_extractedText (Some text) analysis]> (db w) !! j
            = Some d' →
            processingStatus d' = processingStatus d) as Hkeep.
  { intros text j d d' H1 H2. destruct (decide (id = j)) as [<-|Hne].
    - rewrite lookup_insert_eq in H2. injection H2 as <-.
      rewrite Hid in H1. by injection H1 as <-.
    - rewrite lookup_insert_ne in H2 by done. congruence. }
  destruct (extraction env) as [text|e0].
  2:{ intros [= <- <- <-]. rewrite Hid. repeat split; eauto; try done.
      intros j d d' H1 H2. left. congruence. }
  destruct (validate (with_extractedText (Some text) analysis)) as [m|].
  { intros [= <- <- <-]. rewrite Hid. repeat split; eauto; try done.
    intros j d d' H1 H2. left. congruence. }
  assert (∀ (eff : list effect) (e : jserror),
            (eff = [] ∨ eff = (analyzeCV JSON_parse svc (api env)).1) →
            let w1 := with_db
                        (<[id := with_extractedText (Some text) analysis]> (db w))
                        w in
            (∀ j, j ≠ id → db w1 !! j = db w !! j)
            ∧ (Some analysis = None → db w1 !! id = None)
            ∧ (is_Some (Some analysis) → is_Some (db w1 !! id))
            ∧ (Err e = Ok () → processingStatus <$> db w1 !! id = Some Completed)
            ∧ (∀ j d d', db w !! j = Some d → db w1 !! j = Some d' →
                         processingStatus d' = processingStatus d
                         ∨ (Err e = Ok () ∧ j = id))
            ∧ (eff = [] ∨ eff = (analyzeCV JSON_parse svc (api env)).1)
            ∧ ((∃ e', (analyzeCV JSON_parse svc (api env)).2 = Err e') →
               ∃ e', @Err unit e = Err e')) as Hfailed.
  { intros eff e Heff. cbn [db with_db]. split_and!; try done.
    - intros j Hne. by rewrite lookup_insert_ne.
    - by rewrite lookup_insert_eq.
    - intros j d d' H1 H2. left. by eapply Hkeep.
    - intros _. by exists e. }
  destruct (negb (given (Some text)) || (String.length (trim text) =? 0)%nat).
  { intros [= <- <- <-]. apply Hfailed. by left. }
  destruct (analyzeCV JSON_parse svc (api env)) as [eff [aiResult|e]].
  2:{ intros [= <- <- <-]. apply Hfailed. by right. }
  cbn [fst snd].
  match goal with |- context [validate ?d] => destruct (validate d) end.
  { intros [= <- <- <-].
    destruct (Hfailed eff (ValidationError s)) as (?&?&?&?&?&?&?); [by right|].
    split_and!; done. }
  intros [= <- <- <-]. cbn [db with_db]. split_and!; try done.
  - intros j Hne. by rewrite !lookup_insert_ne.
  - intros _. by rewrite lookup_insert_eq.
  - intros _. by rewrite lookup_insert_eq.
  - intros j d d' H1 H2. destruct (decide (id = j)) as [<-|Hne]; [by right|].
    left. rewrite !lookup_insert_ne in H2 by done. congruence.
  - by right.
  - by intros [? ?].
Qed.

Lemma background_run_spec env id w :
  let out := background_run' env id w in
  (∀ j, j ≠ id → db out.1 !! j = db w !! j)
  ∧ (db w !! id = None → db out.1 !! id = None)
  ∧ (∀ d, db w !! id = Some d →
          ∃ d', db out.1 !! id = Some d'
                ∧ terminal (processingStatus d') = true)
  ∧ (out.2 = [] ∨ out.2 = (analyzeCV JSON_parse svc (api env)).1)
  ∧ ((∃ e, (analyzeCV JSON_parse svc (api env)).2 = Err e) →
     ∀ d, db w !! id = Some d →
          processingStatus <$> db out.1 !! id = Some Failed).
Proof.
  unfold background_run, performAnalysis.
  destruct (analysis_body' env id w) as [[w' effects] res] eqn:Hbody.
  apply analysis_body_spec in Hbody
    as (Hother & Hnone & Hsome & Hok & _ & Heff & Herr).
  destruct res as [[]|error]; cbn [fst snd].
  - split_and!; try done.
    + intros d Hd. specialize (Hok eq_refl).
      destruct (db w' !! id) as [d'|]; [|done].
      exists d'. split; [done|]. injection Hok as ->. done.
    + intros Hex. by destruct (Herr Hex).
  - split_and!; try done.
    + intros j Hne. rewrite !lookup_markAnalysisAsFailed.
      destruct (decide (id = j)); [by subst|]. by apply Hother.
    + intros Hd. rewrite !lookup_markAnalysisAsFailed.
      destruct (decide (id = id)); [|done]. by rewrite (Hnone Hd).
    + intros d Hd. rewrite !lookup_markAnalysisAsFailed.
      destruct (decide (id = id)); [|done].
      destruct (Hsome (ex_intro _ d Hd)) as [d' ->]. by eexists.
    + intros _ d Hd. rewrite !lookup_markAnalysisAsFailed.
      destruct (decide (id = id)); [|done].
      destruct (Hsome (ex_intro _ d Hd)) as [d' ->]. done.
Qed.

Lemma findOne_Some id user w d :
  findOne id user w = Some d ↔ db w !! id = Some d ∧ userId d = user.
Proof.
  unfold findOne. destruct (db w !! id) as [d0|]; [|by split; [|intros []]].
  destruct (bool_decide_reflect (userId d0 = user)) as [Hu|Hu]; split.
  - intros [= ->]. done.
  - by intros [[= ->] _].
  - done.
  - intros [[= ->] ?]. done.
Qed.

Lemma findOne_None id user w :
  findOne id user w = None ↔
  db w !! id = None ∨ ∃ d, db w !! id = Some d ∧ userId d ≠ user.
Proof.
  unfold findOne. destruct (db w !! id) as [d0|]; [|by split; [left|]].
  destruct (bool_decide_reflect (userId d0 = user)) as [Hu|Hu]; split.
  - done.
  - intros [?|(d & [= ->] & ?)]; done.
  - intros _. right. by exists d0.
  - done.
Qed.

(** C1 (as amended).  The status of a stored record changes in two
    ways only, and in these it does: a reanalyze by its owner that is
    accepted sets it to processing, whatever it was, and an analysis
    run for the record sets it to completed or failed.  Every other
    event (upload, fetch, history, a request of another user or for
    another record) leaves it as it is; the owner's delete removes the
    record. *)
Theorem status_changes_only_by_reanalyze_or_run
    (w : World) (id : nat) (r : CVAnalysis) :
  db w !! id = Some r →
  (∀ e, match db (step' e w) !! id with
        | None => e = Req (Delete (userId r) id)
        | Some r' =>
            processingStatus r' = processingStatus r
            ∨ ((∃ req, e = Req (Reanalyze (userId r) id req))
               ∧ processingStatus r' = Processing)
            ∨ ((∃ env, e = Run id env)
               ∧ terminal (processingStatus r') = true)
        end)
  ∧ (∀ req,
       code (handle' (Reanalyze (userId r) id req) w).1.2 = 200%nat →
       processingStatus <$>
         db (step' (Req (Reanalyze (userId r) id req)) w) !! id
       = Some Processing)
  ∧ (∀ env, ∃ r',
       db (step' (Run id env) w) !! id = Some r'
       ∧ terminal (processingStatus r') = true)
  ∧ db (step' (Req (Delete (userId r) id)) w) !! id = None
  ∧ (∀ e,
       (∀ req, e ≠ Req (Reanalyze (userId r) id req)) →
       (∀ env, e ≠ Run id env) →
       e ≠ Req (Delete (userId r) id) →
       processingStatus <$> db (step' e w) !! id
       = Some (processingStatus r)).
Proof.
  intros Hr.
  assert (∀ e, match db (step' e w) !! id with
               | None => e = Req (Delete (userId r) id)
               | Some r' =>
                   processingStatus r' = processingStatus r
                   ∨ ((∃ req, e = Req (Reanalyze (userId r) id req))
                      ∧ processingStatus r' = Processing)
                   ∨ ((∃ env, e = Run id env)
                      ∧ terminal (processingStatus r') = true)
               end) as Honly.
  { intros e.
    assert (∀ w', db w' = db w →
              match db w' !! id with
              | None => e = Req (Delete (userId r) id)
              | Some r' =>
                  processingStatus r' = processingStatus r
                  ∨ ((∃ req, e = Req (Reanalyze (userId r) id req))
                     ∧ processingStatus r' = Processing)
                  ∨ ((∃ env, e = Run id env)
                     ∧ terminal (processingStatus r') = true)
              end) as Hsame.
    { intros w' ->. rewrite Hr. by left. }
    destruct e as [[user req|user id0|user q|user id0 req|user id0]
                  |id0 env]; cbn [step handle].
    - unfold uploadAndAnalyzeCV.
      destruct (up_experienceLevel req) as [[|c1 l1]|];
        [by apply Hsame| |by apply Hsame].
      destruct (up_major req) as [[|c2 l2]|];
        [by apply Hsame| |by apply Hsame].
      destruct (up_file req) as [file|]; [|by apply Hsame].
      match goal with |- context [validate ?d] => destruct (validate d) end;
        [by apply Hsame|].
      cbn [fst snd db]. rewrite lookup_insert_ne, Hr; [by left|].
      intros Heq. apply (is_fresh (dom (db w))). rewrite Heq.
      apply elem_of_dom. by exists r.
    - unfold getAnalysisResults. destruct (findOne id0 user w); by apply Hsame.
    - by apply Hsame.
    - unfold reanalyzeCV. destruct (findOne id0 user w) as [d|] eqn:Hfind;
        [|by apply Hsame].
      apply findOne_Some in Hfind as [Hd Huser].
      match goal with |- context [validate ?d] => destruct (validate d) end;
        [by apply Hsame|].
      cbn [fst snd db with_db].
      destruct (decide (id0 = id)) as [->|Hne].
      + rewrite lookup_insert_eq. right. left.
        assert (d = r) as -> by congruence. subst user.
        split; [by eexists|done].
      + rewrite lookup_insert_ne, Hr by done. by left.
    - unfold deleteAnalysis. destruct (findOne id0 user w) as [d|] eqn:Hfind;
        [|by apply Hsame].
      apply findOne_Some in Hfind as [Hd Huser].
      cbn [fst snd db with_db unlink].
      destruct (decide (id0 = id)) as [->|Hne].
      + rewrite lookup_delete_eq. assert (d = r) as -> by congruence. by subst.
      + rewrite lookup_delete_ne, Hr by done. by left.
    - destruct (background_run_spec env id0 w) as (Hother & _ & Hsome & _).
      destruct (decide (id0 = id)) as [->|Hne].
      + destruct (Hsome r Hr) as (d' & -> & Hterm). right. right.
        split; [by eexists|done].
      + rewrite (Hother id) by done. rewrite Hr. by left. }
  split; [exact Honly|]. split_and!.
  - intros req. cbn [step handle]. unfold reanalyzeCV, findOne. rewrite Hr.
    rewrite bool_decide_eq_true_2 by done.
    match goal with |- context [validate ?d] => destruct (validate d) end;
      [done|].
    intros _. cbn [fst snd db with_db]. by rewrite lookup_insert_eq.
  - intros env. cbn [step].
    destruct (background_run_spec env id w) as (_ & _ & Hsome & _).
    by apply (Hsome r).
  - cbn [step handle]. unfold deleteAnalysis, findOne. rewrite Hr.
    rewrite bool_decide_eq_true_2 by done.
    cbn [fst snd db with_db unlink]. apply lookup_delete_eq.
  - intros e Hre Hrun Hdel. specialize (Honly e).
    destruct (db (step' e w) !! id) as [r'|]; [|done].
    destruct Honly as [Heq|[[[req ->] _]|[[env ->] _]]];
      [by cbn; rewrite Heq| |].
    + by destruct (Hre req).
    + by destruct (Hrun env).
Qed.

(** C3 (as amended).  When the upload handler answers 202, the record
    it has just stored is in status processing (the status the body
    of the answer reports), and one run is started for it. *)
Theorem upload_accepted_in_processing
    (user : nat) (req : UploadBody) (w : World) :
  let out := uploadAndAnalyzeCV validate user req w in
  code out.1.2 = 202%nat →
  ∃ id d,
    body out.1.2
    = Started "CV uploaded successfully. Analysis is in progress."
        id Processing
    ∧ db w !! id = None
    ∧ db out.1.1 !! id = Some d
    ∧ processingStatus d = Processing
    ∧ userId d = user
    ∧ out.2 = [ id ].
Proof.
  unfold uploadAndAnalyzeCV. cbv zeta.
  destruct (up_experienceLevel req) as [[|c1 l1]|]; try done.
  destruct (up_major req) as [[|c2 l2]|]; try done.
  destruct (up_file req) as [file|]; try done.
  match goal with |- context [validate ?d] => destruct (validate d) end;
    try done.
  cbn [fst snd code body db]. intros _. eexists _, _.
  split; [reflexivity|]. split.
  - apply not_elem_of_dom, is_fresh.
  - rewrite lookup_insert_eq. done.
Qed.

(** A well-formed upload whose document passes validation is accepted. *)
Lemma upload_accepted user req w c1 l1 c2 l2 file :
  up_experienceLevel req = Some (String c1 l1) →
  up_major req = Some (String c2 l2) →
  up_file req = Some file →
  (∀ d, extractedText d = Some "Processing..." → validate d = None) →
  code (uploadAndAnalyzeCV validate user req w).1.2 = 202%nat.
Proof.
  intros Hlevel Hmajor Hfile Hvalid. unfold uploadAndAnalyzeCV.
  rewrite Hlevel, Hmajor, Hfile. by rewrite Hvalid.
Qed.

Lemma paginate_docs_elem user q w p :
  p ∈ docs (paginate strictQuery user q w) →
  ∃ d, db w !! p.1 = Some d
       ∧ p.2 = with_extractedText None d
       ∧ history_filter strictQuery user q d = true.
Proof.
  unfold paginate. cbn [docs].
  destruct (q_limit q =? 0)%nat; [intros Hin; inversion Hin|].
  intros ([k d] & -> & Hin)%list_elem_of_fmap.
  apply subseteq_take, subseteq_drop in Hin.
  rewrite merge_sort_Permutation in Hin.
  apply list_elem_of_In, filter_In in Hin as [Hin Hfilter].
  apply list_elem_of_In, elem_of_map_to_list in Hin.
  by exists d.
Qed.

(** C7.  For a record of user B and a user A who is not B, fetch,
    reanalyze and delete by A answer exactly as they do for an id
    that is not in the collection: 404 "Analysis not found", nothing
    changed, no run started.  No page of A's history holds the
    record: every document of the page is A's own. *)
Theorem ownership_isolation
    (A B id absent : nat) (w : World) (d : CVAnalysis) :
  A ≠ B →
  db w !! id = Some d →
  userId d = B →
  db w !! absent = None →
  (handle' (GetResults A id) w = (w, not_found, [])
   ∧ handle' (GetResults A absent) w = (w, not_found, []))
  ∧ (∀ req, handle' (Reanalyze A id req) w = (w, not_found, [])
            ∧ handle' (Reanalyze A absent req) w = (w, not_found, []))
  ∧ (handle' (Delete A id) w = (w, not_found, [])
     ∧ handle' (Delete A absent) w = (w, not_found, []))
  ∧ (∀ q p, p ∈ docs (paginate strictQuery A q w) →
            p.1 ≠ id ∧ userId p.2 = A).
Proof.
  intros Hne Hd HB Habsent.
  assert (findOne id A w = None) as Hid.
  { apply findOne_None. right. exists d. split; [done|]. congruence. }
  assert (findOne absent A w = None) as Hno.
  { apply findOne_None. by left. }
  cbn [handle].
  unfold getAnalysisResults, reanalyzeCV, deleteAnalysis.
  rewrite Hid, Hno. split_and!; try done.
  intros q p (d0 & Hp & Hproj & Hfilter)%paginate_docs_elem.
  unfold history_filter in Hfilter.
  apply andb_prop in Hfilter as [Huser%bool_decide_eq_true _].
  split.
  - intros Heq. rewrite Heq, Hd in Hp. injection Hp as <-. congruence.
  - by rewrite Hproj.
Qed.

(** C8 (as amended).  The owner's delete answers 200, removes the
    stored file and removes the record from the collection; the other
    records stay. *)
Theorem delete_removes_record_and_file
    (user id : nat) (w : World) (d : CVAnalysis) :
  db w !! id = Some d →
  userId d = user →
  let out := deleteAnalysis user id w in
  out.1.2 = {| code := 200; body := Plain true "Analysis deleted successfully" |}
  ∧ db out.1.1 !! id = None
  ∧ (filePath d ∉ files out.1.1)
  ∧ (∀ j, j ≠ id → db out.1.1 !! j = db w !! j)
  ∧ out.2 = [].
Proof.
  intros Hd Huser. unfold deleteAnalysis.
  assert (findOne id user w = Some d) as -> by by apply findOne_Some.
  cbn [fst snd db files with_db unlink]. split_and!; try done.
  - apply lookup_delete_eq.
  - intros [_ Hnot]%elem_of_difference. apply Hnot. by apply elem_of_singleton.
  - intros j Hne. by apply lookup_delete_ne.
Qed.

End ControllerProperties.

Lemma analyzeCV_when_retry_fails JSON_parse svc client e :
  (makeAPICallWithRetry svc client).2 = Err e →
  (analyzeCV JSON_parse svc client).1 = (makeAPICallWithRetry svc client).1
  ∧ (analyzeCV JSON_parse svc client).2
    = Err (OpenAIServiceError "CV analysis failed"
             (Some (OpenAIServiceError "CV analysis failed" (Some e)))).
Proof.
  unfold analyzeCV, analyzeCVComprehensive.
  destruct (makeAPICallWithRetry svc client) as [effects r]. simpl.
  by intros ->.
Qed.

(** A run whose text has been extracted and stored goes on to the
    API: its requests and pauses are those of [analyzeCV]. *)
Lemma run_effects_after_extraction JSON_parse validate svc env id w d text :
  db w !! id = Some d →
  extraction env = Ok text →
  validate (with_extractedText (Some text) d) = None →
  trim text ≠ EmptyString →
  (background_run JSON_parse validate svc env id w).2
  = (analyzeCV JSON_parse svc (api env)).1.
Proof.
  intros Hid Hext Hvalid Htext.
  unfold background_run, performAnalysis, analysis_body.
  rewrite Hid, Hext, Hvalid.
  assert (negb (given (Some text)) || (String.length (trim text) =? 0)%nat
          = false) as ->.
  { destruct text as [|c t]; [done|]. cbn [given negb orb].
    destruct (trim (String c t)); done. }
  destruct (analyzeCV JSON_parse svc (api env)) as [eff [ai|e]]; [|done].
  cbn [fst].
  match goal with |- context [validate ?x] => by destruct (validate x) end.
Qed.

(** C6.  When every request to the API fails with an error that is
    retried, the loop of the service as constructed makes three
    requests with pauses of 1000 and 2000 ms between them (never
    shrinking, none above 30000 ms), then throws "OpenAI API failed
    after 3 attempts" around the last error; a run for a stored record
    with such a client leaves the record failed, having made exactly
    these three requests and two pauses when the text of the CV was
    extracted and stored, and none when it was not. *)
Theorem retry_ceiling (client : nat -> result Completion) :
  (∀ k, ∃ e, client k = Err e ∧ isNonRetryableError e = false) →
  let out := makeAPICallWithRetry new_OpenAIService client in
  out.1 = [ Call; Sleep 1000; Call; Sleep 2000; Call ]
  ∧ calls out.1 = retryAttempts new_OpenAIService
  ∧ calls out.1 = 3%nat
  ∧ delays out.1 = [ 1000; 2000 ]%Z
  ∧ Sorted Z.le (delays out.1)
  ∧ Forall (λ d, (d ≤ 30000)%Z) (delays out.1)
  ∧ (∃ e, client 2%nat = Err e
          ∧ out.2 = Err (OpenAIServiceError
                           "OpenAI API failed after 3 attempts" (Some e)))
  ∧ ∀ JSON_parse validate extraction id w d,
      db w !! id = Some d →
      let run :=
        background_run JSON_parse validate new_OpenAIService
          {| extraction := extraction; api := client |} id w in
      processingStatus <$> db run.1 !! id = Some Failed
      ∧ (run.2 = [] ∨ run.2 = out.1)
      ∧ (∀ text,
           extraction = Ok text →
           validate (with_extractedText (Some text) d) = None →
           trim text ≠ EmptyString →
           run.2 = [ Call; Sleep 1000; Call; Sleep 2000; Call ]
           ∧ errorMessage <$> db run.1 !! id
             = Some (Some "CV analysis failed"))
      ∧ (∀ e, extraction = Err e → run.2 = []).
Proof.
  intros Hfail.
  destruct (retry_exhausts new_OpenAIService client Hfail)
    as (Heffects & Hcalls & Hsorted & Hcap & _).
  destruct (retry_from_all_fail new_OpenAIService client Hfail 3 0 None)
    as (last & Hrun & Hlast).
  destruct Hlast as (e & -> & He); [done|].
  assert (makeAPICallWithRetry new_OpenAIService client
          = ([ Call; Sleep 1000; Call; Sleep 2000; Call ],
             Err (OpenAIServiceError "OpenAI API failed after 3 attempts"
                    (Some e)))) as Hout by exact Hrun.
  cbv zeta. rewrite Hout in *. cbn [fst snd] in *.
  split_and!; try done.
  - by apply Hsorted.
  - by exists e.
  - intros JSON_parse validate extraction id w d Hd.
    destruct (analyzeCV_when_retry_fails JSON_parse new_OpenAIService client _
                (f_equal snd Hout)) as [Heff Herr].
    rewrite Hout in Heff. cbn [fst] in Heff.
    destruct (background_run_spec JSON_parse validate new_OpenAIService
                {| extraction := extraction; api := client |} id w)
      as (_ & _ & _ & Hreached & Hfailed).
    cbn [api] in *. rewrite Heff in Hreached. split_and!; [|done| |].
    + apply (Hfailed (ex_intro _ _ Herr) d Hd).
    + intros text -> Hvalid Htext. split.
      * rewrite (run_effects_after_extraction JSON_parse validate
                   new_OpenAIService {| extraction := Ok text; api := client |}
                   id w d text Hd eq_refl Hvalid Htext).
        cbn [api]. exact Heff.
      * unfold background_run, performAnalysis, analysis_body.
        cbn [extraction api]. rewrite Hd, Hvalid.
        assert (negb (given (Some text))
                || (String.length (trim text) =? 0)%nat = false) as ->.
        { destruct text as [|c t]; [done|]. cbn [given negb orb].
          destruct (trim (String c t)); done. }
        destruct (analyzeCV JSON_parse new_OpenAIService client)
          as [eff [ai|e']]; cbn [snd] in Herr; [done|].
        injection Herr as ->. cbn [fst snd error_message].
        rewrite !lookup_markAnalysisAsFailed.
        destruct (decide (id = id)); [|done].
        cbn [db with_db]. by rewrite lookup_insert_eq.
    + intros e0 ->.
      unfold background_run, performAnalysis, analysis_body.
      cbn [extraction]. by rewrite Hd.
Qed.

Lemma retry_ceiling_witness :
  let client := λ _ : nat, Err (ApiError (Some 503%Z) "Service Unavailable") in
  let out := makeAPICallWithRetry new_OpenAIService client in
  let run :=
    background_run table_parse sample_validate new_OpenAIService
      {| extraction := Ok "Ten years of engineering experience";
         api := client |} 1 sample_world in
  (∀ k, ∃ e, client k = Err e ∧ isNonRetryableError e = false)
  ∧ calls out.1 = 3%nat
  ∧ delays out.1 = [ 1000; 2000 ]%Z
  ∧ processingStatus <$> db run.1 !! 1%nat = Some Failed
  ∧ run.2 = [ Call; Sleep 1000; Call; Sleep 2000; Call ].
Proof.
  assert (∀ k : nat, ∃ e,
            @Err Completion (ApiError (Some 503%Z) "Service Unavailable") = Err e
            ∧ isNonRetryableError e = false) as Hfail.
  { intros k. eexists. split; reflexivity. }
  split; [exact Hfail|].
  destruct (retry_ceiling
              (λ _ : nat, Err (ApiError (Some 503%Z) "Service Unavailable"))
              Hfail)
    as (_ & _ & Hcalls & Hdelays & _ & _ & _ & Hrun).
  split; [exact Hcalls|]. split; [exact Hdelays|].
  destruct (Hrun table_parse sample_validate
              (Ok "Ten years of engineering experience") 1%nat sample_world
              (sample_doc 7 Completed 10) eq_refl)
    as (Hstatus & _ & Hreached & _).
  split; [exact Hstatus|].
  apply (Hreached "Ten years of engineering experience");
    [reflexivity|reflexivity|discriminate].
Defined.

(** ** Examples on the sample collection *)

Lemma status_changes_only_by_reanalyze_or_run_witness :
  db sample_world !! 1%nat = Some (sample_doc 7 Completed 10)
  ∧ processingStatus <$>
      db (step table_parse sample_validate true new_OpenAIService
            (Req (Reanalyze 7 1 no_changes)) sample_world) !! 1%nat
    = Some Processing
  ∧ db (step table_parse sample_validate true new_OpenAIService
          (Req (Delete 7 1)) sample_world) !! 1%nat = None
  ∧ processingStatus <$>
      db (step table_parse sample_validate true new_OpenAIService
            (Req (Delete 7 2)) sample_world) !! 1%nat
    = Some Completed.
Proof.
  split; [reflexivity|].
  destruct (status_changes_only_by_reanalyze_or_run table_parse
              sample_validate true new_OpenAIService sample_world 1%nat
              (sample_doc 7 Completed 10) eq_refl)
    as (_ & Hreanalyze & _ & Hdelete & Hother).
  split; [by apply (Hreanalyze no_changes)|]. split; [exact Hdelete|].
  by apply (Hother (Req (Delete 7 2))).
Defined.

(** C1, as stated, fails: reanalyze takes a completed record back to
    processing. *)
Lemma reanalyze_resets_completed :
  processingStatus <$> db sample_world !! 1%nat = Some Completed
  ∧ processingStatus <$>
      db (step table_parse sample_validate true new_OpenAIService
            (Req (Reanalyze 7 1 no_changes)) sample_world) !! 1%nat
    = Some Processing.
Proof. split; reflexivity. Qed.

Lemma upload_accepted_in_processing_witness :
  let out := uploadAndAnalyzeCV sample_validate 7 sample_upload sample_world in
  code out.1.2 = 202%nat
  ∧ ∃ id d,
      body out.1.2
      = Started "CV uploaded successfully. Analysis is in progress."
          id Processing
      ∧ db sample_world !! id = None
      ∧ db out.1.1 !! id = Some d
      ∧ processingStatus d = Processing
      ∧ userId d = 7%nat
      ∧ out.2 = [ id ].
Proof.
  split; [reflexivity|].
  apply (upload_accepted_in_processing sample_validate 7 sample_upload
           sample_world).
  reflexivity.
Defined.

(** C3, as stated, fails: the record of an accepted upload is in
    status processing, not pending. *)
Lemma accepted_upload_not_pending :
  let out := uploadAndAnalyzeCV sample_validate 7 sample_upload sample_world in
  code out.1.2 = 202%nat
  ∧ ∃ id d, out.2 = [ id ]
            ∧ db out.1.1 !! id = Some d
            ∧ processingStatus d ≠ Pending.
Proof.
  split; [reflexivity|]. eexists _, _. split; [reflexivity|].
  split; [apply lookup_insert_eq|]. simpl. discriminate.
Qed.

Lemma ownership_isolation_witness :
  7%nat ≠ 8%nat
  ∧ db sample_world !! 3%nat = Some (sample_doc 8 Completed 12)
  ∧ db sample_world !! 9%nat = None
  ∧ handle sample_validate true (GetResults 7 3) sample_world
    = (sample_world, not_found, [])
  ∧ handle sample_validate true (GetResults 7 9) sample_world
    = (sample_world, not_found, []).
Proof.
  split; [done|]. split; [reflexivity|]. split; [reflexivity|].
  apply (ownership_isolation sample_validate true 7 8 3 9 sample_world
           (sample_doc 8 Completed 12)); done.
Defined.

Lemma delete_removes_record_and_file_witness :
  let out := deleteAnalysis 7 1 sample_world in
  db sample_world !! 1%nat = Some (sample_doc 7 Completed 10)
  ∧ out.1.2
    = {| code := 200; body := Plain true "Analysis deleted successfully" |}
  ∧ db out.1.1 !! 1%nat = None
  ∧ (filePath (sample_doc 7 Completed 10) ∉ files out.1.1).
Proof.
  split; [reflexivity|].
  destruct (delete_removes_record_and_file 7 1 sample_world
              (sample_doc 7 Completed 10) eq_refl eq_refl)
    as (Hresp & Hgone & Hfile & _).
  by split_and!.
Defined.

(** C8, as stated, fails: after the owner's delete the record is not in
    the collection any more, flagged or not. *)
Lemma delete_is_not_soft :
  db sample_world !! 1%nat = Some (sample_doc 7 Completed 10)
  ∧ code (deleteAnalysis 7 1 sample_world).1.2 = 200%nat
  ∧ db (deleteAnalysis 7 1 sample_world).1.1 !! 1%nat = None
  ∧ db (deleteAnalysis 7 1 sample_world).1.1 !! 1%nat
    ≠ Some (softDelete (clock sample_world) (sample_doc 7 Completed 10)).
Proof. split_and!; try reflexivity. by vm_compute. Qed.

(** ** The status filter of the history *)

Lemma history_filter_status strictQuery user q d :
  given (q_status q) = true →
  history_filter strictQuery user q d
  = bool_decide (userId d = user) && strictQuery.
Proof. intros H. unfold history_filter. by rewrite H. Qed.

(** With [strictQuery] off, a request with a status matches nothing. *)
Lemma history_with_status_empty user q w :
  given (q_status q) = true →
  docs (paginate false user q w) = [] ∧ totalDocs (paginate false user q w) = 0%nat.
Proof.
  intros H. unfold paginate. cbn [docs totalDocs].
  assert (List.filter (λ p : nat * CVAnalysis, history_filter false user q p.2)
            (map_to_list (db w)) = []) as ->.
  { induction (map_to_list (db w)) as [|p l IH]; [done|]. simpl.
    rewrite history_filter_status by done. by rewrite andb_false_r. }
  split; [|done]. destruct (q_limit q =? 0)%nat; [done|].
  change (merge_sort newer_first []) with (@nil (nat * CVAnalysis)).
  by rewrite drop_nil, take_nil.
Qed.

(** With [strictQuery] on, the status of the request changes nothing. *)
Lemma history_status_dropped user q w :
  paginate true user q w
  = paginate true user
      {| q_page := q_page q; q_limit := q_limit q; q_status := None |} w.
Proof.
  unfold paginate. cbn [q_page q_limit q_status].
  assert (List.filter (λ p : nat * CVAnalysis, history_filter true user q p.2)
            (map_to_list (db w))
          = List.filter
              (λ p : nat * CVAnalysis,
                 history_filter true user
                   {| q_page := q_page q; q_limit := q_limit q; q_status := None |}
                   p.2)
              (map_to_list (db w))) as ->; [|done].
  apply List.filter_ext. intros p. unfold history_filter. cbn [q_status given].
  by destruct (given (q_status q)).
Qed.

(** No document of a page carries the extracted text. *)
Lemma history_excludes_text strictQuery user q w p :
  p ∈ docs (paginate strictQuery user q w) → extractedText p.2 = None.
Proof. intros (d & _ & -> & _)%paginate_docs_elem. done. Qed.

(** C9, evaluated.  User 7 has a completed record (1) and a failed one
    (2).  Asked for [status=completed], the history returns both when
    [strictQuery] is on, and nothing when it is off; the page of the
    completed record alone is returned under neither setting. *)
Theorem history_status_filter_not_applied :
  processingStatus <$> db sample_world !! 1%nat = Some Completed
  ∧ (λ p, (p.1, processingStatus p.2))
      <$> docs (paginate true 7 completed_only sample_world)
    = [ (2%nat, Failed); (1%nat, Completed) ]
  ∧ docs (paginate false 7 completed_only sample_world) = [].
Proof. split_and!; by vm_compute. Qed.

(** ** The terminal writes of the model *)






(** * Further properties *)

(** ** The retry loop, for any client *)

Lemma calls_app l1 l2 : calls (l1 ++ l2) = (calls l1 + calls l2)%nat.
Proof. unfold calls. by rewrite List.filter_app, length_app. Qed.

Lemma delays_append l1 l2 : delays (l1 ++ l2) = delays l1 ++ delays l2.
Proof. apply omap_app. Qed.

Lemma retry_from_bounds svc client n : ∀ a last,
  (a + n)%nat = retryAttempts svc →
  let out := retry_from svc client n a last in
  (calls out.1 ≤ n)%nat
  ∧ (n ≠ 0%nat → (1 ≤ calls out.1)%nat)
  ∧ length (delays out.1) = (calls out.1 - 1)%nat
  ∧ Forall (λ d, (d ≤ maxRetryDelay svc)%Z) (delays out.1).
Proof.
  induction n as [|n IH]; intros a last Hsum; cbn [retry_from].
  - cbn. split_and!; first [done|lia].
  - destruct (client a) as [response|error].
    { cbn. split_and!; first [done|lia]. }
    destruct (isNonRetryableError error).
    { cbn. split_and!; first [done|lia]. }
    specialize (IH (S a) (Some error)).
    destruct (retry_from svc client n (S a) (Some error)) as [effects r].
    destruct IH as (Hle & Hpos & Hlen & Hcap); [lia|]. cbn [fst snd] in *.
    change (Call :: ?p ++ effects) with ([Call] ++ p ++ effects).
    rewrite !calls_app, !delays_append, !length_app.
    destruct (a <? retryAttempts svc - 1)%nat eqn:Hlast.
    + apply Nat.ltb_lt in Hlast. assert (1 ≤ calls effects)%nat by (apply Hpos; lia).
      cbn. split_and!; try lia.
      constructor; [apply Z.le_min_r|done].
    + apply Nat.ltb_ge in Hlast. assert (n = 0%nat) as -> by lia.
      assert (calls effects = 0%nat) as Hz by lia. rewrite Hz in Hlen.
      cbn. rewrite Hz. split_and!; first [done|lia].
Qed.

Lemma retry_from_S svc client n a last :
  retry_from svc client (S n) a last
  = match client a with
    | Ok response => ([Call], Ok response)
    | Err error =>
        if isNonRetryableError error then ([Call], Err error)
        else
          let pause :=
            if (a <? retryAttempts svc - 1)%nat
            then [Sleep (backoff svc a)] else [] in
          let '(effects, r) := retry_from svc client n (S a) (Some error) in
          (Call :: pause ++ effects, r)
    end.
Proof. reflexivity. Qed.

Lemma retry_from_paced svc client n : ∀ a last,
  (a + S n)%nat = retryAttempts svc →
  ∃ k, (k ≤ n)%nat
       ∧ (retry_from svc client (S n) a last).1
         = paced (backoff svc <$> seq a k).
Proof.
  induction n as [|n IH]; intros a last Hsum; rewrite retry_from_S.
  - exists 0%nat. split; [done|].
    destruct (client a) as [response|error]; [done|].
    destruct (isNonRetryableError error); [done|].
    assert ((a <? retryAttempts svc - 1)%nat = false) as ->
      by (apply Nat.ltb_ge; lia).
    done.
  - destruct (client a) as [response|error].
    { exists 0%nat. split; [lia|done]. }
    destruct (isNonRetryableError error).
    { exists 0%nat. split; [lia|done]. }
    assert ((a <? retryAttempts svc - 1)%nat = true) as ->
      by (apply Nat.ltb_lt; lia).
    destruct (IH (S a) (Some error)) as (k & Hk & Heff); [lia|].
    destruct (retry_from svc client (S n) (S a) (Some error)) as [effects r].
    cbn [fst] in Heff. subst effects.
    exists (S k). split; [lia|]. done.
Qed.

(** X1.  Whatever the API answers, [makeAPICallWithRetry] makes at most
    [retryAttempts] requests, pauses exactly once between two
    consecutive requests (never before the first, never after the
    last), the pause after request [i] being the backoff of [i], and
    never pauses longer than [maxRetryDelay]. *)
Theorem retry_never_exceeds_attempts
    (svc : OpenAIService) (client : nat -> result Completion) :
  let out := makeAPICallWithRetry svc client in
  (calls out.1 ≤ retryAttempts svc)%nat
  ∧ length (delays out.1) = (calls out.1 - 1)%nat
  ∧ Forall (λ d, (d ≤ maxRetryDelay svc)%Z) (delays out.1)
  ∧ (retryAttempts svc = 0%nat ∧ out.1 = []
     ∨ ∃ k, (k < retryAttempts svc)%nat
            ∧ out.1 = paced (backoff svc <$> seq 0 k)).
Proof.
  unfold makeAPICallWithRetry.
  destruct (retry_from_bounds svc client (retryAttempts svc) 0 None eq_refl)
    as (? & _ & ? & ?).
  split_and!; [done|done|done|].
  destruct (retryAttempts svc) as [|n] eqn:Hn; [by left|]. right.
  destruct (retry_from_paced svc client n 0 None) as (k & Hk & Heff);
    [by rewrite Hn|].
  exists k. split; [lia|done].
Qed.

Lemma retry_from_decisive svc client k d : ∀ a n last,
  (a + d)%nat = k →
  (a + n)%nat = retryAttempts svc →
  (k < retryAttempts svc)%nat →
  (∀ j, (a ≤ j < k)%nat → ∃ e, client j = Err e ∧ isNonRetryableError e = false) →
  decisive (client k) = true →
  let out := retry_from svc client n a last in
  out.2 = client k
  ∧ calls out.1 = S d
  ∧ delays out.1 = backoff svc <$> seq a d.
Proof.
  induction d as [|d IH]; intros a n last Hk Hn Hlt Hfail Hdec.
  - assert (a = k) as -> by lia. destruct n as [|n]; [lia|].
    cbn [retry_from]. unfold decisive in Hdec.
    destruct (client k) as [response|error]; [done|]. by rewrite Hdec.
  - destruct n as [|n]; [lia|]. cbn [retry_from].
    destruct (Hfail a) as (e & -> & ->); [lia|].
    specialize (IH (S a) n (Some e)).
    destruct (retry_from svc client n (S a) (Some e)) as [effects r].
    destruct IH as (Hres & Hcalls & Hdelays); try done; try lia.
    { intros j Hj. apply Hfail. lia. }
    cbn [fst snd] in *.
    assert ((a <? retryAttempts svc - 1)%nat = true) as ->
      by (apply Nat.ltb_lt; lia).
    split; [done|]. split.
    + change (calls (Call :: [Sleep (backoff svc a)] ++ effects))
        with (S (calls effects)). by rewrite Hcalls.
    + change (delays (Call :: [Sleep (backoff svc a)] ++ effects))
        with (backoff svc a :: delays effects). by rewrite Hdelays.
Qed.

(** X2.  The loop ends at the first attempt that is answered or fails
    with an error that is not retried: after [k] retried failures its
    result is that of attempt [k] as it came (a non-retryable error is
    rethrown unwrapped), with [k + 1] requests and the first [k]
    backoff pauses. *)
Theorem retry_stops_at_decisive_attempt
    (svc : OpenAIService) (client : nat -> result Completion) (k : nat) :
  (k < retryAttempts svc)%nat →
  (∀ j, (j < k)%nat →
        ∃ e, client j = Err e ∧ isNonRetryableError e = false) →
  decisive (client k) = true →
  let out := makeAPICallWithRetry svc client in
  out.2 = client k
  ∧ calls out.1 = S k
  ∧ delays out.1 = backoff svc <$> seq 0 k.
Proof.
  intros Hlt Hfail Hdec. unfold makeAPICallWithRetry.
  apply (retry_from_decisive svc client k k 0 (retryAttempts svc) None);
    try done.
  intros j [_ Hj]. by apply Hfail.
Qed.

Lemma retry_stops_at_decisive_attempt_witness :
  let client := λ k : nat,
    if (k =? 0)%nat then Err (ApiError (Some 503%Z) "Service Unavailable")
    else Err (ApiError (Some 401%Z) "Unauthorized") in
  let out := makeAPICallWithRetry new_OpenAIService client in
  (1 < retryAttempts new_OpenAIService)%nat
  ∧ decisive (client 1%nat) = true
  ∧ out.2 = Err (ApiError (Some 401%Z) "Unauthorized")
  ∧ calls out.1 = 2%nat
  ∧ delays out.1 = [ 1000%Z ].
Proof.
  split; [cbn; lia|]. split; [reflexivity|].
  apply (retry_stops_at_decisive_attempt new_OpenAIService
           (λ k : nat,
              if (k =? 0)%nat
              then Err (ApiError (Some 503%Z) "Service Unavailable")
              else Err (ApiError (Some 401%Z) "Unauthorized")) 1).
  - cbn. lia.
  - intros j Hj. assert (j = 0%nat) as -> by lia. eexists. split; reflexivity.
  - reflexivity.
Defined.

(** ** The validated response *)

Lemma assoc_set_same k x ps :
  assoc_get k ps = Some x → assoc_set k x ps = ps.
Proof.
  induction ps as [|[k' v'] ps IH]; simpl; [done|].
  destruct (String.eqb k k') eqn:E.
  - apply String.eqb_eq in E as ->. by intros [= ->].
  - intros H. by rewrite IH.
Qed.

Lemma put_same k x v : get k v = Some x → put k x v = v.
Proof.
  destruct v; simpl; try done; intros H; by rewrite assoc_set_same.
Qed.

Lemma truthy_get_ensure k d v :
  is_object v = true → truthy (Some d) = true →
  truthy (get k (ensure k d v)) = true.
Proof.
  intros Hobj Hd. unfold ensure. destruct (truthy (get k v)) eqn:E; [done|].
  by rewrite get_put_eq.
Qed.

Lemma clamp_score_fixed n : clamp_score (clamp_score n) = clamp_score n.
Proof.
  destruct n as [q|[]]; try reflexivity.
  unfold clamp_score, Math_min, Math_max, num_le.
  destruct (Qle_bool 100 q) eqn:E100; [reflexivity|].
  destruct (Qle_bool 0 q) eqn:E0; [|reflexivity].
  by rewrite E100, E0.
Qed.

(** The object validation returns, written out. *)
Lemma validate_ok_shape response r :
  (validateResponseStructure response).2 = Ok r →
  ∃ r5 c,
    is_object r5 = true
    ∧ Forall (λ k, truthy (get k r5) = true) structureFields
    ∧ (∀ k, k ≠ "overallScore" → truthy (get k response) = true →
            get k r5 = get k response)
    ∧ r = put "overallScore" (JNum c) r5
    ∧ clamp_score c = c.
Proof.
  unfold validateResponseStructure.
  destruct (is_object response) eqn:Hobj; [|done]. simpl negb. cbv iota.
  destruct (check_essential_fields response Hobj)
    as (warnings & r0 & -> & Hobj0 & Hsame & _).
  set (r1 := ensure "summary" default_summary r0).
  set (r2 := ensure "sections" (JObj []) r1).
  set (r3 := ensure "recommendations" (JArr [] []) r2).
  set (r4 := ensure "jobMatching" (JObj []) r3).
  set (r5 := ensure "marketInsights" (JObj []) r4).
  assert (is_object r1 = true) as H1 by (unfold r1; by rewrite is_object_ensure).
  assert (is_object r2 = true) as H2 by (unfold r2; by rewrite is_object_ensure).
  assert (is_object r3 = true) as H3 by (unfold r3; by rewrite is_object_ensure).
  assert (is_object r4 = true) as H4 by (unfold r4; by rewrite is_object_ensure).
  assert (is_object r5 = true) as H5 by (unfold r5; by rewrite is_object_ensure).
  assert (Forall (λ k, truthy (get k r5) = true) structureFields) as Hall.
  { unfold structureFields. repeat constructor.
    - unfold r5, r4, r3, r2. rewrite !get_ensure_ne by done.
      by apply truthy_get_ensure.
    - unfold r5, r4, r3. rewrite !get_ensure_ne by done.
      by apply truthy_get_ensure.
    - unfold r5, r4. rewrite !get_ensure_ne by done.
      by apply truthy_get_ensure.
    - unfold r5. rewrite !get_ensure_ne by done.
      by apply truthy_get_ensure.
    - by apply truthy_get_ensure. }
  assert (∀ k, k ≠ "overallScore" → truthy (get k response) = true →
               get k r5 = get k response) as Hkept.
  { intros k Hk Ht. rewrite <- (Hsame k Hk) in Ht |- *.
    assert (∀ k' d v, get k v = get k r0 → get k (ensure k' d v) = get k r0)
      as Hstep.
    { intros k' d v Hv. destruct (decide (k = k')) as [<-|Hne].
      - rewrite get_ensure_truthy; [done|]. by rewrite Hv.
      - by rewrite get_ensure_ne. }
    unfold r5, r4, r3, r2, r1. by repeat apply Hstep. }
  cbn [snd]. intros [= <-].
  destruct (get "overallScore" r5) as [[| | n | | |]|];
    first [ by exists r5, (clamp_score n); split_and!;
                 try done; apply clamp_score_fixed
          | by exists r5, (Fin 75) ].
Qed.

(** X3.  An object that passed validation has all six members of the
    result: a numeric [overallScore], and [summary], [sections],
    [recommendations], [jobMatching] and [marketInsights] present and
    truthy, whatever the model left out. *)
Theorem validated_structure_complete (response r : json) :
  (validateResponseStructure response).2 = Ok r →
  is_object r = true
  ∧ (∃ n, get "overallScore" r = Some (JNum n))
  ∧ Forall (λ k, truthy (get k r) = true) structureFields.
Proof.
  intros (r5 & c & Hobj & Hall & _ & -> & _)%validate_ok_shape.
  split; [by rewrite is_object_put|]. split.
  - exists c. by apply get_put_eq.
  - apply Forall_forall. intros k Hk. rewrite get_put_ne.
    + by apply (proj1 (Forall_forall _ _) Hall).
    + intros ->. unfold structureFields in Hk.
      repeat (apply elem_of_cons in Hk as [Hk|Hk]; [done|]). inversion Hk.
Qed.

Lemma validated_structure_complete_witness :
  (validateResponseStructure overrated).2
  = Ok (put "marketInsights" (JObj [])
          (put "jobMatching" (JObj [])
             (put "recommendations" (JArr [] [])
                (put "summary" default_summary overrated))))
  ∧ Forall (λ k, truthy (get k
                  (put "marketInsights" (JObj [])
                     (put "jobMatching" (JObj [])
                        (put "recommendations" (JArr [] [])
                           (put "summary" default_summary overrated)))))
                 = true) structureFields.
Proof.
  split; [reflexivity|].
  apply (validated_structure_complete overrated). reflexivity.
Defined.

(** X4.  Validation is idempotent: validating an object that has
    passed validation returns it unchanged. *)
Theorem validation_idempotent (response r : json) :
  (validateResponseStructure response).2 = Ok r →
  (validateResponseStructure r).2 = Ok r.
Proof.
  intros (r5 & c & Hobj & Hall & _ & -> & Hc)%validate_ok_shape.
  set (r := put "overallScore" (JNum c) r5).
  assert (is_object r = true) as Hr by (unfold r; by rewrite is_object_put).
  assert (get "overallScore" r = Some (JNum c)) as Hscore
    by (unfold r; by apply get_put_eq).
  assert (∀ k d, k ∈ structureFields → ensure k d r = r) as Hens.
  { intros k d Hk. unfold ensure.
    assert (truthy (get k r) = true) as ->; [|done].
    unfold r. rewrite get_put_ne.
    - by apply (proj1 (Forall_forall _ _) Hall).
    - intros ->. unfold structureFields in Hk.
      repeat (apply elem_of_cons in Hk as [Hk|Hk]; [done|]). inversion Hk. }
  unfold validateResponseStructure. rewrite Hr. simpl negb. cbv iota.
  cbn [foldl essentialFields]. unfold check_essential at 1. cbn [quiet fst snd].
  unfold has. rewrite Hscore. unfold quiet. cbv iota beta. cbn [snd].
  rewrite !Hens by (unfold structureFields; set_solver).
  rewrite Hscore, Hc. f_equal. by apply put_same.
Qed.

Lemma validation_idempotent_witness :
  ∃ r, (validateResponseStructure overrated).2 = Ok r
       ∧ (validateResponseStructure r).2 = Ok r.
Proof.
  eexists. split; [reflexivity|].
  apply (validation_idempotent overrated). reflexivity.
Defined.

(** ** The embedded object *)

Lemma occurs_cons c d t : occurs c (String d t) = Ascii.eqb c d || occurs c t.
Proof. reflexivity. Qed.

Lemma append_cons c s t : String c s +:+ t = String c (s +:+ t).
Proof. reflexivity. Qed.

Lemma append_empty t : "" +:+ t = t.
Proof. reflexivity. Qed.

Lemma from_first_open_spec s t :
  from_first_open s = Some t ↔
  ∃ pre rest, s = pre +:+ String "{" rest ∧ t = String "{" rest
              ∧ occurs "{" pre = false.
Proof.
  split.
  - induction s as [|c s IH]; cbn [from_first_open]; [done|].
    destruct (Ascii.eqb c "{") eqn:E.
    + apply Ascii.eqb_eq in E as ->. intros [= <-]. by exists "", s.
    + intros (pre & rest & -> & -> & Hpre)%IH.
      exists (String c pre), rest. split_and!; try done.
      by rewrite occurs_cons, Ascii.eqb_sym, E.
  - intros (pre & rest & -> & -> & Hpre).
    induction pre as [|c pre IH].
    + done.
    + rewrite occurs_cons in Hpre.
      apply orb_false_elim in Hpre as [Hc Hpre].
      rewrite append_cons. cbn [from_first_open].
      rewrite Ascii.eqb_sym, Hc. by apply IH.
Qed.

Lemma upto_last_close_None s :
  upto_last_close s = None ↔ occurs "}" s = false.
Proof.
  induction s as [|c s IH]; [done|].
  cbn [upto_last_close]. rewrite occurs_cons, (Ascii.eqb_sym "}" c).
  destruct (upto_last_close s); destruct (Ascii.eqb c "}"); cbn [orb]; split;
    try done; intros; try (by apply IH).
  - destruct IH as [_ IH]. by discriminate IH.
Qed.

Lemma upto_last_close_spec s p :
  upto_last_close s = Some p ↔
  ∃ mid post, s = mid +:+ String "}" post ∧ p = mid +:+ "}"
              ∧ occurs "}" post = false.
Proof.
  split.
  - revert p. induction s as [|c s IH]; intros p; cbn [upto_last_close];
      [done|].
    destruct (upto_last_close s) as [p'|] eqn:E.
    + intros [= <-]. destruct (IH p' eq_refl) as (mid & post & -> & -> & Hpost).
      by exists (String c mid), post.
    + destruct (Ascii.eqb c "}") eqn:Ec; [|done].
      apply Ascii.eqb_eq in Ec as ->. intros [= <-].
      exists "", s. split_and!; try done. by apply upto_last_close_None.
  - intros (mid & post & -> & -> & Hpost).
    induction mid as [|c mid IH].
    + apply upto_last_close_None in Hpost. rewrite !append_empty.
      cbn [upto_last_close]. by rewrite Hpost.
    + rewrite !append_cons. cbn [upto_last_close]. by rewrite IH.
Qed.

Lemma append_assoc_cons mid c post :
  (mid +:+ String c "") +:+ post = mid +:+ String c post.
Proof.
  induction mid as [|d mid IH]; [done|]. by rewrite !append_cons, IH.
Qed.

(** X5.  The text taken for the embedded JSON object is the widest
    span between braces: it runs from the first opening brace of the
    content to the last closing brace after it, and there is none
    exactly when no closing brace follows an opening one. *)
Theorem match_json_object_span (content m : string) :
  match_json_object content = Some m ↔
  ∃ pre mid post,
    content = pre +:+ m +:+ post
    ∧ m = String "{" (mid +:+ "}")
    ∧ occurs "{" pre = false
    ∧ occurs "}" post = false.
Proof.
  unfold match_json_object. split.
  - destruct (from_first_open content) as [[|c t]|] eqn:E; try done.
    apply from_first_open_spec in E as (pre & rest & -> & [= -> ->] & Hpre).
    destruct (upto_last_close rest) as [p|] eqn:Ep; [|done].
    apply upto_last_close_spec in Ep as (mid & post & -> & -> & Hpost).
    intros [= <-]. exists pre, mid, post. split_and!; try done.
    by rewrite append_cons, append_assoc_cons.
  - intros (pre & mid & post & -> & -> & Hpre & Hpost).
    rewrite append_cons, append_assoc_cons.
    assert (from_first_open (pre +:+ String "{" (mid +:+ String "}" post))
            = Some (String "{" (mid +:+ String "}" post))) as ->.
    { apply from_first_open_spec. by exists pre, (mid +:+ String "}" post). }
    assert (upto_last_close (mid +:+ String "}" post) = Some (mid +:+ "}"))
      as ->; [|done].
    apply upto_last_close_spec. by exists mid, post.
Qed.

(** X6.  Content that is valid JSON but not an object (a number, a
    string, [null]) is not degraded to the fallback: validation throws
    on it and the parser raises "Invalid response format from OpenAI".
    Only text that does not parse at all reaches the fallback. *)
Theorem non_object_json_rejected
    (JSON_parse : string -> option json) (response : Completion)
    (body : string) (v : json) :
  content_of response = Some body →
  body ≠ "" →
  JSON_parse body = Some v →
  is_object v = false →
  (∃ message,
     (parseAndValidateResponse JSON_parse response).2
     = Err (OpenAIServiceError "Invalid response format from OpenAI"
              (Some (TypeError message))))
  ∧ ¬ fallback_reached (parseAndValidateResponse JSON_parse response).1.
Proof.
  intros Hcontent Hne Hparse Hobj.
  assert (parseAndValidateResponse JSON_parse response
          = ([ "Failed to parse OpenAI response:"; "Response content:" ],
             Err (OpenAIServiceError "Invalid response format from OpenAI"
                    (Some (TypeError
                       "Cannot use 'in' operator to search for 'overallScore'")))))
    as ->.
  { unfold parseAndValidateResponse, parse_body. rewrite Hcontent.
    destruct body as [|c rest]; [done|]. rewrite Hparse.
    unfold quiet at 1. cbv iota beta.
    unfold validateResponseStructure. by rewrite Hobj. }
  split; [by eexists|]. apply catch_lines_not_fallback.
Qed.

Lemma non_object_json_rejected_witness :
  let response := sample_completion (Some "42") in
  content_of response = Some "42"
  ∧ table_parse_number "42" = Some (JNum (Fin 42))
  ∧ (∃ message,
       (parseAndValidateResponse table_parse_number response).2
       = Err (OpenAIServiceError "Invalid response format from OpenAI"
                (Some (TypeError message))))
  ∧ ¬ fallback_reached (parseAndValidateResponse table_parse_number response).1.
Proof.
  split; [reflexivity|]. split; [reflexivity|].
  by apply (non_object_json_rejected table_parse_number
              (sample_completion (Some "42")) "42" (JNum (Fin 42))).
Defined.

(** ** Runs and their records *)

Lemma validate_ok_score response r :
  (validateResponseStructure response).2 = Ok r →
  ∃ q, get "overallScore" r = Some (JNum (Fin q)) ∧ (0 <= q)%Q ∧ (q <= 100)%Q.
Proof.
  intros (r5 & c & Hobj & _ & _ & -> & Hc)%validate_ok_shape.
  destruct (clamp_score_bounds c) as (q & Hq & ? & ?). rewrite Hc in Hq.
  exists q. subst c. by rewrite get_put_eq.
Qed.

Lemma parse_ok_validated JSON_parse response r :
  (parseAndValidateResponse JSON_parse response).2 = Ok r →
  ∃ v, (validateResponseStructure v).2 = Ok r.
Proof.
  unfold parseAndValidateResponse, parse_body.
  destruct (content_of response) as [[|c rest]|]; try done.
  destruct (match JSON_parse (String c rest) with
            | Some v => quiet v
            | None => say "Direct JSON parsing failed, attempting to extract JSON..."
                        (extractJsonFromContent JSON_parse (String c rest))
            end) as [l1 parsed].
  destruct (validateResponseStructure parsed) as [l2 [r'|e]] eqn:E; [|done].
  cbn. intros [= <-]. exists parsed. by rewrite E.
Qed.

Lemma analyzeCV_ok JSON_parse svc client ai :
  (analyzeCV JSON_parse svc client).2 = Ok ai →
  ∃ v r, (validateResponseStructure v).2 = Ok r
         ∧ ai_overallScore ai = get "overallScore" r
         ∧ ai_summary ai = get "summary" r
         ∧ ai_sections ai = get "sections" r
         ∧ ai_recommendations ai = get "recommendations" r
         ∧ ai_jobMatching ai = get "jobMatching" r
         ∧ ai_marketInsights ai = get "marketInsights" r.
Proof.
  unfold analyzeCV, analyzeCVComprehensive.
  destruct (makeAPICallWithRetry svc client) as [effects [response|e]];
    [|done].
  destruct (parseAndValidateResponse JSON_parse response).2 as [parsed|e]
    eqn:E; [|done].
  apply parse_ok_validated in E as [v Hv]. cbn. intros [= <-].
  by exists v, parsed.
Qed.

Lemma analyzeCV_err JSON_parse svc client e :
  (analyzeCV JSON_parse svc client).2 = Err e →
  error_message e = "CV analysis failed".
Proof.
  unfold analyzeCV. destruct (analyzeCVComprehensive _ _ _) as [effects [r|e']];
    cbn; [done|]. by intros [= <-].
Qed.

Lemma markAnalysisAsFailed_absent id message w :
  db w !! id = None → markAnalysisAsFailed id message w = w.
Proof.
  intros Hnone. destruct w as [m f c]. unfold markAnalysisAsFailed, with_db.
  cbn in *. f_equal. apply map_eq. intros j.
  destruct (decide (id = j)) as [<-|Hne].
  - by rewrite lookup_alter_eq, Hnone.
  - by rewrite lookup_alter_ne.
Qed.

Section RunProperties.

Variable JSON_parse : string -> option json.
Variable validate : CVAnalysis -> option string.
Variable svc : OpenAIService.

(** A body that ends without an error has gone through every stage. *)
Lemma analysis_body_ok env id w w' effects :
  analysis_body JSON_parse validate svc env id w = (w', effects, Ok ()) →
  ∃ analysis text ai,
    db w !! id = Some analysis
    ∧ extraction env = Ok text
    ∧ trim text ≠ ""
    ∧ (analyzeCV JSON_parse svc (api env)).2 = Ok ai
    ∧ db w' !! id
      = Some (with_status Completed
                (with_results (ai_overallScore ai) (ai_summary ai)
                   (match ai_sections ai with
                    | Some x => if truthy (ai_sections ai) then x
                                else sections analysis
                    | None => sections analysis
                    end)
                   (match ai_recommendations ai with
                    | Some x => if truthy (ai_recommendations ai) then x
                                else recommendations analysis
                    | None => recommendations analysis
                    end)
                   (match ai_jobMatching ai with
                    | Some x => if truthy (ai_jobMatching ai) then x
                                else jobMatching analysis
                    | None => jobMatching analysis
                    end)
                   (match ai_marketInsights ai with
                    | Some x => if truthy (ai_marketInsights ai) then x
                                else marketInsights analysis
                    | None => marketInsights analysis
                    end)
                   (with_extractedText (Some text) analysis))).
Proof.
  unfold analysis_body.
  destruct (db w !! id) as [analysis|] eqn:Hid; [|done].
  destruct (extraction env) as [text|e0]; [|done].
  destruct (validate (with_extractedText (Some text) analysis)); [done|].
  destruct (negb (given (Some text)) || (String.length (trim text) =? 0)%nat)
    eqn:Hblank; [done|].
  destruct (analyzeCV JSON_parse svc (api env)) as [eff [ai|e]]; [|done].
  cbn [fst snd].
  match goal with |- context [validate ?d] => destruct (validate d) end;
    [done|].
  intros [= <- <-]. exists analysis, text, ai. split_and!; try done.
  - apply orb_false_elim in Hblank as [_ Hlen]. intros Hempty.
    rewrite Hempty in Hlen. done.
  - cbn [db with_db]. by rewrite lookup_insert_eq.
Qed.

(** X7.  A record that a run leaves completed holds the validated
    answer of the model: an overall score that is a number in [0,100],
    a truthy summary, and the extracted text of this run, which is not
    blank. *)
Theorem completed_run_stores_validated_result
    (env : RunEnv) (id : nat) (w : World) (d' : CVAnalysis) :
  db (background_run JSON_parse validate svc env id w).1 !! id = Some d' →
  processingStatus d' = Completed →
  (∃ q, overallScore d' = Some (JNum (Fin q)) ∧ (0 <= q)%Q ∧ (q <= 100)%Q)
  ∧ truthy (summary d') = true
  ∧ ∃ text, extraction env = Ok text
            ∧ extractedText d' = Some text
            ∧ trim text ≠ "".
Proof.
  unfold background_run, performAnalysis.
  destruct (analysis_body JSON_parse validate svc env id w)
    as [[w' effects] [[]|error]] eqn:Hbody; cbn [fst snd].
  - apply analysis_body_ok in Hbody
      as (analysis & text & ai & Hid & Hext & Htext & Hai & ->).
    intros [= <-] _.
    apply analyzeCV_ok in Hai as (v & r & Hv & Hscore & Hsum & _).
    split; [|split].
    + cbn. rewrite Hscore. by apply (validate_ok_score v).
    + cbn. rewrite Hsum.
      apply validate_ok_shape in Hv as (r5 & c & Hobj & Hall & _ & -> & _).
      rewrite get_put_ne by done.
      apply (proj1 (Forall_forall _ _) Hall). unfold structureFields.
      set_solver.
    + by exists text.
  - rewrite !lookup_markAnalysisAsFailed.
    destruct (decide (id = id)); [|done].
    destruct (db w' !! id); [|done]. cbn. by intros [= <-].
Qed.

(** X8.  When the AI step fails, for whatever reason (retries
    exhausted, a non-retryable error, an unusable response), the run
    leaves the record failed with the error message "CV analysis
    failed": the cause is not recorded.  The text extracted by the run
    stays stored. *)
Theorem ai_failure_recorded_generically
    (env : RunEnv) (id : nat) (w : World) (d : CVAnalysis)
    (text : string) (e : jserror) :
  db w !! id = Some d →
  extraction env = Ok text →
  validate (with_extractedText (Some text) d) = None →
  trim text ≠ "" →
  (analyzeCV JSON_parse svc (api env)).2 = Err e →
  db (background_run JSON_parse validate svc env id w).1 !! id
  = Some (with_errorMessage (Some "CV analysis failed")
            (with_status Failed (with_extractedText (Some text) d))).
Proof.
  intros Hid Hext Hvalid Htext Herr.
  pose proof (analyzeCV_err _ _ _ _ Herr) as Hmsg.
  unfold background_run, performAnalysis, analysis_body.
  rewrite Hid, Hext, Hvalid.
  assert (negb (given (Some text)) || (String.length (trim text) =? 0)%nat
          = false) as ->.
  { destruct text as [|c t]; [done|]. cbn [given negb orb].
    destruct (trim (String c t)); done. }
  destruct (analyzeCV JSON_parse svc (api env)) as [eff [ai|e']];
    cbn [snd] in Herr; [done|]. injection Herr as ->.
  cbn [fst snd]. rewrite Hmsg. rewrite !lookup_markAnalysisAsFailed.
  destruct (decide (id = id)); [|done].
  cbn [db with_db]. by rewrite lookup_insert_eq.
Qed.

(** X9.  A run for an id that is not in the collection (the record was
    deleted while the run was waiting) makes no request to the API,
    creates no record and changes nothing. *)
Theorem run_without_record_changes_nothing
    (env : RunEnv) (id : nat) (w : World) :
  db w !! id = None →
  background_run JSON_parse validate svc env id w = (w, []).
Proof.
  intros Hnone. unfold background_run, performAnalysis, analysis_body.
  rewrite Hnone. cbv iota beta. cbn [error_message].
  rewrite (markAnalysisAsFailed_absent id _ w) by done.
  by rewrite (markAnalysisAsFailed_absent id _ w) by done.
Qed.

End RunProperties.

Lemma completed_run_stores_validated_result_witness :
  let env := {| extraction := Ok "Ten years of engineering experience";
                api := λ _, Ok (sample_completion (Some "{}")) |} in
  let w' := (background_run table_parse sample_validate new_OpenAIService
               env 2 sample_world).1 in
  processingStatus <$> db w' !! 2%nat = Some Completed
  ∧ overallScore <$> db w' !! 2%nat = Some (Some (JNum (Fin 75))).
Proof.
  split; [reflexivity|].
  destruct (completed_run_stores_validated_result table_parse sample_validate
              new_OpenAIService
              {| extraction := Ok "Ten years of engineering experience";
                 api := λ _, Ok (sample_completion (Some "{}")) |}
              2 sample_world
              (with_status Completed
                 (with_results (Some (JNum (Fin 75))) (Some default_summary)
                    (JObj []) (JArr [] []) (JObj []) (JObj [])
                    (sample_doc 7 Failed 11))))
    as [(q & Hq & _) _]; [reflexivity|reflexivity|].
  reflexivity.
Defined.

Lemma ai_failure_recorded_generically_witness :
  let env := {| extraction := Ok "Ten years of engineering experience";
                api := λ _, Err (ApiError (Some 401%Z) "Unauthorized") |} in
  db sample_world !! 1%nat = Some (sample_doc 7 Completed 10)
  ∧ errorMessage <$>
      db (background_run table_parse sample_validate new_OpenAIService
            env 1 sample_world).1 !! 1%nat
    = Some (Some "CV analysis failed").
Proof.
  split; [reflexivity|].
  rewrite (ai_failure_recorded_generically table_parse sample_validate
             new_OpenAIService
             {| extraction := Ok "Ten years of engineering experience";
                api := λ _, Err (ApiError (Some 401%Z) "Unauthorized") |}
             1 sample_world (sample_doc 7 Completed 10)
             "Ten years of engineering experience"
             (OpenAIServiceError "CV analysis failed"
                (Some (OpenAIServiceError "CV analysis failed"
                         (Some (ApiError (Some 401%Z) "Unauthorized"))))));
    try reflexivity.
  discriminate.
Defined.

Lemma run_without_record_changes_nothing_witness :
  db sample_world !! 9%nat = None
  ∧ background_run table_parse sample_validate new_OpenAIService
      {| extraction := Ok "Ten years of engineering experience";
         api := λ _, Ok (sample_completion (Some "{}")) |} 9 sample_world
    = (sample_world, []).
Proof.
  split; [reflexivity|].
  by apply (run_without_record_changes_nothing table_parse sample_validate
              new_OpenAIService).
Defined.

(** ** The handlers *)

Section HandlerProperties.

Variable validate : CVAnalysis -> option string.
Variable strictQuery : bool.

(** X10.  An upload never touches a record that is already stored: an
    accepted upload adds its record under an id that was free, and an
    upload that is refused (400 or 500) stores nothing and starts no
    run.  No upload adds a file. *)
Theorem upload_never_overwrites (user : nat) (req : UploadBody) (w : World) :
  let out := uploadAndAnalyzeCV validate user req w in
  (∀ id d, db w !! id = Some d → db out.1.1 !! id = Some d)
  ∧ (code out.1.2 ≠ 202%nat → db out.1.1 = db w ∧ out.2 = [])
  ∧ (code out.1.2 = 202%nat →
     ∃ id, db w !! id = None ∧ dom (db out.1.1) = {[ id ]} ∪ dom (db w))
  ∧ files out.1.1 ⊆ files w.
Proof.
  unfold uploadAndAnalyzeCV.
  destruct (up_experienceLevel req) as [[|c1 l1]|];
    try (cbn; split_and!; first [done|by intros x [? _]%elem_of_difference]).
  destruct (up_major req) as [[|c2 l2]|];
    try (cbn; split_and!; first [done|by intros x [? _]%elem_of_difference]).
  destruct (up_file req) as [file|];
    try (cbn; split_and!; first [done|by intros x [? _]%elem_of_difference]).
  match goal with |- context [validate ?d] => destruct (validate d) end.
  - cbn. split_and!; first [done|by intros x [? _]%elem_of_difference].
  - cbn. split_and!.
    + intros id d Hd. rewrite lookup_insert_ne; [done|].
      intros <-. apply (is_fresh (dom (db w))). apply elem_of_dom. by exists d.
    + done.
    + intros _. exists (fresh (dom (db w))). split.
      * apply not_elem_of_dom, is_fresh.
      * by rewrite dom_insert_L.
    + done.
Qed.

(** X11.  After its owner has deleted a record, the id answers as one
    that never existed: fetch, reanalyze and a second delete, by the
    owner or by anyone else, all answer 404 and change nothing. *)
Theorem deleted_record_not_found
    (user id : nat) (w : World) (d : CVAnalysis) :
  db w !! id = Some d →
  userId d = user →
  let w' := (deleteAnalysis user id w).1.1 in
  ∀ anyone req,
    getAnalysisResults anyone id w' = (w', not_found, [])
    ∧ reanalyzeCV validate anyone id req w' = (w', not_found, [])
    ∧ deleteAnalysis anyone id w' = (w', not_found, []).
Proof.
  intros Hd Huser. unfold deleteAnalysis at 1.
  assert (findOne id user w = Some d) as ->.
  { unfold findOne. rewrite Hd. by rewrite bool_decide_eq_true_2. }
  cbn [fst snd]. intros anyone req.
  unfold getAnalysisResults, reanalyzeCV, deleteAnalysis, findOne.
  cbn [db with_db unlink]. by rewrite lookup_delete_eq.
Qed.

(** X12.  A reanalysis that is accepted clears the results and the
    error message of the record and puts it in processing, and keeps
    what the upload stored: owner, file, extracted text, creation time.
    Job data that the request does not send is kept, a target job
    title that is not sent included, whatever else is sent; a level or
    major that is sent replaces the stored one (the major trimmed), a
    title sent with text replaces the stored one, trimmed, and a blank
    one removes it.  An empty target job title sent alone is ignored
    (the update is skipped), so the stored title stays. *)
Theorem reanalyze_clears_results_keeps_input
    (user id : nat) (req : ReanalyzeBody) (w : World) :
  let out := reanalyzeCV validate user id req w in
  code out.1.2 = 200%nat →
  ∃ d d',
    db w !! id = Some d
    ∧ db out.1.1 !! id = Some d'
    ∧ out.2 = [ id ]
    ∧ (processingStatus d' = Processing
       ∧ overallScore d' = None ∧ summary d' = None
       ∧ sections d' = JObj [] ∧ recommendations d' = JArr [] []
       ∧ jobMatching d' = JObj [] ∧ marketInsights d' = JObj []
       ∧ errorMessage d' = None)
    ∧ (userId d' = userId d ∧ filePath d' = filePath d
       ∧ originalFilename d' = originalFilename d ∧ fileSize d' = fileSize d
       ∧ extractedText d' = extractedText d ∧ createdAt d' = createdAt d)
    ∧ (given (re_experienceLevel req) = false →
       experienceLevel (jobData d') = experienceLevel (jobData d))
    ∧ (given (re_major req) = false → major (jobData d') = major (jobData d))
    ∧ (given (re_experienceLevel req) = false → given (re_major req) = false →
       given (re_targetJobTitle req) = false → jobData d' = jobData d)
    ∧ (given (re_experienceLevel req) || given (re_major req) = true →
       re_targetJobTitle req = Some "" → targetJobTitle (jobData d') = None)
    ∧ (∀ j, j ≠ id → db out.1.1 !! j = db w !! j)
    ∧ (re_targetJobTitle req = None →
       targetJobTitle (jobData d') = targetJobTitle (jobData d))
    ∧ (∀ level, re_experienceLevel req = Some level → level ≠ EmptyString →
       experienceLevel (jobData d') = level)
    ∧ (∀ field, re_major req = Some field → field ≠ EmptyString →
       major (jobData d') = trim field)
    ∧ (∀ title, re_targetJobTitle req = Some title → title ≠ EmptyString →
       targetJobTitle (jobData d')
       = if given (Some (trim title)) then Some (trim title) else None).
Proof.
  unfold reanalyzeCV, findOne.
  destruct (db w !! id) as [d|] eqn:Hd; [|done].
  destruct (bool_decide (userId d = user)); [|done].
  match goal with |- context [validate ?x] => destruct (validate x) end;
    [done|].
  cbn [fst snd code db with_db]. intros _. eexists d, _.
  split; [done|]. split; [by rewrite lookup_insert_eq|].
  split; [done|]. split; [by cbn|]. split; [by cbn|].
  split_and!.
  - intros Hl. cbn. rewrite Hl. cbn.
    destruct (given (re_major req) || given (re_targetJobTitle req)); [|done].
    cbn. by destruct (re_experienceLevel req) as [[|? ?]|].
  - intros Hm. cbn.
    destruct (given (re_experienceLevel req) || given (re_major req)
              || given (re_targetJobTitle req)); [|done].
    cbn. by destruct (re_major req) as [[|? ?]|].
  - intros Hl Hm Ht. cbn. by rewrite Hl, Hm, Ht.
  - intros Hany Ht. cbn. rewrite Ht. cbn [given]. rewrite orb_false_r, Hany.
    done.
  - intros j Hne. by rewrite lookup_insert_ne.
  - intros Ht. cbn. rewrite Ht.
    by destruct (given (re_experienceLevel req) || given (re_major req)
                 || given None).
  - intros level Hl Hne. cbn. rewrite Hl.
    destruct level as [|c l]; [done|]. done.
  - intros field Hm Hne. cbn. rewrite Hm.
    destruct field as [|c l]; [done|]. cbn [given].
    by rewrite orb_true_r.
  - intros title Ht Hne. cbn. rewrite Ht.
    destruct title as [|c l]; [done|]. cbn [given].
    by rewrite orb_true_r.
Qed.

End HandlerProperties.

Lemma upload_never_overwrites_witness :
  db sample_world !! 1%nat = Some (sample_doc 7 Completed 10)
  ∧ db (uploadAndAnalyzeCV sample_validate 7 sample_upload sample_world).1.1
      !! 1%nat = Some (sample_doc 7 Completed 10).
Proof.
  split; [reflexivity|].
  apply (proj1 (upload_never_overwrites sample_validate 7 sample_upload
                  sample_world) 1%nat (sample_doc 7 Completed 10)).
  reflexivity.
Defined.

Lemma deleted_record_not_found_witness :
  let w' := (deleteAnalysis 7 1 sample_world).1.1 in
  db sample_world !! 1%nat = Some (sample_doc 7 Completed 10)
  ∧ getAnalysisResults 7 1 w' = (w', not_found, [])
  ∧ deleteAnalysis 7 1 w' = (w', not_found, []).
Proof.
  split; [reflexivity|].
  destruct (deleted_record_not_found sample_validate 7 1 sample_world
              (sample_doc 7 Completed 10) eq_refl eq_refl 7 no_changes)
    as (Hget & _ & Hdel).
  by split.
Defined.

Lemma reanalyze_clears_results_keeps_input_witness :
  let out := reanalyzeCV sample_validate 7 1 empty_title_only titled_world in
  code out.1.2 = 200%nat
  ∧ ∃ d', db out.1.1 !! 1%nat = Some d'
          ∧ targetJobTitle (jobData d') = Some "Data Engineer"
          ∧ overallScore d' = None.
Proof.
  split; [reflexivity|].
  destruct (reanalyze_clears_results_keeps_input sample_validate 7 1
              empty_title_only titled_world eq_refl)
    as (d & d' & Hd & Hd' & _ & (_ & Hscore & _) & _ & _ & _ & Hjob & _ & _).
  exists d'. split; [exact Hd'|].
  rewrite (Hjob eq_refl eq_refl eq_refl).
  injection Hd as <-. by split.
Defined.

(** ** The pages of the history *)

#[local] Instance newer_first_total : Total newer_first.
Proof. intros a b. unfold newer_first. lia. Qed.

#[local] Instance newer_first_trans : Transitive newer_first.
Proof. intros a b c. unfold newer_first. lia. Qed.

Lemma filter_sublist {A} (f : A → bool) (l : list A) :
  List.filter f l `sublist_of` l.
Proof.
  induction l as [|x l IH]; simpl; [done|].
  destruct (f x); by constructor.
Qed.

Lemma sublist_fmap_fst {A B} (l1 l2 : list (A * B)) :
  l1 `sublist_of` l2 → l1.*1 `sublist_of` l2.*1.
Proof. induction 1; simpl; by constructor. Qed.

Lemma StronglySorted_sublist {A} (R : relation A) (l1 l2 : list A) :
  l1 `sublist_of` l2 → StronglySorted R l2 → StronglySorted R l1.
Proof.
  induction 1 as [|x l1 l2 Hsub IH|x l1 l2 Hsub IH]; intros Hs.
  - constructor.
  - apply StronglySorted_inv in Hs as [Hs Hall]. constructor; [by apply IH|].
    apply Forall_forall. intros y Hy.
    apply (proj1 (Forall_forall _ _) Hall). by eapply elem_of_sublist.
  - apply StronglySorted_inv in Hs as [Hs _]. by apply IH.
Qed.

(** X13.  A page of the history holds at most [limit] documents, each
    record at most once, the newest first. *)
Theorem history_page_sorted_bounded
    (strictQuery : bool) (user : nat) (q : HistoryQuery) (w : World) :
  let pg := paginate strictQuery user q w in
  (length (docs pg) ≤ q_limit q)%nat
  ∧ (length (docs pg) ≤ totalDocs pg)%nat
  ∧ NoDup (docs pg).*1
  ∧ StronglySorted newer_first (docs pg).
Proof.
  unfold paginate. cbn [docs totalDocs].
  set (matched := List.filter _ (map_to_list (db w))).
  set (sorted := merge_sort newer_first matched).
  set (slice := take (q_limit q) (drop _ sorted)).
  destruct (q_limit q =? 0)%nat eqn:Hz.
  { cbn. split_and!; try lia; constructor. }
  assert (slice `sublist_of` sorted) as Hsub.
  { unfold slice. etrans; [apply sublist_take|apply sublist_drop]. }
  assert (length sorted = length matched) as Hlen.
  { unfold sorted. by rewrite merge_sort_Permutation. }
  split_and!.
  - rewrite length_fmap. unfold slice. rewrite length_take. lia.
  - rewrite length_fmap, <- Hlen. by apply sublist_length.
  - rewrite <- list_fmap_compose.
    change (fst ∘ _) with (@fst nat CVAnalysis).
    apply (sublist_NoDup _ (sorted.*1)); [|by apply sublist_fmap_fst].
    unfold sorted. rewrite merge_sort_Permutation.
    apply (sublist_NoDup _ ((map_to_list (db w)).*1));
      [|apply sublist_fmap_fst, filter_sublist].
    apply NoDup_fst_map_to_list.
  - apply (StronglySorted_fmap _ newer_first newer_first); [done|].
    eapply StronglySorted_sublist; [exact Hsub|].
    apply StronglySorted_merge_sort; apply _.
Qed.

(** ** Stages *)

(** X14.  [markAsCompleted] leaves no stage in progress: every stage
    that was in progress is completed and gets the end time, the other
    stages and the order of the stages are untouched. *)
Theorem markAsCompleted_leaves_no_stage_in_progress
    (now : nat) (d : CVAnalysis) :
  let stages' := processingStages (markAsCompleted now d) in
  in_progress stages' = 0%nat
  ∧ stage <$> stages' = stage <$> processingStages d
  ∧ ∀ i s, processingStages d !! i = Some s →
           stages' !! i
           = Some (if is_in_progress s
                   then {| stage := stage s; stageStatus := StageCompleted;
                           startTime := startTime s; endTime := Some now;
                           stageError := stageError s |}
                   else s).
Proof.
  cbn. induction (processingStages d) as [|s l (IH1 & IH2 & IH3)]; [done|].
  split_and!.
  - unfold in_progress in *. cbn. unfold complete_stage at 1, is_in_progress at 1.
    destruct (stageStatus s) eqn:E; cbn; rewrite ?E; apply IH1.
  - cbn. f_equal; [|done]. unfold complete_stage.
    by destruct (stageStatus s).
  - intros [|i] s'; cbn.
    + intros [= <-]. f_equal. unfold complete_stage, is_in_progress.
      by destruct (stageStatus s).
    + apply IH3.
Qed.

Lemma in_progress_cons s l :
  in_progress (s :: l)
  = ((if is_in_progress s then 1 else 0) + in_progress l)%nat.
Proof. unfold in_progress. cbn. by destruct (is_in_progress s). Qed.

Lemma fail_current_count now message l :
  in_progress (fail_current now message l) = (in_progress l - 1)%nat.
Proof.
  induction l as [|s l IH]; [done|]. cbn [fail_current].
  destruct (stageStatus s) eqn:E; rewrite !in_progress_cons;
    unfold is_in_progress; cbn [stageStatus]; rewrite ?E, ?IH; lia.
Qed.

Lemma fail_current_names now message l :
  stage <$> fail_current now message l = stage <$> l.
Proof.
  induction l as [|s l IH]; [done|]. cbn [fail_current].
  destruct (stageStatus s); cbn; by rewrite ?IH.
Qed.

Lemma fail_current_first now message l : ∀ i s,
  l !! i = Some s →
  is_in_progress s = true →
  in_progress (take i l) = 0%nat →
  fail_current now message l !! i
  = Some {| stage := stage s; stageStatus := StageFailed;
            startTime := startTime s; endTime := Some now;
            stageError := Some message |}.
Proof.
  induction l as [|s0 l IH]; intros i s; [done|]. cbn [fail_current].
  destruct i as [|i].
  - cbn. intros [= ->] Hs _. unfold is_in_progress in Hs.
    by destruct (stageStatus s).
  - cbn [lookup take]. intros Hs Hin Hbefore.
    rewrite in_progress_cons in Hbefore.
    destruct (is_in_progress s0) eqn:Es; [lia|].
    unfold is_in_progress in Es.
    destruct (stageStatus s0); try done; cbn; by apply IH.
Qed.

(** X15.  [markAsFailed] fails one stage only, the first that is in
    progress, and records the message of the error on it: the number
    of stages in progress goes down by one, so with two stages in
    progress one still is afterwards. *)
Theorem markAsFailed_fails_first_stage_only
    (now : nat) (error : jserror) (d : CVAnalysis) :
  let stages' := processingStages (markAsFailed now error d) in
  in_progress stages' = (in_progress (processingStages d) - 1)%nat
  ∧ stage <$> stages' = stage <$> processingStages d
  ∧ ∀ i s, processingStages d !! i = Some s →
           is_in_progress s = true →
           in_progress (take i (processingStages d)) = 0%nat →
           stages' !! i
           = Some {| stage := stage s; stageStatus := StageFailed;
                     startTime := startTime s; endTime := Some now;
                     stageError := Some (error_message error) |}.
Proof.
  unfold markAsFailed. cbn [processingStages with_stages with_status].
  split; [apply fail_current_count|]. split; [apply fail_current_names|].
  apply fail_current_first.
Qed.

Lemma markAsFailed_fails_first_stage_only_witness :
  in_progress (processingStages staged_doc) = 2%nat
  ∧ in_progress (processingStages
                   (markAsFailed 9 (Error "timeout") staged_doc)) = 1%nat
  ∧ stageStatus <$>
      processingStages (markAsFailed 9 (Error "timeout") staged_doc) !! 1%nat
    = Some StageFailed.
Proof.
  split; [reflexivity|].
  destruct (markAsFailed_fails_first_stage_only 9 (Error "timeout") staged_doc)
    as (Hcount & _ & Hfirst).
  split; [exact Hcount|].
  by rewrite (Hfirst 1%nat _ eq_refl eq_refl eq_refl).
Defined.

Lemma update_first_absent name f l :
  Forall (λ s, stage s ≠ name) l → update_first name f l = l.
Proof.
  induction 1 as [|s l Hs _ IH]; [done|]. cbn.
  apply String.eqb_neq in Hs as ->. by rewrite IH.
Qed.

Lemma with_stages_same d : with_stages (processingStages d) d = d.
Proof. by destruct d. Qed.

(** X16.  [updateStage] never touches the status of the record, and
    for a stage name the record does not have it changes nothing at
    all.  For a stage the record has, started with [updateStage] and
    then closed by [markAsCompleted], the stage ends completed with
    both times set. *)
Theorem updateStage_tracks_one_stage
    (t1 t2 : nat) (name : string) (status : StageStatus)
    (error : option string) (d : CVAnalysis) :
  processingStatus (updateStage t1 name status error d) = processingStatus d
  ∧ (Forall (λ s, stage s ≠ name) (processingStages d) →
     updateStage t1 name status error d = d)
  ∧ ∀ i s, processingStages d !! i = Some s →
           stage s = name →
           Forall (λ s', stage s' ≠ name) (take i (processingStages d)) →
           processingStages
             (markAsCompleted t2 (updateStage t1 name InProgress error d)) !! i
           = Some {| stage := name; stageStatus := StageCompleted;
                     startTime := Some t1; endTime := Some t2;
                     stageError := stageError s |}.
Proof.
  split; [done|]. split.
  - intros Habsent. unfold updateStage.
    rewrite update_first_absent by done. apply with_stages_same.
  - cbn. induction (processingStages d) as [|s0 l IH]; intros i s; [done|].
    destruct i as [|i]; cbn [lookup take update_first].
    + intros [= ->] Hname _. apply String.eqb_eq in Hname as Heq.
      rewrite Heq. cbn. by rewrite Hname.
    + intros Hs Hname Hbefore. apply Forall_cons in Hbefore as [Hs0 Hbefore].
      apply String.eqb_neq in Hs0 as ->. cbn. by apply IH.
Qed.

Lemma updateStage_tracks_one_stage_witness :
  processingStages staged_doc !! 2%nat
  = Some {| stage := "analysis"; stageStatus := InProgress;
            startTime := Some 3%nat; endTime := None; stageError := None |}
  ∧ processingStages
      (markAsCompleted 8 (updateStage 5 "analysis" InProgress None staged_doc))
      !! 2%nat
    = Some {| stage := "analysis"; stageStatus := StageCompleted;
              startTime := Some 5%nat; endTime := Some 8%nat;
              stageError := None |}.
Proof.
  split; [reflexivity|].
  destruct (updateStage_tracks_one_stage 5 8 "analysis" InProgress None
              staged_doc) as (_ & _ & Hstage).
  apply (Hstage 2%nat _ eq_refl eq_refl).
  repeat constructor; discriminate.
Defined.

Lemma markAsCompleted_leaves_no_stage_in_progress_witness :
  in_progress (processingStages staged_doc) = 2%nat
  ∧ in_progress (processingStages (markAsCompleted 9 staged_doc)) = 0%nat
  ∧ stageStatus <$> processingStages (markAsCompleted 9 staged_doc) !! 2%nat
    = Some StageCompleted.
Proof.
  split; [reflexivity|].
  destruct (markAsCompleted_leaves_no_stage_in_progress 9 staged_doc)
    as (Hnone & _ & Hstage).
  split; [exact Hnone|]. by rewrite (Hstage 2%nat _ eq_refl).
Defined.

(** ** Soft delete and the finders *)

Lemma finder_elem (f : nat * CVAnalysis → bool) (w : World) p :
  p ∈ merge_sort newer_first (List.filter f (map_to_list (db w))) →
  db w !! p.1 = Some p.2 ∧ f p = true.
Proof.
  rewrite merge_sort_Permutation.
  intros [Hin Hf]%list_elem_of_In%filter_In.
  apply list_elem_of_In in Hin. destruct p as [k d].
  by apply elem_of_map_to_list in Hin.
Qed.

(** X17.  [findByUser] and [findCompletedAnalyses] return the user's
    own active records only (and [findByUser] at most [limit] of them,
    10 when no limit is given), so a record that [softDelete] has
    flagged is hidden from both.  [findCompletedAnalyses] returns
    exactly the user's active records that are completed, each once,
    the newest first.  The controller does not look at the flag: its
    fetch still answers 200 with the flagged record. *)
Theorem soft_deleted_hidden_from_finders_only
    (user id now : nat) (options : FindOptions) (w : World) (d : CVAnalysis) :
  db w !! id = Some d →
  userId d = user →
  let w' := with_db (<[ id := softDelete now d ]> (db w)) w in
  (∀ p, p ∈ findByUser user options w' →
        db w' !! p.1 = Some p.2 ∧ userId p.2 = user ∧ isActive p.2 = true)
  ∧ (length (findByUser user options w')
     ≤ if (opt_limit options =? 0)%nat then 10 else opt_limit options)%nat
  ∧ (id ∉ (findByUser user options w').*1)
  ∧ (id ∉ (findCompletedAnalyses user w').*1)
  ∧ getAnalysisResults user id w'
    = (w', {| code := 200; body := Analysis id (softDelete now d) |}, [])
  ∧ (∀ p, p ∈ findCompletedAnalyses user w'
          ↔ db w' !! p.1 = Some p.2 ∧ userId p.2 = user
            ∧ processingStatus p.2 = Completed ∧ isActive p.2 = true)
  ∧ NoDup (findCompletedAnalyses user w').*1
  ∧ StronglySorted newer_first (findCompletedAnalyses user w').
Proof.
  intros Hd Huser w'.
  assert (db w' !! id = Some (softDelete now d)) as Hid
    by (unfold w'; cbn; by rewrite lookup_insert_eq).
  assert (∀ p, p ∈ findByUser user options w' →
               db w' !! p.1 = Some p.2 ∧ userId p.2 = user
               ∧ isActive p.2 = true) as Hfind.
  { intros p Hp. unfold findByUser in Hp.
    apply subseteq_take, subseteq_drop, finder_elem in Hp as [Hp Hf].
    apply andb_prop in Hf as [Hu%bool_decide_eq_true Ha]. done. }
  split; [exact Hfind|]. split; [|split; [|split; [|split; [|split; [|split]]]]].
  - unfold findByUser. rewrite length_take. lia.
  - intros ([k d0] & -> & Hp)%list_elem_of_fmap.
    apply Hfind in Hp as (Hp & _ & Hactive). cbn in *.
    rewrite Hid in Hp. by injection Hp as <-.
  - intros ([k d0] & -> & Hp)%list_elem_of_fmap.
    unfold findCompletedAnalyses in Hp. apply finder_elem in Hp as [Hp Hf].
    cbn in *. rewrite Hid in Hp. injection Hp as <-.
    apply andb_prop in Hf as [_ Hactive]. done.
  - unfold getAnalysisResults, findOne. rewrite Hid. cbn [userId softDelete with_softDelete].
    by rewrite bool_decide_eq_true_2.
  - intros [k d0]. unfold findCompletedAnalyses.
    rewrite merge_sort_Permutation, list_elem_of_In, filter_In.
    rewrite <- list_elem_of_In, elem_of_map_to_list. cbn [fst snd].
    rewrite !andb_true_iff, bool_decide_eq_true.
    split.
    + intros (Hk & (Hu & Hc) & Ha). split_and!; try done.
      by destruct (processingStatus d0).
    + intros (Hk & Hu & Hc & Ha). rewrite Hc. done.
  - unfold findCompletedAnalyses. rewrite merge_sort_Permutation.
    apply (sublist_NoDup _ ((map_to_list (db w')).*1));
      [|apply sublist_fmap_fst, filter_sublist].
    apply NoDup_fst_map_to_list.
  - unfold findCompletedAnalyses. apply StronglySorted_merge_sort; apply _.
Qed.

Lemma soft_deleted_hidden_from_finders_only_witness :
  let w' := with_db (<[ 1%nat := softDelete 30 (sample_doc 7 Completed 10) ]>
                       (db sample_world)) sample_world in
  db sample_world !! 1%nat = Some (sample_doc 7 Completed 10)
  ∧ (1%nat ∉ (findByUser 7 {| opt_limit := 0; opt_skip := 0 |} w').*1)
  ∧ code (getAnalysisResults 7 1 w').1.2 = 200%nat.
Proof.
  split; [reflexivity|].
  destruct (soft_deleted_hidden_from_finders_only 7 1 30
              {| opt_limit := 0; opt_skip := 0 |} sample_world
              (sample_doc 7 Completed 10) eq_refl eq_refl)
    as (_ & _ & Hhidden & _ & Hget & _).
  split; [exact Hhidden|]. by rewrite Hget.
Defined.

(** ** The upload rate limiter *)

Lemma length_filter_app {A} (f : A → bool) l1 l2 :
  length (List.filter f (l1 ++ l2))
  = (length (List.filter f l1) + length (List.filter f l2))%nat.
Proof. by rewrite List.filter_app, length_app. Qed.

Lemma length_filter_le_impl {A} (f g : A → bool) l :
  (∀ x, x ∈ l → f x = true → g x = true) →
  (length (List.filter f l) ≤ length (List.filter g l))%nat.
Proof.
  induction l as [|x l IH]; intros Himpl; [done|]. cbn.
  assert (length (List.filter f l) ≤ length (List.filter g l))%nat as Hl.
  { apply IH. intros y Hy. apply Himpl. by right. }
  destruct (f x) eqn:Ef.
  - rewrite (Himpl x (list_elem_of_here _ _) Ef). cbn. lia.
  - destruct (g x); cbn; lia.
Qed.

Lemma recent_mono now now' t :
  (now ≤ now')%Z → recent now' t = true → recent now t = true.
Proof. unfold recent. intros ? ?%Z.ltb_lt. apply Z.ltb_lt. lia. Qed.

Lemma filter_recent_twice now now' l :
  (now ≤ now')%Z →
  List.filter (recent now') (List.filter (recent now) l)
  = List.filter (recent now') l.
Proof.
  intros Hle. induction l as [|t l IH]; [done|]. cbn.
  destruct (recent now t) eqn:E; cbn; rewrite IH; [done|].
  destruct (recent now' t) eqn:E'; [|done].
  apply (recent_mono now) in E'; [congruence|done].
Qed.

Lemma limiter_step H m last u now :
  limiter_inv H m last →
  (last ≤ now)%Z →
  match rateLimitCVUpload u now m with
  | (m', None) => limiter_inv (H ++ [ (u, now) ]) m' now
  | (m', Some _) => limiter_inv H m' now
  end.
Proof.
  intros (Hstored & Hwindow & Hlast) Hle. unfold rateLimitCVUpload.
  set (valid := List.filter (recent now) (default [] (m !! u))).
  destruct (maxUploads <=? length valid)%nat eqn:Hfull.
  - split_and!.
    + intros u' now' Hnow'. apply Hstored. lia.
    + done.
    + intros r Hr. specialize (Hlast r Hr). lia.
  - apply Nat.leb_gt in Hfull. split_and!.
    + intros u' now' Hnow'. rewrite length_filter_app. cbn [List.filter].
      unfold by_user_recent at 2. cbn [fst snd].
      destruct (decide (u = u')) as [<-|Hne].
      * rewrite lookup_insert_eq. cbn [default from_option id].
        rewrite length_filter_app, Nat.eqb_refl. cbn [andb List.filter].
        rewrite Hstored by lia. unfold valid.
        rewrite filter_recent_twice by done. by destruct (recent now' now).
      * rewrite lookup_insert_ne by done.
        apply Nat.eqb_neq in Hne as ->. cbn. rewrite Hstored by lia. lia.
    + intros u' T. rewrite length_filter_app. cbn [List.filter].
      unfold by_user_in_window at 2. cbn [fst snd].
      destruct (decide (u = u')) as [<-|Hne].
      2:{ apply Nat.eqb_neq in Hne as ->. cbn. specialize (Hwindow u' T). lia. }
      rewrite Nat.eqb_refl. cbn [andb].
      destruct (in_window T now) eqn:Hin.
      2:{ cbn. specialize (Hwindow u T). lia. }
      cbn [length].
      assert (length (List.filter (by_user_in_window u T) H)
              ≤ length (List.filter (by_user_recent u now) H))%nat as Hw.
      { apply length_filter_le_impl. intros r Hr.
        unfold by_user_in_window, by_user_recent, in_window, recent.
        intros [Hu [Hlo Hhi]%andb_prop]%andb_prop. rewrite Hu. cbn.
        apply Z.ltb_lt in Hlo. apply Z.ltb_lt.
        unfold in_window in Hin. apply andb_prop in Hin as [_ HT%Z.leb_le].
        specialize (Hlast r Hr). lia. }
      rewrite (Hstored u now Hle) in Hw. fold valid in Hw.
      unfold maxUploads in *. lia.
    + intros r [Hr|Hr]%elem_of_app.
      * specialize (Hlast r Hr). lia.
      * apply list_elem_of_singleton in Hr as ->. cbn. lia.
Qed.

Lemma let_through_window requests : ∀ H m last,
  limiter_inv H m last →
  Forall (λ r, (last ≤ r.2)%Z) requests →
  StronglySorted not_before requests →
  ∀ u T, (length (List.filter (by_user_in_window u T)
                    (H ++ let_through requests m)) ≤ maxUploads)%nat.
Proof.
  induction requests as [|[u0 now] rest IH]; intros H m last Hinv Hafter Hs u T.
  - rewrite app_nil_r. by destruct Hinv as (_ & Hw & _).
  - apply Forall_cons in Hafter as [Hnow _].
    apply StronglySorted_inv in Hs as [Hs Hrest]. cbn [let_through].
    pose proof (limiter_step H m last u0 now Hinv Hnow) as Hstep.
    destruct (rateLimitCVUpload u0 now m) as [m' [r|]].
    + by apply (IH H m' now).
    + rewrite (cons_middle _ H), (assoc_L (++)).
      by apply (IH (H ++ [ (u0, now) ]) m' now).
Qed.

(** X18.  The limiter is a sliding window: when the clock does not run
    backwards, no window of 60 seconds holds more than five uploads of
    one user that were let through, however many users and requests
    there are. *)
Theorem rate_limit_sliding_window
    (requests : list (nat * Z)) (user : nat) (T : Z) :
  StronglySorted not_before requests →
  (length (List.filter (by_user_in_window user T) (let_through requests ∅))
   ≤ maxUploads)%nat.
Proof.
  intros Hs.
  set (first := match requests with [] => 0%Z | r :: _ => r.2 end).
  apply (let_through_window requests [] ∅ first); [|
    |done].
  - split_and!; [|cbn; lia|by intros r Hr; inversion Hr].
    intros u now _. by rewrite lookup_empty.
  - destruct requests as [|r rest]; [constructor|].
    apply StronglySorted_inv in Hs as [_ Hrest].
    constructor; [cbn; lia|]. exact Hrest.
Qed.

Lemma rate_limit_sliding_window_witness :
  let requests :=
    [ (7%nat, 0%Z); (7%nat, 1000%Z); (8%nat, 1500%Z); (7%nat, 2000%Z);
      (7%nat, 3000%Z); (7%nat, 4000%Z); (7%nat, 5000%Z);
      (7%nat, 60500%Z) ] in
  StronglySorted not_before requests
  ∧ let_through requests ∅
    = [ (7%nat, 0%Z); (7%nat, 1000%Z); (8%nat, 1500%Z); (7%nat, 2000%Z);
        (7%nat, 3000%Z); (7%nat, 4000%Z); (7%nat, 60500%Z) ]
  ∧ (length (List.filter (by_user_in_window 7 60500)
               (let_through requests ∅)) ≤ maxUploads)%nat.
Proof.
  assert (StronglySorted not_before
            [ (7%nat, 0%Z); (7%nat, 1000%Z); (8%nat, 1500%Z); (7%nat, 2000%Z);
              (7%nat, 3000%Z); (7%nat, 4000%Z); (7%nat, 5000%Z);
              (7%nat, 60500%Z) ]) as Hs.
  { repeat (constructor; [|repeat constructor; unfold not_before; cbn; lia]).
    constructor. }
  split; [exact Hs|]. split; [reflexivity|].
  by apply (rate_limit_sliding_window _ 7%nat 60500%Z).
Defined.

Lemma filter_recent_old now l :
  Forall (λ t, (windowMs ≤ now - t)%Z) l → List.filter (recent now) l = [].
Proof.
  induction 1 as [|t l Ht _ IH]; [done|]. cbn.
  assert (recent now t = false) as ->; [|exact IH].
  unfold recent. apply Z.ltb_ge. lia.
Qed.

(** X19.  A request the limiter refuses is answered 429 and leaves the
    limiter as it was, so refusals do not prolong the block; the times
    of other users are never touched; and a user whose stored uploads
    are all at least a minute old is let through, with only the new
    time kept. *)
Theorem rate_limit_refusal_and_recovery
    (user : nat) (now : Z) (m : gmap nat (list Z)) :
  let out := rateLimitCVUpload user now m in
  (∀ r, out.2 = Some r → out.1 = m ∧ rej_code r = 429%nat)
  ∧ (∀ other, other ≠ user → out.1 !! other = m !! other)
  ∧ (Forall (λ t, (windowMs ≤ now - t)%Z) (default [] (m !! user)) →
     out.2 = None ∧ out.1 !! user = Some [ now ])
  ∧ ((length (default [] (m !! user)) < maxUploads)%nat → out.2 = None).
Proof.
  unfold rateLimitCVUpload.
  set (valid := List.filter (recent now) (default [] (m !! user))).
  assert (length valid ≤ length (default [] (m !! user)))%nat as Hlen.
  { unfold valid. apply sublist_length, filter_sublist. }
  split_and!.
  - destruct (maxUploads <=? length valid)%nat; cbn; [|done].
    by intros r [= <-].
  - intros other Hne. destruct (maxUploads <=? length valid)%nat; cbn; [done|].
    by rewrite lookup_insert_ne.
  - intros Hold. assert (valid = []) as ->
      by (unfold valid; by apply filter_recent_old).
    cbn. by rewrite lookup_insert_eq.
  - intros Hfew. assert ((maxUploads <=? length valid)%nat = false) as ->; [|done].
    apply Nat.leb_gt. lia.
Qed.

Lemma rate_limit_refusal_and_recovery_witness :
  let m : gmap nat (list Z) := {[ 7%nat := [ 0; 10; 20; 30; 40 ]%Z ]} in
  (rateLimitCVUpload 7 50 m).2
  = Some {| rej_code := 429;
            rej_message := "Too many upload requests. Please try again later.";
            rej_field := None; rej_retryAfter := Some 60%Z |}
  ∧ (rateLimitCVUpload 7 50 m).1 = m
  ∧ (rateLimitCVUpload 7 60040 m).2 = None
  ∧ (rateLimitCVUpload 7 60040 m).1 !! 7%nat = Some [ 60040%Z ].
Proof.
  split; [reflexivity|].
  destruct (rate_limit_refusal_and_recovery 7 50
              ({[ 7%nat := [ 0; 10; 20; 30; 40 ]%Z ]})) as (Hrefused & _).
  split; [by apply (Hrefused _ eq_refl)|].
  destruct (rate_limit_refusal_and_recovery 7 60040
              ({[ 7%nat := [ 0; 10; 20; 30; 40 ]%Z ]})) as (_ & _ & Hquiet & _).
  apply Hquiet. rewrite lookup_singleton_eq. cbn.
  repeat constructor; unfold windowMs; lia.
Defined.

(** ** The upload route *)

Lemma validate_request_passed b :
  validateCVUploadRequest b = None →
  ∃ c1 l1 c2 l2,
    f_experienceLevel b = Some (String c1 l1)
    ∧ f_major b = Some (String c2 l2)
    ∧ String c1 l1 ∈ validExperienceLevels
    ∧ (2 ≤ String.length (trim (String c2 l2)) ≤ 100)%nat
    ∧ (given (f_jobId b) = true →
       ∃ j, f_jobId b = Some j ∧ is_object_id j = true).
Proof.
  unfold validateCVUploadRequest.
  destruct (f_experienceLevel b) as [[|c1 l1]|]; try done.
  destruct (f_major b) as [[|c2 l2]|]; try done.
  destruct (bool_decide (String c1 l1 ∈ validExperienceLevels)) eqn:Hlevel;
    [|done].
  apply bool_decide_eq_true in Hlevel. cbn [negb].
  destruct (String.length (trim (String c2 l2)) <? 2)%nat eqn:Hlo; [done|].
  destruct (100 <? String.length (trim (String c2 l2)))%nat eqn:Hhi; [done|].
  apply Nat.ltb_ge in Hlo, Hhi. cbn [orb].
  intros Hid. exists c1, l1, c2, l2. split_and!; try done.
  destruct (f_jobId b) as [[|c j]|]; try done.
  intros _. exists (String c j). split; [done|].
  by destruct (is_object_id (String c j)).
Qed.

Lemma validate_request_refused b r :
  validateCVUploadRequest b = Some r →
  rej_code r = 400%nat ∧ is_Some (rej_field r).
Proof.
  unfold validateCVUploadRequest.
  destruct (f_experienceLevel b) as [[|c1 l1]|];
    try (intros [= <-]; by split).
  destruct (f_major b) as [[|c2 l2]|]; try (intros [= <-]; by split).
  destruct (negb _); [intros [= <-]; by split|].
  destruct (_ || _); [intros [= <-]; by split|].
  destruct (f_jobId b) as [[|c j]|]; try done.
  destruct (is_object_id _); [done|]. intros [= <-]. by split.
Qed.

Section RouteProperties.

Variable validate : CVAnalysis -> option string.

(** X20.  Behind the validation of the route, an upload that is
    accepted has stored a record of the caller in processing whose
    experience level is one of the four of the schema and whose major
    is the trimmed field, 2 to 100 characters long, and has started one
    run for it.  The controller's own answer "Experience level and
    major are required" is never given through the route. *)
Theorem route_accepts_within_schema_bounds
    (c : UploadCall) (limiter : gmap nat (list Z)) (w : World) :
  let out := uploadRoute validate c limiter w in
  (∀ response, out.1.2 = Answered response → code response = 202%nat →
     ∃ id d field,
       db out.1.1.2 !! id = Some d
       ∧ out.2 = [ id ]
       ∧ userId d = call_user c
       ∧ processingStatus d = Processing
       ∧ experienceLevel (jobData d) ∈ validExperienceLevels
       ∧ f_major (call_fields c) = Some field
       ∧ major (jobData d) = trim field
       ∧ (2 ≤ String.length (major (jobData d)) ≤ 100)%nat)
  ∧ out.1.2
    ≠ Answered {| code := 400;
                  body := Plain false "Experience level and major are required" |}.
Proof.
  assert (∀ (a : Answer) (P : Response → Prop),
            (∀ response, a = Answered response → code response ≠ 202%nat) →
            a ≠ Answered {| code := 400;
                            body := Plain false
                              "Experience level and major are required" |} →
            (∀ response, a = Answered response → code response = 202%nat →
                         P response)
            ∧ a ≠ Answered {| code := 400;
                              body := Plain false
                                "Experience level and major are required" |})
    as Hother.
  { intros a P Hcode Hne. split; [|done]. intros response Ha H202.
    by destruct (Hcode response Ha). }
  unfold uploadRoute.
  destruct (rateLimitCVUpload (call_user c) (call_now c) limiter)
    as [limiter' [r|]]; [by apply Hother|].
  destruct (uploadCV (call_multer c) w) as [w1 [r|]]; [by apply Hother|].
  destruct (validateCVUploadRequest (call_fields c)) as [r|] eqn:Hvalid;
    [by apply Hother|].
  apply validate_request_passed in Hvalid
    as (c1 & l1 & c2 & l2 & Hlevel & Hmajor & Hin & Hlen & _).
  unfold uploadAndAnalyzeCV. cbn [up_experienceLevel up_major up_file
                                  up_targetJobTitle].
  rewrite Hlevel, Hmajor.
  destruct (uploaded_file (call_multer c)) as [file|].
  2:{ cbn [fst snd]. apply Hother; [by intros response [= <-]|done]. }
  match goal with |- context [validate ?d] => destruct (validate d) end.
  { cbn [fst snd]. apply Hother; [by intros response [= <-]|done]. }
  cbn [fst snd]. split; [|done].
  intros response [= <-] _. eexists _, _, (String c2 l2).
  cbn [db]. rewrite lookup_insert_eq.
  cbn [jobData major experienceLevel userId processingStatus].
  split_and!; try done; cbn [jobData major]; lia.
Qed.

(** X21.  A request that gets past the limiter with a stored file and
    is then refused by the validation is answered 400 with the name of
    the field, but its file stays in the upload directory and its time
    stays with the limiter: nothing on this path removes either, and no
    record is created. *)
Theorem route_refusal_keeps_file_and_slot
    (c : UploadCall) (limiter : gmap nat (list Z)) (w : World)
    (file : File) (r : Rejection) :
  (rateLimitCVUpload (call_user c) (call_now c) limiter).2 = None →
  call_multer c = Stored file →
  validateCVUploadRequest (call_fields c) = Some r →
  let out := uploadRoute validate c limiter w in
  out.1.2 = Refused r
  ∧ rej_code r = 400%nat
  ∧ is_Some (rej_field r)
  ∧ path file ∈ files out.1.1.2
  ∧ db out.1.1.2 = db w
  ∧ out.2 = []
  ∧ call_now c ∈ default [] (out.1.1.1 !! call_user c).
Proof.
  intros Hpass Hfile Hrefused. unfold uploadRoute.
  destruct (validate_request_refused _ _ Hrefused) as [Hcode Hfield].
  unfold rateLimitCVUpload in *.
  destruct (maxUploads <=? _)%nat; [done|].
  rewrite Hfile. cbn [uploadCV]. rewrite Hrefused. cbn.
  rewrite lookup_insert_eq. cbn. split_and!; try done.
  - apply elem_of_union_r. by apply elem_of_singleton.
  - apply elem_of_app. right. by apply list_elem_of_singleton.
Qed.

End RouteProperties.

Lemma route_accepts_within_schema_bounds_witness :
  let out := uploadRoute sample_validate (sample_call sample_fields) ∅
               sample_world in
  ∃ id d,
    out.1.2 = Answered {| code := 202;
                          body := Started
                            "CV uploaded successfully. Analysis is in progress."
                            id Processing |}
    ∧ db out.1.1.2 !! id = Some d
    ∧ major (jobData d) = "Computer Science"
    ∧ (2 ≤ String.length (major (jobData d)) ≤ 100)%nat.
Proof.
  destruct (route_accepts_within_schema_bounds sample_validate
              (sample_call sample_fields) ∅ sample_world) as [Haccepted _].
  destruct (Haccepted _ eq_refl eq_refl)
    as (id & d & field & Hd & Hruns & _ & _ & _ & Hfield & Hmajor & Hlen).
  exists id, d. injection Hruns as <-. injection Hfield as <-.
  split; [reflexivity|]. split; [exact Hd|]. split; [exact Hmajor|exact Hlen].
Defined.

Lemma route_refusal_keeps_file_and_slot_witness :
  let fields := {| f_experienceLevel := Some "expert";
                   f_major := Some "Computer Science"; f_jobId := None |} in
  let out := uploadRoute sample_validate (sample_call fields) ∅ sample_world in
  validateCVUploadRequest fields
  = Some (field_error
            "Invalid experience level. Must be one of: entry, mid, senior, executive"
            "experienceLevel")
  ∧ path sample_file ∈ files out.1.1.2
  ∧ db out.1.1.2 = db sample_world
  ∧ out.1.1.1 !! 7%nat = Some [ 1000%Z ].
Proof.
  split; [reflexivity|].
  assert (validateCVUploadRequest
            {| f_experienceLevel := Some "expert";
               f_major := Some "Computer Science"; f_jobId := None |}
          = Some (field_error
                    "Invalid experience level. Must be one of: entry, mid, senior, executive"
                    "experienceLevel")) as Hrefused by reflexivity.
  assert ((rateLimitCVUpload 7 1000 ∅).2 = None) as Hpass by reflexivity.
  destruct (route_refusal_keeps_file_and_slot sample_validate
              (sample_call {| f_experienceLevel := Some "expert";
                              f_major := Some "Computer Science";
                              f_jobId := None |})
              ∅ sample_world sample_file _ Hpass eq_refl Hrefused)
    as (_ & _ & _ & Hfile & Hdb & _ & _).
  split; [exact Hfile|]. split; [exact Hdb|]. reflexivity.
Defined.


(** ** The PDF parser *)

Lemma append_nil_right (s : string) : s +:+ EmptyString = s.
Proof. induction s as [|c s IH]; [done|]. by rewrite append_cons, IH. Qed.

Lemma split_go_first skipping piece s :
  skipping = false →
  ∃ more rest, split_go skipping piece s = (piece +:+ more) :: rest.
Proof.
  intros ->. revert piece. induction s as [|c t IH]; intros piece.
  - exists EmptyString, []. cbn [split_go]. by rewrite append_nil_right.
  - cbn [split_go]. destruct (is_space c).
    + exists EmptyString, (split_go true EmptyString t).
      by rewrite append_nil_right.
    + destruct (IH (piece +:+ String c EmptyString)) as (more & rest & ->).
      exists (String c more), rest. f_equal.
      apply append_assoc_cons.
Qed.

Lemma split_go_length skipping piece s :
  (1 ≤ length (split_go skipping piece s))%nat.
Proof.
  revert skipping piece. induction s as [|c t IH]; intros skipping piece.
  - cbn. lia.
  - cbn [split_go]. destruct (is_space c); [destruct skipping|];
      [apply IH| cbn [length]; lia | apply IH].
Qed.

Lemma split_go_all_space skipping piece s word :
  all_space s = true →
  word ∈ split_go skipping piece s →
  word = piece ∨ word = EmptyString.
Proof.
  unfold all_space. revert skipping piece.
  induction s as [|c t IH]; intros skipping piece Hall Hin.
  - cbn [split_go] in Hin. apply list_elem_of_singleton in Hin. by left.
  - cbn [list_ascii_of_string forallb] in Hall.
    apply andb_true_iff in Hall as [Hc Ht].
    cbn [split_go] in Hin. rewrite Hc in Hin. destruct skipping.
    + by apply (IH true piece).
    + apply elem_of_cons in Hin as [->|Hin]; [by left|].
      destruct (IH true EmptyString Ht Hin) as [->| ->]; by right.
Qed.

Lemma trimEnd_keeps_head c t :
  is_space c = false → ∃ t', trimEnd (String c t) = String c t'.
Proof.
  intros Hc. cbn [trimEnd]. rewrite Hc.
  destruct (trimEnd t) as [|c' t']; eauto.
Qed.

Lemma trimStart_head s :
  trimStart s = EmptyString ∧ all_space s = true
  ∨ ∃ c t, trimStart s = String c t ∧ is_space c = false.
Proof.
  unfold all_space. induction s as [|c t IH]; [by left|].
  cbn [trimStart list_ascii_of_string forallb].
  destruct (is_space c) eqn:Hc; [|right; eauto].
  destruct IH as [[-> ->]|IH]; [by left|by right].
Qed.

Lemma trim_head s :
  trim s = EmptyString ∧ all_space s = true
  ∨ ∃ c t, trim s = String c t ∧ is_space c = false.
Proof.
  unfold trim. destruct (trimStart_head s) as [[-> Hall]|(c & t & -> & Hc)].
  - by left.
  - right. destruct (trimEnd_keeps_head c t Hc) as [t' ->]. eauto.
Qed.

Lemma is_valid_word_length word :
  is_valid_word word = true → (2 ≤ String.length word)%nat.
Proof.
  unfold is_valid_word. intros [[H _]%andb_true_iff _]%andb_true_iff.
  by apply Nat.leb_le in H.
Qed.

Lemma length_append_string (a b : string) :
  String.length (a +:+ b) = (String.length a + String.length b)%nat.
Proof.
  induction a as [|c a IH]; [done|]. rewrite append_cons. cbn [String.length].
  by rewrite IH.
Qed.

(** What a text has that [validateExtractedContent] lets through. *)
Lemma validateExtractedContent_passed pdf text :
  validateExtractedContent pdf text = None →
  (50 ≤ String.length text)%nat
  ∧ (Z.of_nat (String.length text) ≤ maxTextLength pdf)%Z
  ∧ (length (split_whitespace text)
     ≤ 2 * length (List.filter is_valid_word (split_whitespace text)))%nat.
Proof.
  unfold validateExtractedContent. destruct text as [|c t]; [done|].
  cbv zeta.
  destruct (String.length (String c t) <? 50)%nat eqn:Hshort; [done|].
  destruct (maxTextLength pdf <? Z.of_nat (String.length (String c t)))%Z
    eqn:Hlong; [done|].
  destruct (2 * length (List.filter is_valid_word
                          (split_whitespace (String c t)))
            <? length (split_whitespace (String c t)))%nat eqn:Hratio;
    [done|].
  intros _. apply Nat.ltb_ge in Hshort, Hratio. apply Z.ltb_ge in Hlong.
  done.
Qed.

Lemma validated_text_not_blank pdf text :
  validateExtractedContent pdf text = None → trim text ≠ EmptyString.
Proof.
  intros (_ & _ & Hratio)%validateExtractedContent_passed Hblank.
  pose proof (split_go_length false EmptyString text) as Hwords.
  fold (split_whitespace text) in Hwords.
  destruct (List.filter is_valid_word (split_whitespace text))
    as [|word valid] eqn:Hvalid; [cbn [length] in Hratio; lia|].
  assert (word ∈ List.filter is_valid_word (split_whitespace text)) as Hin
    by (rewrite Hvalid; left).
  apply list_elem_of_In, filter_In in Hin as [Hin%list_elem_of_In Hword].
  apply is_valid_word_length in Hword.
  destruct (trim_head text) as [[_ Hall]|(c & t & Heq & _)]; [|congruence].
  destruct (split_go_all_space _ _ _ _ Hall Hin) as [-> | ->];
    cbn [String.length] in Hword; lia.
Qed.

(** X22.  A text that [validateExtractedContent] lets through has
    between 50 characters and the service's maximum, at least half of
    its white-space separated pieces are words of the accepted form (2
    to 49 characters among letters, digits, [@], [.], [-]), it is not
    blank, and [countWords] counts at least one word in it. *)
Theorem validated_text_bounds_and_words
    (pdf : PDFParserService) (text : string) :
  validateExtractedContent pdf text = None →
  (50 ≤ String.length text)%nat
  ∧ (Z.of_nat (String.length text) ≤ maxTextLength pdf)%Z
  ∧ (length (split_whitespace text)
     ≤ 2 * length (List.filter is_valid_word (split_whitespace text)))%nat
  ∧ (∃ word, word ∈ split_whitespace text ∧ is_valid_word word = true)
  ∧ trim text ≠ EmptyString
  ∧ (1 ≤ countWords text)%nat.
Proof.
  intros Hpass.
  pose proof (validated_text_not_blank _ _ Hpass) as Hblank.
  destruct (validateExtractedContent_passed _ _ Hpass)
    as (Hshort & Hlong & Hratio).
  split_and!; try done.
  - pose proof (split_go_length false EmptyString text) as Hwords.
    fold (split_whitespace text) in Hwords.
    destruct (List.filter is_valid_word (split_whitespace text))
      as [|word valid] eqn:Hvalid; [cbn [length] in Hratio; lia|].
    assert (word ∈ List.filter is_valid_word (split_whitespace text)) as Hin
      by (rewrite Hvalid; left).
    apply list_elem_of_In, filter_In in Hin as [Hin%list_elem_of_In Hword].
    eauto.
  - unfold countWords. destruct text as [|c0 t0]; [done|].
    destruct (trim_head (String c0 t0)) as [[Heq _]|(c & t & -> & Hc)];
      [done|].
    unfold split_whitespace. cbn [split_go]. rewrite Hc.
    destruct (split_go_first false (EmptyString +:+ String c EmptyString) t
                eq_refl) as (more & rest & ->).
    cbn [List.filter]. rewrite length_append_string.
    rewrite append_empty. cbn [String.length Nat.add Nat.ltb Nat.leb length].
    lia.
Qed.

Lemma validated_text_bounds_and_words_witness :
  validateExtractedContent (new_PDFParserService None) sample_text = None
  ∧ (1 ≤ countWords sample_text)%nat.
Proof.
  assert (validateExtractedContent (new_PDFParserService None) sample_text
          = None) as Hpass by (vm_compute; reflexivity).
  split; [done|].
  by destruct (validated_text_bounds_and_words _ _ Hpass)
    as (_ & _ & _ & _ & _ & ?).
Defined.


Section ExtractionProperties.

Variable JSON_parse : string -> option json.
Variable validate : CVAnalysis -> option string.
Variable svc : OpenAIService.
Variable clean : string -> string.

(** A run whose extraction fails asks nothing of the API and marks the
    record failed with the message of the error, prefixed. *)
Lemma run_after_failed_extraction env id w d e :
  db w !! id = Some d →
  extraction env = Err e →
  (background_run JSON_parse validate svc env id w).2 = []
  ∧ db (background_run JSON_parse validate svc env id w).1 !! id
    = Some (with_errorMessage
              (Some (trim ("Failed to extract text from CV: "
                             +:+ error_message e)))
              (with_status Failed d)).
Proof.
  intros Hid Hext. unfold background_run, performAnalysis, analysis_body.
  rewrite Hid, Hext. cbv iota beta. cbn [fst snd error_message].
  split; [done|]. rewrite !lookup_markAnalysisAsFailed.
  destruct (decide (id = id)); [|done]. by rewrite Hid.
Qed.

Lemma extraction_of_failed pdf facts error :
  extractTextFromPDF clean pdf facts (Some "application/pdf") = inl error →
  pdf_message error = "Failed to extract text from PDF"
  ∧ extraction_of clean pdf facts
    = Err (Error "Failed to extract text from PDF").
Proof.
  unfold extraction_of. intros Hfail. rewrite Hfail.
  unfold extractTextFromPDF in Hfail.
  destruct (extraction_body _ _ _ _); [|done]. by injection Hfail as <-.
Qed.

(** X23.  Whatever makes the extraction fail (the file is missing, too
    large, empty, not a PDF, unreadable, pdf-parse fails or times out,
    the text is rejected), the error of [extractTextFromPDF] carries
    the message "Failed to extract text from PDF", and the run that
    called it asks nothing of the API and leaves the record failed with
    the error message "Failed to extract text from CV: Failed to
    extract text from PDF": the cause is not stored. *)
Theorem extraction_failure_recorded_generically
    (pdf : PDFParserService) (facts : FileFacts) (env : RunEnv)
    (id : nat) (w : World) (d : CVAnalysis) (error : pdferror) :
  db w !! id = Some d →
  extraction env = extraction_of clean pdf facts →
  extractTextFromPDF clean pdf facts (Some "application/pdf") = inl error →
  pdf_message error = "Failed to extract text from PDF"
  ∧ (background_run JSON_parse validate svc env id w).2 = []
  ∧ db (background_run JSON_parse validate svc env id w).1 !! id
    = Some (with_errorMessage
              (Some "Failed to extract text from CV: Failed to extract text from PDF")
              (with_status Failed d)).
Proof.
  intros Hid Henv [Hmsg Hfail]%extraction_of_failed.
  rewrite Hfail in Henv.
  destruct (run_after_failed_extraction env id w d _ Hid Henv) as [Heff Hdb].
  split_and!; [done|done|]. by rewrite Hdb.
Qed.

(** X24.  With [CV_UPLOAD_MAX_SIZE] unset, a stored file of more than
    5242880 bytes never yields text, whatever its content: the
    extraction fails in [validateFile], and the cause it wraps reads
    "File not accessible: File size ... exceeds maximum allowed size
    5242880".  An empty file fails the same way, as "File not
    accessible: File is empty". *)
Theorem large_or_empty_file_fails_as_not_accessible
    (facts : FileFacts) (mimetype : option string) (size : Z) :
  stat_size facts = inl size →
  (5242880 < size ∨ size = 0)%Z →
  extractTextFromPDF clean (new_PDFParserService None) facts mimetype
  = inl (PDFParserError "Failed to extract text from PDF"
           (PDFParserError "File validation failed"
              (PlainError
                 ("File not accessible: "
                    +:+ (if (5242880 <? size)%Z
                         then "File size " +:+ pretty size
                                +:+ " exceeds maximum allowed size 5242880"
                         else "File is empty"))))).
Proof.
  intros Hstat Hsize.
  unfold extractTextFromPDF, extraction_body, validateFile.
  rewrite Hstat. cbn [maxFileSize new_PDFParserService].
  destruct Hsize as [Hbig| ->].
  - apply Z.ltb_lt in Hbig. rewrite Hbig. reflexivity.
  - reflexivity.
Qed.

(** X25.  A text that [extractTextFromPDF] returns is never blank and
    has between 50 characters and the service's maximum, so the run
    that called it never stops on "No text content found in the
    uploaded CV". *)
Theorem extracted_text_never_blank
    (pdf : PDFParserService) (facts : FileFacts) (mimetype : option string)
    (text : string) (env : RunEnv) (id : nat) (w : World) :
  extractTextFromPDF clean pdf facts mimetype = inr text →
  extraction env = Ok text →
  (50 ≤ String.length text)%nat
  ∧ (Z.of_nat (String.length text) ≤ maxTextLength pdf)%Z
  ∧ trim text ≠ EmptyString
  ∧ (analysis_body JSON_parse validate svc env id w).2
    ≠ Err (Error "No text content found in the uploaded CV").
Proof.
  intros Hext Henv.
  assert (validateExtractedContent pdf text = None) as Hpass.
  { unfold extractTextFromPDF, extraction_body in Hext.
    destruct (validateFile _ _ _); [done|].
    destruct (read_error facts); [done|].
    destruct (parsed_text facts) as [rawText|]; [|done].
    destruct (cleanExtractedText clean rawText) as [|cleaned]; [done|].
    destruct (validateExtractedContent pdf cleaned) eqn:Hpass; [done|].
    by injection Hext as <-. }
  pose proof (validated_text_not_blank _ _ Hpass) as Hblank.
  destruct (validateExtractedContent_passed _ _ Hpass) as (Hshort & Hlong & _).
  split_and!; [done|done|done|].
  unfold analysis_body. destruct (db w !! id) as [analysis|]; [|done].
  rewrite Henv.
  destruct (validate (with_extractedText (Some text) analysis)); [done|].
  assert (negb (given (Some text)) || (String.length (trim text) =? 0)%nat
          = false) as ->.
  { destruct text as [|c t]; [done|]. cbn [given negb orb].
    destruct (trim (String c t)); done. }
  destruct (analyzeCV JSON_parse svc (api env)) as [eff [ai|e]] eqn:Hai.
  - destruct (validate _); done.
  - cbn [snd]. intros [= ->].
    assert ((analyzeCV JSON_parse svc (api env)).2
            = Err (Error "No text content found in the uploaded CV")) as Herr
      by (by rewrite Hai).
    apply analyzeCV_err in Herr. done.
Qed.

End ExtractionProperties.

Lemma extraction_failure_recorded_generically_witness :
  let env := {| extraction := extraction_of (λ s, s)
                                (new_PDFParserService None) (sample_facts 0);
                api := λ _, Ok (sample_completion (Some "{}")) |} in
  db sample_world !! 1%nat = Some (sample_doc 7 Completed 10)
  ∧ errorMessage <$>
      db (background_run table_parse sample_validate new_OpenAIService
            env 1 sample_world).1 !! 1%nat
    = Some (Some "Failed to extract text from CV: Failed to extract text from PDF").
Proof.
  split; [reflexivity|].
  destruct (extraction_failure_recorded_generically table_parse
              sample_validate new_OpenAIService (λ s, s)
              (new_PDFParserService None) (sample_facts 0)
              {| extraction := extraction_of (λ s, s)
                                 (new_PDFParserService None) (sample_facts 0);
                 api := λ _, Ok (sample_completion (Some "{}")) |}
              1 sample_world (sample_doc 7 Completed 10)
              (PDFParserError "Failed to extract text from PDF"
                 (PDFParserError "File validation failed"
                    (PlainError "File not accessible: File is empty")))
              eq_refl eq_refl eq_refl) as (_ & _ & Hdb).
  by rewrite Hdb.
Defined.

Lemma large_or_empty_file_fails_as_not_accessible_witness :
  extractTextFromPDF (λ s, s) (new_PDFParserService None)
    (sample_facts 6000000) (Some "application/pdf")
  = inl (PDFParserError "Failed to extract text from PDF"
           (PDFParserError "File validation failed"
              (PlainError
                 "File not accessible: File size 6000000 exceeds maximum allowed size 5242880"))).
Proof.
  rewrite (large_or_empty_file_fails_as_not_accessible (λ s, s)
             (sample_facts 6000000) (Some "application/pdf") 6000000 eq_refl);
    [reflexivity|]. left. reflexivity.
Defined.

Lemma extracted_text_never_blank_witness :
  extractTextFromPDF (λ s, s) (new_PDFParserService None)
    (sample_facts 1024) (Some "application/pdf") = inr sample_text
  ∧ trim sample_text ≠ EmptyString.
Proof.
  assert (extractTextFromPDF (λ s, s) (new_PDFParserService None)
            (sample_facts 1024) (Some "application/pdf") = inr sample_text)
    as Hext by (vm_compute; reflexivity).
  split; [done|].
  by destruct (extracted_text_never_blank table_parse sample_validate
                 new_OpenAIService (λ s, s) (new_PDFParserService None)
                 (sample_facts 1024) (Some "application/pdf") sample_text
                 {| extraction := Ok sample_text;
                    api := λ _, Ok (sample_completion (Some "{}")) |}
                 1 sample_world Hext eq_refl) as (_ & _ & ? & _).
Defined.


(** ** Authentication *)

Section AuthProperties.

Variable jwt_verify : string -> option Decoded.
Variable User_findById : option string -> option (option Account).
Variable Company_findById : option string -> option (option nat).

Local Abbreviation authenticateUser' :=
  (authenticateUser jwt_verify User_findById).
Local Abbreviation authenticateCompany' :=
  (authenticateCompany jwt_verify Company_findById).
Local Abbreviation authenticateAny' :=
  (authenticateAny jwt_verify User_findById Company_findById).
Local Abbreviation optionalAuth' :=
  (optionalAuth jwt_verify User_findById Company_findById).

(** What [authenticateUser] has checked when it calls [next]. *)
Lemma authenticateUser_next req u c t :
  authenticateUser' req = Next u c t →
  ∃ token decoded account,
    request_token req = Some token
    ∧ token ≠ EmptyString
    ∧ jwt_verify token = Some decoded
    ∧ tok_type decoded = Some "user"
    ∧ User_findById (tok_userId decoded) = Some (Some account)
    ∧ account_isActive account = true
    ∧ u = Some account ∧ c = None ∧ t = None.
Proof.
  unfold authenticateUser.
  destruct (request_token req) as [[|c0 t0]|]; try done.
  destruct (jwt_verify (String c0 t0)) as [decoded|] eqn:Hv; [|done].
  case_bool_decide as Htype; [|done]. cbn [negb].
  destruct (User_findById (tok_userId decoded)) as [[account|]|] eqn:Hu;
    try done.
  destruct (account_isActive account) eqn:Hact; [|done]. cbn [negb].
  intros [= <- <- <-]. exists (String c0 t0), decoded, account.
  split_and!; done.
Qed.

(** X26.  No request passes as a user and as a company: a request that
    [authenticateUser] lets through is answered 403 by
    [authenticateCompany], and the other way round. *)
Theorem user_and_company_access_exclusive (req : AuthRequest) :
  (∀ u c t, authenticateUser' req = Next u c t →
            authenticateCompany' req
            = Denied 403 "Access denied. Invalid token type.")
  ∧ (∀ u c t, authenticateCompany' req = Next u c t →
              authenticateUser' req
              = Denied 403 "Access denied. Invalid token type.").
Proof.
  split; intros u c t.
  - intros (token & decoded & account & Htok & Hne & Hv & Hty & _)
      %authenticateUser_next.
    unfold authenticateCompany. rewrite Htok.
    destruct token as [|c0 t0]; [done|]. rewrite Hv, Hty.
    by case_bool_decide.
  - unfold authenticateCompany, authenticateUser.
    destruct (request_token req) as [[|c0 t0]|]; try done.
    destruct (jwt_verify (String c0 t0)) as [decoded|]; [|done].
    case_bool_decide as Hty; [|done]. intros _. rewrite Hty.
    by case_bool_decide.
Qed.

(** X27.  The middlewares agree on who the user is: [authenticateUser]
    lets a request through as a user exactly when [authenticateAny]
    does and exactly when [optionalAuth] puts that user on the request;
    the user is then active.  [optionalAuth] refuses no request. *)
Theorem middlewares_agree_on_user (req : AuthRequest) :
  (∀ u c t, authenticateUser' req = Next u c t →
            ∃ account, u = Some account ∧ c = None ∧ t = None
                       ∧ account_isActive account = true)
  ∧ (∀ account, authenticateUser' req = Next (Some account) None None
                ↔ authenticateAny' req
                  = Next (Some account) None (Some "user"))
  ∧ (∀ account, authenticateUser' req = Next (Some account) None None
                ↔ optionalAuth' req
                  = Next (Some account) None (Some "user"))
  ∧ (∃ u c t, optionalAuth' req = Next u c t).
Proof.
  split_and!.
  - intros u c t (token & decoded & account & _ & _ & _ & _ & _ & Hact
                  & -> & -> & ->)%authenticateUser_next.
    by exists account.
  - intros account. unfold authenticateUser, authenticateAny.
    destruct (request_token req) as [[|c0 t0]|]; try done.
    destruct (jwt_verify (String c0 t0)) as [decoded|]; [|done].
    case_bool_decide as Hty; cbn [negb].
    + destruct (User_findById (tok_userId decoded)) as [[user|]|]; try done.
      destruct (account_isActive user); cbn [negb]; [|done].
      split; by intros [= ->].
    + case_bool_decide; [|done].
      destruct (Company_findById (tok_companyId decoded)) as [[company|]|];
        done.
  - intros account. unfold authenticateUser, optionalAuth.
    destruct (request_token req) as [[|c0 t0]|]; try done.
    destruct (jwt_verify (String c0 t0)) as [decoded|]; [|done].
    case_bool_decide as Hty; cbn [negb].
    + destruct (User_findById (tok_userId decoded)) as [[user|]|]; try done.
      destruct (account_isActive user); cbn [negb]; [|done].
      split; by intros [= ->].
    + case_bool_decide; [|done].
      destruct (Company_findById (tok_companyId decoded)) as [[company|]|];
        done.
  - unfold optionalAuth.
    destruct (request_token req) as [[|c0 t0]|]; eauto.
    destruct (jwt_verify (String c0 t0)) as [decoded|]; eauto.
    case_bool_decide.
    + destruct (User_findById (tok_userId decoded)) as [[user|]|]; eauto.
      destruct (account_isActive user); eauto.
    + case_bool_decide; eauto.
      destruct (Company_findById (tok_companyId decoded)) as [[company|]|];
        eauto.
Qed.

(** X28.  Every path of the CV analyzer's router other than
    [/test-upload] is reached only by a request whose token verifies,
    is of type [user] and names an account that exists and is active,
    which is then the [req.user] of the handlers, and is reached by
    every such request; [/test-upload] is reached by every request,
    token or not, with no user. *)
Theorem cv_routes_need_active_user (req : AuthRequest) :
  cv_router_guard jwt_verify User_findById "/test-upload" req
  = Next None None None
  ∧ (∀ path u c t,
       path ≠ "/test-upload" →
       cv_router_guard jwt_verify User_findById path req = Next u c t →
       ∃ token decoded account,
         request_token req = Some token
         ∧ jwt_verify token = Some decoded
         ∧ tok_type decoded = Some "user"
         ∧ User_findById (tok_userId decoded) = Some (Some account)
         ∧ account_isActive account = true
         ∧ u = Some account)
  ∧ (∀ path token decoded account,
       path ≠ "/test-upload" →
       request_token req = Some token →
       token ≠ EmptyString →
       jwt_verify token = Some decoded →
       tok_type decoded = Some "user" →
       User_findById (tok_userId decoded) = Some (Some account) →
       account_isActive account = true →
       cv_router_guard jwt_verify User_findById path req
       = Next (Some account) None None)
  ∧ (∀ path,
       path ≠ "/test-upload" →
       cv_router_guard jwt_verify User_findById path req
       = authenticateUser' req).
Proof.
  assert (∀ path, path ≠ "/test-upload" →
            cv_router_guard jwt_verify User_findById path req
            = authenticateUser' req) as Hguard.
  { intros path Hpath%String.eqb_neq. unfold cv_router_guard.
    by rewrite Hpath. }
  split_and!; [done| | |exact Hguard].
  - intros path u c t Hpath. rewrite (Hguard path Hpath).
    intros (token & decoded & account & ? & _ & ? & ? & ? & ? & ? & _)
      %authenticateUser_next.
    by exists token, decoded, account.
  - intros path token decoded account Hpath Htok Hne Hv Hty Hu Hact.
    rewrite (Hguard path Hpath). unfold authenticateUser. rewrite Htok.
    destruct token as [|c0 t0]; [done|]. rewrite Hv, Hty.
    rewrite bool_decide_eq_true_2 by done. cbn [negb].
    by rewrite Hu, Hact.
Qed.

Lemma remove_first_prefix pattern t :
  remove_first pattern (pattern +:+ t) = t.
Proof.
  assert (String.prefix pattern (pattern +:+ t) = true) as Hp.
  { induction pattern as [|c p IH]; [by destruct t|].
    rewrite append_cons. cbn [String.prefix].
    destruct (ascii_dec c c); [done|congruence]. }
  assert (drop_chars (String.length pattern) (pattern +:+ t) = t) as Hd.
  { clear Hp. induction pattern as [|c p IH]; [by destruct t|].
    rewrite append_cons. cbn [String.length drop_chars]. apply IH. }
  destruct (pattern +:+ t) eqn:E; cbn [remove_first]; by rewrite Hp.
Qed.

(** X29.  For a header [Authorization: Bearer <token>] the token that
    is checked is the one of the header whenever it is not empty, the
    cookie being read only when it is; so a header token that does not
    verify is answered 401 even when the cookie holds a token that
    would. *)
Theorem bearer_header_before_cookie (t : string) (cookie : option string) :
  let req := {| authorization := Some ("Bearer " +:+ t);
                cookie_token := cookie |} in
  request_token req = (if given (Some t) then Some t else cookie)
  ∧ (t ≠ EmptyString → jwt_verify t = None →
     authenticateUser' req = Denied 401 "Invalid token.").
Proof.
  assert (request_token {| authorization := Some ("Bearer " +:+ t);
                           cookie_token := cookie |}
          = if given (Some t) then Some t else cookie) as Htok.
  { unfold request_token. cbn [authorization cookie_token fmap option_fmap
                               option_map].
    by rewrite remove_first_prefix. }
  cbv zeta. split; [done|]. intros Hne Hv. unfold authenticateUser.
  rewrite Htok. destruct t as [|c0 t0]; [done|]. cbn [given].
  by rewrite Hv.
Qed.

End AuthProperties.

Lemma user_and_company_access_exclusive_witness :
  authenticateCompany sample_verify sample_companies
    {| authorization := Some "Bearer user-token"; cookie_token := None |}
  = Denied 403 "Access denied. Invalid token type.".
Proof.
  apply (proj1 (user_and_company_access_exclusive sample_verify sample_users
                  sample_companies
                  {| authorization := Some "Bearer user-token";
                     cookie_token := None |})
           (Some {| account_id := 7; account_isActive := true |}) None None).
  reflexivity.
Defined.

Lemma middlewares_agree_on_user_witness :
  optionalAuth sample_verify sample_users sample_companies
    {| authorization := None; cookie_token := Some "user-token" |}
  = Next (Some {| account_id := 7; account_isActive := true |}) None
      (Some "user").
Proof.
  destruct (middlewares_agree_on_user sample_verify sample_users
              sample_companies
              {| authorization := None; cookie_token := Some "user-token" |})
    as (_ & _ & Hopt & _).
  apply (Hopt {| account_id := 7; account_isActive := true |}).
  reflexivity.
Defined.

Lemma cv_routes_need_active_user_witness :
  cv_router_guard sample_verify sample_users "/test-upload"
    {| authorization := None; cookie_token := None |}
  = Next None None None
  ∧ cv_router_guard sample_verify sample_users "/history"
      {| authorization := None; cookie_token := None |}
    = Denied 401 "Access denied. No token provided."
  ∧ cv_router_guard sample_verify sample_users "/history"
      {| authorization := Some "Bearer user-token"; cookie_token := None |}
    = Next (Some {| account_id := 7; account_isActive := true |}) None None.
Proof.
  split; [|split].
  - apply (proj1 (cv_routes_need_active_user sample_verify sample_users
                    {| authorization := None; cookie_token := None |})).
  - destruct (cv_routes_need_active_user sample_verify sample_users
                {| authorization := None; cookie_token := None |})
      as (_ & _ & _ & Hguard).
    rewrite (Hguard "/history"); [reflexivity|discriminate].
  - destruct (cv_routes_need_active_user sample_verify sample_users
                {| authorization := Some "Bearer user-token";
                   cookie_token := None |})
      as (_ & _ & Hpass & _).
    apply (Hpass "/history" "user-token"
             {| tok_type := Some "user"; tok_userId := Some "7";
                tok_companyId := None |});
      first [reflexivity|discriminate].
Defined.

Lemma bearer_header_before_cookie_witness :
  authenticateUser sample_verify sample_users
    {| authorization := Some "Bearer stale"; cookie_token := Some "user-token" |}
  = Denied 401 "Invalid token.".
Proof.
  apply (proj2 (bearer_header_before_cookie sample_verify sample_users
                  "stale" (Some "user-token"))); [discriminate|reflexivity].
Defined.

(** ** The usage counters *)

Section UsageProperties.

Variable JSON_parse : string -> option json.
Variable svc : OpenAIService.

Lemma since_reset_snoc calls c :
  since_reset (calls ++ [ c ])
  = match c with
    | ResetUsage => []
    | Analyze _ => since_reset calls ++ [ c ]
    end.
Proof. unfold since_reset. by rewrite foldl_app. Qed.

Lemma usage_after_analysis_counts client u :
  usage_after_analysis JSON_parse svc client u
  = {| tokensUsed :=
         tokensUsed u + counted_tokens JSON_parse svc (Analyze client);
       requestCount :=
         requestCount u
         + (if answered svc (Analyze client) then 1 else 0) |}.
Proof.
  unfold usage_after_analysis, counted_tokens, answered.
  destruct u as [t n].
  destruct (makeAPICallWithRetry svc client).2 as [response|e].
  - destruct (parseAndValidateResponse JSON_parse response).2;
      unfold trackUsage, countRequest; cbn [tokensUsed requestCount];
      f_equal; lia.
  - cbn [tokensUsed requestCount]. f_equal; lia.
Qed.

(** X30.  The counters of the service are running totals since the
    last reset: the request counter is the number of analyses whose
    request was answered (failed attempts are not counted), the token
    counter the sum of the total tokens of the responses that could be
    used.  So the token count reported with a successful analysis is
    the total before it plus the tokens of its response, not the tokens
    of that analysis; an analysis that gets no answer changes nothing;
    one whose answer cannot be used counts as a request and adds no
    tokens; a reset puts both counters back to 0. *)
Theorem reported_tokens_are_running_totals
    (calls : list ServiceCall) (client : nat -> result Completion) :
  let u := foldl (service_call JSON_parse svc) new_UsageStats calls in
  requestCount u
  = Z.of_nat (length (List.filter (answered svc) (since_reset calls)))
  ∧ tokensUsed u
    = foldr Z.add 0%Z (counted_tokens JSON_parse svc <$> since_reset calls)
  ∧ (∀ ai, (analyzeCV JSON_parse svc client).2 = Ok ai →
       ∃ response,
         (makeAPICallWithRetry svc client).2 = Ok response
         ∧ reported_tokens JSON_parse svc client u
           = Some (tokensUsed u + default 0 (total_tokens response))%Z
         ∧ requestCount (usage_after_analysis JSON_parse svc client u)
           = (requestCount u + 1)%Z)
  ∧ (∀ e, (makeAPICallWithRetry svc client).2 = Err e →
          usage_after_analysis JSON_parse svc client u = u)
  ∧ (∀ response e,
       (makeAPICallWithRetry svc client).2 = Ok response →
       (parseAndValidateResponse JSON_parse response).2 = Err e →
       usage_after_analysis JSON_parse svc client u
       = {| tokensUsed := tokensUsed u;
            requestCount := requestCount u + 1 |})
  ∧ service_call JSON_parse svc u ResetUsage = new_UsageStats.
Proof.
  cbv zeta.
  assert (∀ l,
            foldl (service_call JSON_parse svc) new_UsageStats l
            = {| tokensUsed :=
                   foldr Z.add 0%Z
                     (counted_tokens JSON_parse svc <$> since_reset l);
                 requestCount :=
                   Z.of_nat (length (List.filter (answered svc)
                                       (since_reset l))) |}) as Htotal.
  { induction l as [|c l IH] using rev_ind; [done|].
    rewrite foldl_app, since_reset_snoc. cbn [foldl]. rewrite IH.
    destruct c as [cl|]; [|done].
    cbn [service_call]. rewrite usage_after_analysis_counts.
    cbn [tokensUsed requestCount].
    rewrite fmap_app, List.filter_app, length_app. cbn [fmap list_fmap].
    f_equal.
    - generalize (counted_tokens JSON_parse svc (Analyze cl)).
      generalize (counted_tokens JSON_parse svc <$> since_reset l).
      intros ts t. induction ts as [|x ts IHts]; cbn; lia.
    - cbn [List.filter]. destruct (answered svc (Analyze cl)); cbn; lia. }
  rewrite Htotal. cbn [tokensUsed requestCount]. split_and!; try done.
  - intros ai Hok. unfold reported_tokens, usage_after_analysis. rewrite Hok.
    unfold analyzeCV, analyzeCVComprehensive in Hok.
    destruct (makeAPICallWithRetry svc client) as [effects [response|e]];
      cbn [fst snd] in *; [|done].
    exists response. split; [done|].
    by destruct (parseAndValidateResponse JSON_parse response).2.
  - intros e Herr. unfold usage_after_analysis. by rewrite Herr.
  - intros response e Hok Herr. unfold usage_after_analysis.
    by rewrite Hok, Herr.
Qed.

End UsageProperties.


Lemma reported_tokens_are_running_totals_witness :
  let client := λ _ : nat, Ok (sample_completion (Some "{}")) in
  let u := foldl (service_call table_parse new_OpenAIService) new_UsageStats
             [Analyze client] in
  requestCount u = 1%Z
  ∧ tokensUsed u = 1200%Z
  ∧ reported_tokens table_parse new_OpenAIService client u = Some 2400%Z.
Proof.
  destruct (reported_tokens_are_running_totals table_parse new_OpenAIService
              [Analyze (λ _, Ok (sample_completion (Some "{}")))]
              (λ _, Ok (sample_completion (Some "{}"))))
    as (Hcount & Htokens & Hrep & _).
  destruct (Hrep _ eq_refl) as (response & Hresp & Hrep' & _).
  cbv zeta. rewrite Hcount, Htokens, Hrep'. vm_compute in Hresp.
  injection Hresp as <-. split_and!; reflexivity.
Defined.
